(** * soru-slack-client: the entity synchronisation engine

    A shallow embedding of [src/structures/client.ts] and
    [src/structures/team.ts].  The store of the [Client] object is a record
    of finite maps; what the client does to the outside (events handed to
    listeners, requests to the web and realtime APIs, promises left
    floating, timers) is collected as the [Effects] of an operation; an
    event loop on top keeps the timers and promises that are pending.

    An operation runs from its call to its return, to the exception it
    throws, or to an [await] that has nothing to go on with; how the awaited
    promises settle is an argument of the operation.  Listeners only receive
    the events.  The classes of user.ts, channel.ts and message.ts are
    parameters: their constructors and [_patch] methods are functions of
    the client and the payload.  *)

From stdpp Require Import gmap strings list fin_maps.

Set Default Proof Using "Type".

(** ** JavaScript values *)

(** An optional property of a payload object.  [Absent]: the object does not
    own the property ([hasOwnProperty] is false).  [Present None]: the
    property is there and holds [undefined] or [null]. *)
Inductive field (A : Type) : Type :=
  | Absent
  | Present (v : option A).
Arguments Absent {A}.
Arguments Present {A} v.

(** Reading a property: an absent one reads as [undefined]. *)
Definition get {A} (f : field A) : option A :=
  match f with Absent => None | Present v => v end.

Definition hasOwnProperty {A} (f : field A) : bool :=
  match f with Absent => false | Present _ => true end.

(** Truthiness of a value that is a string, [undefined] or [null]. *)
Definition truthy (v : option string) : bool :=
  match v with
  | Some s => negb (String.eqb s "")
  | None => false
  end.

(** [a || b] on such values. *)
Definition js_or (a b : option string) : option string :=
  if truthy a then a else b.

(** A promise the code awaits, once it has settled. *)
Inductive settled (A : Type) : Type :=
  | Resolved (v : A)
  | Rejected.
Arguments Resolved {A} v.
Arguments Rejected {A}.

(** ** The entity classes client.ts builds on *)

(** The classes [User] (user.ts), [Channel] (channel.ts) and [Message]
    (message.ts), and the payload types they read.  client.ts uses the [id]
    of a user and of a channel and the [fullBot] flag of a user; the other
    properties of the payloads are for the classes themselves. *)
Class Entities : Type := {
  IIconData : Type;
  UserProfile : Type;
  ChannelProfile : Type;
  MessageBody : Type;
  User : Type;
  User_id : User → string;
  User_fullBot : User → bool;
  Channel : Type;
  Channel_id : Channel → string;
  Message : Type;
}.

(** Handles of the request API client and of the realtime session. *)
Record WebClient : Type := mkWebClient { web_token : string }.
Record RTMClient : Type := mkRTMClient { rtm_session : nat }.

Section Model.
Context {E : Entities}.

(** ** Payloads *)

(** team.ts, [ITeamData]. *)
Record ITeamData : Type := mkTeamData {
  td_id : string;
  td_fakeId : field string;
  td_name : field string;
  td_domain : field string;
  td_icon : field IIconData;
}.

(** The properties of [IUserData] that client.ts reads. *)
Record IUserData : Type := mkUserData {
  ud_id : option string;
  ud_bot_id : option string;
  ud_team_id : string;
  ud_profile : UserProfile;
}.

(** The properties of [IChannelData] that client.ts and team.ts read or
    write. *)
Record IChannelData : Type := mkChannelData {
  cd_id : string;
  cd_team_id : option string;
  cd_shared_team_ids : option (list string);
  cd_profile : ChannelProfile;
}.

(** A message-shaped event as [handleMessageEvent] reads it.  [md_item] is
    [data.item]: [None] when the event has none, else its [channel]. *)
#[warnings="-register-all"]
Inductive MessageData : Type := mkMessageData {
  md_subtype : option string;
  md_id : option string;
  md_bot_id : option string;
  md_user : option string;
  md_channel : option string;
  md_item : option (option string);
  md_team_id : string;
  md_message : option MessageData;
  md_previous_message : option MessageData;
  md_profile : UserProfile;
  md_body : MessageBody;
}.

(** The same object read as an [IUserData], as [this.addUser(data)] does at
    client.ts 628. *)
Definition as_IUserData (data : MessageData) : IUserData :=
  mkUserData (md_id data) (md_bot_id data) (md_team_id data) (md_profile data).

(** The properties of a [WebAPICallResult] that the code reads;
    [wr_next_cursor] is [ret.response_metadata && ret.response_metadata.next_cursor]. *)
Record WebAPICallResult : Type := mkResult {
  wr_ok : bool;
  wr_team : option ITeamData;
  wr_channels : option (list IChannelData);
  wr_members : option (list IUserData);
  wr_next_cursor : option string;
}.

(** What an awaited request settles to; [Resolved None] is a null result. *)
Definition response : Type := settled (option WebAPICallResult).

(** ** Team (team.ts) *)

(** [t_name] and [t_domain] are [None] until first assigned.  The fields no
    operation below touches (email, enterprise, bots) are left out. *)
Record Team : Type := mkTeam {
  t_channels : gmap string Channel;
  t_users : gmap string User;
  t_id : string;
  t_name : option string;
  t_domain : option string;
  t_icon : option IIconData;
  t_partial : bool;
  t_fakeId : option string;
}.

Definition Team_set_users (us : gmap string User) (t : Team) : Team :=
  mkTeam (t_channels t) us (t_id t) (t_name t) (t_domain t) (t_icon t)
         (t_partial t) (t_fakeId t).

Definition Team_set_channels (cs : gmap string Channel) (t : Team) : Team :=
  mkTeam cs (t_users t) (t_id t) (t_name t) (t_domain t) (t_icon t)
         (t_partial t) (t_fakeId t).

Definition Team_set_partial (b : bool) (t : Team) : Team :=
  mkTeam (t_channels t) (t_users t) (t_id t) (t_name t) (t_domain t)
         (t_icon t) b (t_fakeId t).

(** [Team._patch], team.ts 48-68.  [tokens] is [this.client.tokens]. *)
Definition Team_patch (tokens : gmap string string) (t : Team) (data : ITeamData)
  : Team :=
  let id := td_id data in
  let name := if hasOwnProperty (td_name data) then get (td_name data) else t_name t in
  let domain :=
    if hasOwnProperty (td_domain data) then get (td_domain data) else t_domain t in
  let icon := if hasOwnProperty (td_icon data) then get (td_icon data) else t_icon t in
  let fakeId :=
    if hasOwnProperty (td_fakeId data) then get (td_fakeId data) else t_fakeId t in
  if bool_decide (is_Some (tokens !! id)) then
    let partial :=
      if truthy fakeId && negb (t_partial t) then true else t_partial t in
    mkTeam (t_channels t) (t_users t) id name domain icon partial None
  else
    mkTeam (t_channels t) (t_users t) id name domain icon (t_partial t) fakeId.

(** The field initialisers of [Team]; [id] is assigned by the [_patch] of
    the constructor before anything reads it. *)
Definition Team_init : Team :=
  mkTeam ∅ ∅ "" None None None true None.

(** [new Team(client, data)], team.ts 43-46. *)
Definition Team_new (tokens : gmap string string) (data : ITeamData) : Team :=
  Team_patch tokens Team_init data.

(** ** Client (client.ts) *)

(** The fields of [Client], 56-62; [events] records whether [this.events] is
    set.  [users] (the own user of each team) is written by [addToken] only
    and is left out. *)
Record Client : Type := mkClient {
  tokens : gmap string string;
  teams : gmap string Team;
  webMap : gmap string WebClient;
  rtmMap : gmap string RTMClient;
  events : bool;
  startup : gset string;
}.

Definition Client_set_teams (ts : gmap string Team) (c : Client) : Client :=
  mkClient (tokens c) ts (webMap c) (rtmMap c) (events c) (startup c).

(** [this.startup.has(id)]. *)
Definition starting (c : Client) (id : string) : bool :=
  bool_decide (id ∈ startup c).

(** The constructors and [_patch] methods of the classes; each is handed the
    client object.  [_clone] copies an object: on values it is the
    identity. *)
Class Constructors : Type := {
  User_new : Client → IUserData → User;
  User_patch : Client → User → IUserData → User;
  Channel_new : Client → IChannelData → Channel;
  Channel_patch : Client → Channel → IChannelData → Channel;
  Message_new :
    Client → option MessageData → string → option string → option string → Message;
}.

(** ** What the client does to the outside *)

(** Domain events handed to the listeners, [this.emit(...)]. *)
Inductive Event : Type :=
  | EvAddTeam (t : Team)
  | EvChangeTeam (old new : Team)
  | EvAddUser (u : User)
  | EvChangeUser (old new : User)
  | EvAddChannel (ch : Channel)
  | EvChangeChannel (old new : Channel)
  | EvMessage (m : Message)
  | EvMessageChanged (old new : Message)
  | EvMessageDeleted (old : Message)
  | EvDisconnected.

(** Requests sent to the external collaborators. *)
Inductive Call : Type :=
  | CallTeamInfo (web : WebClient) (team : string)
  | CallConversationsList (web : WebClient) (cursor : option string)
  | CallUsersList (web : WebClient) (cursor : option string)
  | CallSubscribePresence (rtm : RTMClient) (ids : list string)
  | CallJoin (ch : Channel)
  | CallRtmDisconnect (rtm : RTMClient)
  | CallRtmStart (rtm : RTMClient)
  | CallEventsStop.

(** Promises left floating with a continuation attached. *)
Inductive Task : Type :=
  | TaskRetryUser (data : IUserData)
  | TaskRetryChannel (data : IChannelData)
  | TaskEmitAddChannel (ch : Channel).

(** [setTimeout(callback, delay)]; the one callback in the code restarts the
    session [tm_rtm] (client.ts 163-171). *)
Record Timer : Type := mkTimer { tm_delay : N; tm_rtm : RTMClient }.

Record Effects : Type := mkEffects {
  emitted : list Event;
  calls : list Call;
  deferred : list Task;
  scheduled : list Timer;
}.

Definition no_effects : Effects := mkEffects [] [] [] [].

Definition eff_app (a b : Effects) : Effects :=
  mkEffects (emitted a ++ emitted b) (calls a ++ calls b)
            (deferred a ++ deferred b) (scheduled a ++ scheduled b).

(** ** The monad of the operations: store, effects, exceptions *)

(** [Suspended]: the operation waits at an [await] whose promise has not
    settled. *)
Inductive Outcome (A : Type) : Type :=
  | Returned (a : A)
  | Thrown (err : string)
  | Suspended.
Arguments Returned {A} a.
Arguments Thrown {A} err.
Arguments Suspended {A}.

Record Run (A : Type) : Type := mkRun {
  outcome : Outcome A;
  store : Client;
  effects : Effects;
}.
Arguments mkRun {A} _ _ _.
Arguments outcome {A} _.
Arguments store {A} _.
Arguments effects {A} _.

Definition M (A : Type) : Type := Client → Run A.

Definition ret {A} (a : A) : M A := λ c, mkRun (Returned a) c no_effects.

Definition bind {A B} (m : M A) (k : A → M B) : M B := λ c,
  match m c with
  | mkRun (Returned a) c1 e1 =>
      match k a c1 with
      | mkRun o c2 e2 => mkRun o c2 (eff_app e1 e2)
      end
  | mkRun (Thrown err) c1 e1 => mkRun (Thrown err) c1 e1
  | mkRun Suspended c1 e1 => mkRun Suspended c1 e1
  end.

Definition throw {A} (err : string) : M A := λ c, mkRun (Thrown err) c no_effects.
Definition suspend {A} : M A := λ c, mkRun Suspended c no_effects.
Definition getClient : M Client := λ c, mkRun (Returned c) c no_effects.
Definition setTeams (ts : gmap string Team) : M unit :=
  λ c, mkRun (Returned tt) (Client_set_teams ts c) no_effects.
Definition emit (e : Event) : M unit :=
  λ c, mkRun (Returned tt) c (mkEffects [e] [] [] []).
Definition call (x : Call) : M unit :=
  λ c, mkRun (Returned tt) c (mkEffects [] [x] [] []).
Definition defer (t : Task) : M unit :=
  λ c, mkRun (Returned tt) c (mkEffects [] [] [t] []).
Definition setTimeout (rtm : RTMClient) (delay : N) : M unit :=
  λ c, mkRun (Returned tt) c (mkEffects [] [] [] [mkTimer delay rtm]).

End Model.

Arguments Returned {A} a.
Arguments Thrown {A} err.
Arguments Suspended {A}.
Arguments mkRun {E A} _ _ _.
Arguments outcome {E A} _.
Arguments store {E A} _.
Arguments effects {E A} _.

Declare Scope client_scope.
Delimit Scope client_scope with client.
Notation "'let*' x ':=' m 'in' k" := (bind m (λ x, k))
  (at level 10, x binder, m at level 100, k at level 200) : client_scope.
Notation "m ';;' k" := (bind m (λ _, k))
  (at level 100, k at level 200, right associativity) : client_scope.
Open Scope client_scope.

Section Operations.
Context {E : Entities} {K : Constructors}.

Definition when (b : bool) (m : M unit) : M unit :=
  if b then m else ret tt.

(** [for (const x of l) { f(x) }]. *)
Fixpoint forEach {A} (l : list A) (f : A → M unit) : M unit :=
  match l with
  | [] => ret tt
  | x :: l' => f x ;; forEach l' f
  end.

(** [await p] for a promise that has settled. *)
Definition await {A} (p : settled A) : M A :=
  match p with
  | Resolved v => ret v
  | Rejected => throw "rejected"
  end.

(** [Client.web], client.ts 67-73. *)
Definition web (teamId : string) : M WebClient :=
  let* c := getClient in
  match webMap c !! teamId with
  | Some w => ret w
  | None => throw "Team not found"
  end.

(** [Client.rtm], client.ts 75-81. *)
Definition rtm (teamId : string) : M RTMClient :=
  let* c := getClient in
  match rtmMap c !! teamId with
  | Some r => ret r
  | None => throw "Team not found"
  end.

(** [Client.addTeam], client.ts 591-606. *)
Definition addTeam (data : ITeamData) : M unit :=
  let* c := getClient in
  match teams c !! td_id data with
  | Some team =>
      let oldTeam := team in
      let team := Team_patch (tokens c) team data in
      setTeams (<[td_id data := team]> (teams c)) ;;
      when (negb (starting c (t_id team))) (emit (EvChangeTeam oldTeam team))
  | None =>
      let newTeam := Team_new (tokens c) data in
      setTeams (<[t_id newTeam := newTeam]> (teams c)) ;;
      when (negb (starting c (t_id newTeam))) (emit (EvAddTeam newTeam))
  end.

(** [map.get(key)] where the key may be [undefined]: the maps of the store
    hold string keys only. *)
Definition map_get {V} (m : gmap string V) (key : option string) : option V :=
  match key with
  | Some k => m !! k
  | None => None
  end.

(** [Client.addUser], client.ts 507-538.  [teamKey] is the key the team
    object was found under: patching the user writes through it. *)
Definition addUser (data : IUserData) (createTeam : bool) : M unit :=
  let* c := getClient in
  let teamKey := ud_team_id data in
  let userId := js_or (ud_id data) (ud_bot_id data) in
  match teams c !! teamKey with
  | Some team =>
      match userId, map_get (t_users team) userId with
      | Some key, Some user =>
          let oldUser := user in
          let user := User_patch c user data in
          setTeams (<[teamKey := Team_set_users (<[key := user]> (t_users team)) team]>
                      (teams c)) ;;
          when (negb (starting c (t_id team)) && negb (User_fullBot user))
               (emit (EvChangeUser oldUser user))
      | _, _ =>
          let newUser := User_new c data in
          setTeams (<[teamKey :=
                        Team_set_users (<[User_id newUser := newUser]> (t_users team)) team]>
                      (teams c)) ;;
          when (bool_decide (is_Some (rtmMap c !! t_id team)))
               (let* r := rtm (t_id team) in
                call (CallSubscribePresence r [User_id newUser])) ;;
          when (negb (starting c (t_id team)) && negb (User_fullBot newUser))
               (emit (EvAddUser newUser))
      end
  | None =>
      if createTeam then
        let* w := web teamKey in
        call (CallTeamInfo w teamKey) ;;
        defer (TaskRetryUser data)
      else ret tt
  end.

(** [data.team_id || (data.shared_team_ids && data.shared_team_ids[0])],
    client.ts 549. *)
Definition channel_teamId (data : IChannelData) : option string :=
  js_or (cd_team_id data)
        (match cd_shared_team_ids data with
         | Some ids => head ids
         | None => None
         end).

(** [Client.addChannel], client.ts 548-581.  The [addChannel] event of a new
    channel waits for [newChan.join()] to settle. *)
Definition addChannel (data : IChannelData) (createTeam : bool) : M unit :=
  match channel_teamId data with
  | Some teamId =>
      if negb (truthy (Some teamId)) then ret tt else
      let* c := getClient in
      match teams c !! teamId with
      | Some team =>
          match t_channels team !! cd_id data with
          | Some chan =>
              let oldChan := chan in
              let chan := Channel_patch c chan data in
              setTeams (<[teamId :=
                            Team_set_channels (<[cd_id data := chan]> (t_channels team)) team]>
                          (teams c)) ;;
              when (negb (starting c (t_id team))) (emit (EvChangeChannel oldChan chan))
          | None =>
              let newChan := Channel_new c data in
              setTeams (<[teamId :=
                            Team_set_channels (<[Channel_id newChan := newChan]>
                                                 (t_channels team)) team]>
                          (teams c)) ;;
              when (negb (starting c (t_id team)))
                   (call (CallJoin newChan) ;; defer (TaskEmitAddChannel newChan))
          end
      | None =>
          if createTeam then
            let* w := web teamId in
            call (CallTeamInfo w teamId) ;;
            defer (TaskRetryChannel data)
          else ret tt
      end
  | None => ret tt
  end.

(** The continuations of the floating promises, run once the promise has
    settled: the [then] callbacks at client.ts 531-536 and 574-579 (not run
    when the request rejects), and 567-569, where [catch] swallows the
    failure of [join] first.  The [addChannel] event of 568 carries the
    channel as it was built by the upsert, where the source hands over the
    object, with what has been patched into it since. *)
Definition run_task (t : Task) (r : response) : M unit :=
  match t, r with
  | TaskEmitAddChannel newChan, _ => emit (EvAddChannel newChan)
  | _, Rejected => ret tt
  | _, Resolved None => throw "TypeError"
  | TaskRetryUser data, Resolved (Some teamData) =>
      match wr_team teamData with
      | Some team => addTeam team ;; addUser data false
      | None => ret tt
      end
  | TaskRetryChannel data, Resolved (Some teamData) =>
      match wr_team teamData with
      | Some team => addTeam team ;; addChannel data false
      | None => ret tt
      end
  end.

(** *** The event normalizer *)

Definition suppressed_subtypes : list string :=
  ["channel_join"; "channel_name"; "message_replied"].

(** [list.includes(v)] for a value that may be [undefined]. *)
Definition includes (l : list string) (v : option string) : bool :=
  match v with
  | Some s => bool_decide (s ∈ l)
  | None => false
  end.

(** One round of the loop at client.ts 633-639. *)
Definition tryKey (userId : option string) (embedded : option MessageData)
  : option string :=
  match embedded with
  | Some m => if truthy userId then userId else js_or (md_user m) (md_bot_id m)
  | None => userId
  end.

(** [data.channel || data.item.channel], client.ts 632: reading [channel] of
    a missing [item] is a TypeError. *)
Definition message_channelId (data : MessageData) : M (option string) :=
  if truthy (md_channel data) then ret (md_channel data)
  else match md_item data with
       | Some ch => ret ch
       | None => throw "TypeError"
       end.

(** [Client.handleMessageEvent], client.ts 622-653. *)
Definition handleMessageEvent (data : MessageData) : M unit :=
  if includes suppressed_subtypes (md_subtype data) then ret tt else
  when (truthy (md_bot_id data)) (addUser (as_IUserData data) true) ;;
  let teamId := md_team_id data in
  let userId := js_or (md_user data) (md_bot_id data) in
  let* channelId := message_channelId data in
  let userId := tryKey (tryKey userId (md_message data)) (md_previous_message data) in
  let* c := getClient in
  if bool_decide (md_subtype data = Some "message_changed") then
    let oldMessage := Message_new c (md_previous_message data) teamId channelId userId in
    let newMessage := Message_new c (md_message data) teamId channelId userId in
    emit (EvMessageChanged oldMessage newMessage)
  else if bool_decide (md_subtype data = Some "message_deleted") then
    let oldMessage := Message_new c (md_previous_message data) teamId channelId userId in
    emit (EvMessageDeleted oldMessage)
  else
    let message := Message_new c (Some data) teamId channelId userId in
    emit (EvMessage message).

(** The events of the message kind among those emitted. *)
Definition is_message_event (e : Event) : bool :=
  match e with
  | EvMessage _ | EvMessageChanged _ _ | EvMessageDeleted _ => true
  | _ => false
  end.

Definition message_events (l : list Event) : list Event :=
  List.filter is_message_event l.

(** The id a user payload is looked up under, [data.id || data.bot_id]. *)
Definition user_key (d : IUserData) : option string :=
  js_or (ud_id d) (ud_bot_id d).

(** *** The connection supervisor *)

Definition RECONNECT_PAUSE : N := 15000.

(** The closure [reconnect] of [addToken], client.ts 160-172, for the
    session [r]; [torn_down] is how [rtm.disconnect()] settles. *)
Definition reconnect (r : RTMClient) (torn_down : settled unit) : M unit :=
  call (CallRtmDisconnect r) ;;
  await torn_down ;;
  setTimeout r RECONNECT_PAUSE.

(** The timer callback, client.ts 163-171; [started] is how [rtm.start()]
    settles. *)
Definition restart (r : RTMClient) (started : settled unit) : M unit :=
  call (CallRtmStart r) ;;
  match started with
  | Resolved _ => ret tt
  | Rejected => emit EvDisconnected
  end.

(** The listeners at client.ts 192-195 and 197-200. *)
Definition on_goodbye (r : RTMClient) (torn_down : settled unit) : M unit :=
  reconnect r torn_down.

Definition on_disconnected (r : RTMClient) (torn_down : settled unit) : M unit :=
  reconnect r torn_down.

(** [Client.disconnect], client.ts 83-91.  The sessions are visited in the
    order of [map_to_list], that of their keys, where the source visits them
    in the order in which they were registered; [torn_down] and [stopped]
    are how the awaited promises settle. *)
Definition disconnect (torn_down : RTMClient → settled unit) (stopped : settled unit)
  : M unit :=
  let* c := getClient in
  forEach (map_to_list (rtmMap c))
          (λ kv, call (CallRtmDisconnect kv.2) ;; await (torn_down kv.2)) ;;
  when (events c) (call CallEventsStop ;; await stopped).

(** *** Team.load (team.ts 79-132) *)

(** [this], a team object of the store, is named by the key it is stored
    under, so that what [addChannel] and [addUser] write to it is seen. *)
Definition getThis (key : string) : M Team :=
  let* c := getClient in
  match teams c !! key with
  | Some t => ret t
  | None => throw "no such object"
  end.

Definition setThis (key : string) (t : Team) : M unit :=
  let* c := getClient in
  setTeams (<[key := t]> (teams c)).

(** [channelData.team_id = id]. *)
Definition set_team_id (id : string) (d : IChannelData) : IChannelData :=
  mkChannelData (cd_id d) (Some id) (cd_shared_team_ids d) (cd_profile d).

(** The loop at team.ts 96-112.  [script] is what the awaited requests
    settle to, in order; what is left of it is returned. *)
Fixpoint load_channels (key : string) (cursor : option string) (script : list response)
  : M (list response) :=
  let* this := getThis key in
  let* w := web (t_id this) in
  call (CallConversationsList w cursor) ;;
  match script with
  | [] => suspend
  | p :: script =>
      let* result := await p in
      match result with
      | Some (mkResult true _ (Some channels) _ next_cursor) =>
          forEach channels (λ channelData,
            let* this := getThis key in
            addChannel (set_team_id (t_id this) channelData) true) ;;
          if truthy next_cursor then load_channels key next_cursor script
          else ret script
      | _ => throw "Bad response"
      end
  end.

(** The loop at team.ts 116-129. *)
Fixpoint load_users (key : string) (cursor : option string) (script : list response)
  : M (list response) :=
  let* this := getThis key in
  let* w := web (t_id this) in
  call (CallUsersList w cursor) ;;
  match script with
  | [] => suspend
  | p :: script =>
      let* result := await p in
      match result with
      | Some (mkResult true _ _ (Some members) next_cursor) =>
          forEach members (λ userData, addUser userData true) ;;
          if truthy next_cursor then load_users key next_cursor script
          else ret script
      | _ => throw "Bad response"
      end
  end.

(** [Team.load]. *)
Definition load (key : string) (script : list response) : M (list response) :=
  let* this := getThis key in
  let* w := web (default (t_id this) (js_or (t_fakeId this) (Some (t_id this)))) in
  call (CallTeamInfo w (t_id this)) ;;
  match script with
  | [] => suspend
  | p :: script =>
      let* result := await p in
      match result with
      | Some (mkResult true (Some team) _ _ _) =>
          let* c := getClient in
          setThis key (Team_patch (tokens c) this team) ;;
          let* this := getThis key in
          if truthy (t_fakeId this) then
            setThis key (Team_set_partial false this) ;;
            ret script
          else
            let* script := load_channels key None script in
            let* script := load_users key None script in
            let* this := getThis key in
            setThis key (Team_set_partial false this) ;;
            ret script
      | _ => throw "Bad response"
      end
  end.

(** ** The event loop *)

(** The store together with the timers and promises that are pending and
    the trace of what has been emitted and requested so far. *)
Record Loop : Type := mkLoop {
  lp_client : Client;
  lp_timers : list Timer;
  lp_tasks : list Task;
  lp_emitted : list Event;
  lp_calls : list Call;
}.

(** Run one operation to its end (or to where it throws or suspends). *)
Definition step {A} (m : M A) (l : Loop) : Loop :=
  let r := m (lp_client l) in
  mkLoop (store r)
         (lp_timers l ++ scheduled (effects r))
         (lp_tasks l ++ deferred (effects r))
         (lp_emitted l ++ emitted (effects r))
         (lp_calls l ++ calls (effects r)).

(** The [i]-th pending timer expires. *)
Definition fire (i : nat) (started : settled unit) (l : Loop) : option Loop :=
  match lp_timers l !! i with
  | Some t =>
      Some (step (restart (tm_rtm t) started)
                 (mkLoop (lp_client l) (delete i (lp_timers l)) (lp_tasks l)
                         (lp_emitted l) (lp_calls l)))
  | None => None
  end.

(** The [i]-th floating promise settles. *)
Definition settle (i : nat) (r : response) (l : Loop) : option Loop :=
  match lp_tasks l !! i with
  | Some t =>
      Some (step (run_task t r)
                 (mkLoop (lp_client l) (lp_timers l) (delete i (lp_tasks l))
                         (lp_emitted l) (lp_calls l)))
  | None => None
  end.

(** ** Reading a run *)

(** The effects [e] happened before the run [r]. *)
Definition prepend {A} (e : Effects) (r : Run A) : Run A :=
  mkRun (outcome r) (store r) (eff_app e (effects r)).

(** The cursors of the [conversations.list] requests, in the order sent. *)
Definition conversations_cursors (l : list Call) : list (option string) :=
  omap (λ x, match x with CallConversationsList _ cur => Some cur | _ => None end) l.

(** The cursors of the [users.list] requests, in the order sent. *)
Definition users_cursors (l : list Call) : list (option string) :=
  omap (λ x, match x with CallUsersList _ cur => Some cur | _ => None end) l.

(** A page of a listing: its items and the cursor the response carries. *)
Definition channels_page (p : list IChannelData * option string) : response :=
  Resolved (Some (mkResult true None (Some p.1) None p.2)).

Definition users_page (p : list IUserData * option string) : response :=
  Resolved (Some (mkResult true None None (Some p.1) p.2)).

(** A listing in pages: every page but the last carries a cursor. *)
Definition paginated {X} (more : list (list X * option string))
    (final : list X * option string) : Prop :=
  Forall (λ p, truthy p.2 = true) more ∧ truthy final.2 = false.

Definition all_items {X} (more : list (list X * option string))
    (final : list X * option string) : list X :=
  concat (fst <$> more) ++ final.1.

(** Upserting the channels of a team, and users, one after the other. *)
Definition upsert_channels (tid : string) (items : list IChannelData) : M unit :=
  forEach items (λ d, addChannel (set_team_id tid d) true).

Definition upsert_users (items : list IUserData) : M unit :=
  forEach items (λ d, addUser d true).

(** A load with everything at hand: the team as patched from [team.info],
    then all channels, then all users, then [partial] cleared. *)
Definition load_at_once (key : string) (patched : Team)
    (channels : list IChannelData) (users : list IUserData) : M unit :=
  setThis key patched ;;
  upsert_channels (t_id patched) channels ;;
  upsert_users users ;;
  let* this := getThis key in
  setThis key (Team_set_partial false this).

(** [c'] has the request clients of [c] and its teams, each under its key
    and with its id. *)
Definition same_ids (c c' : Client) : Prop :=
  webMap c' = webMap c ∧ tokens c' = tokens c ∧
  ∀ k t, teams c !! k = Some t → ∃ t', teams c' !! k = Some t' ∧ t_id t' = t_id t.

(** What it means for a listener [h] of the session [r] to reconnect once:
    run in the loop [l] with the teardown resolving, it asks the session to
    disconnect and leaves one more timer, of [RECONNECT_PAUSE] = 15000 ms,
    emitting nothing; when that timer expires and the restart fails, the
    [disconnected] event is emitted and the timers are those of [l] again. *)
Definition reconnects_once (h : RTMClient → settled unit → M unit)
    (r : RTMClient) (l : Loop) : Prop :=
  let l1 := step (h r (Resolved tt)) l in
  outcome (h r (Resolved tt) (lp_client l)) = Returned tt ∧
  lp_client l1 = lp_client l ∧
  lp_calls l1 = lp_calls l ++ [CallRtmDisconnect r] ∧
  lp_emitted l1 = lp_emitted l ∧
  lp_timers l1 = lp_timers l ++ [mkTimer 15000 r] ∧
  ∃ l2, fire (length (lp_timers l)) Rejected l1 = Some l2 ∧
        lp_calls l2 = lp_calls l1 ++ [CallRtmStart r] ∧
        lp_emitted l2 = lp_emitted l ++ [EvDisconnected] ∧
        lp_timers l2 = lp_timers l ∧
        lp_tasks l2 = lp_tasks l.

End Operations.

(** ** Lookups, listeners and the rest of Team *)

Section Handlers.
Context {E : Entities} {K : Constructors}.

(** [Client.getTeam], client.ts 608-610. *)
Definition getTeam (teamId : string) (c : Client) : option Team :=
  teams c !! teamId.

(** [Client.getUser], client.ts 540-546. *)
Definition getUser (userId teamId : string) (c : Client) : option User :=
  match teams c !! teamId with
  | None => None
  | Some team => t_users team !! userId
  end.

(** [Client.getChannel], client.ts 583-589. *)
Definition getChannel (channelId teamId : string) (c : Client) : option Channel :=
  match teams c !! teamId with
  | None => None
  | Some team => t_channels team !! channelId
  end.

(** Assigning the fields of the client other than [teams]. *)
Definition putClient (c : Client) : M unit :=
  λ _, mkRun (Returned tt) c no_effects.

(** [data.user.team_id = id]. *)
Definition set_user_team_id (id : string) (d : IUserData) : IUserData :=
  mkUserData (ud_id d) (ud_bot_id d) id (ud_profile d).

(** [data.team_id = id] on a message event. *)
Definition set_message_team_id (id : string) (d : MessageData) : MessageData :=
  mkMessageData (md_subtype d) (md_id d) (md_bot_id d) (md_user d) (md_channel d)
                (md_item d) id (md_message d) (md_previous_message d)
                (md_profile d) (md_body d).

(** The payload [{ id: teamId, name: name }] of the [team_rename]
    listeners. *)
Definition rename_payload (teamId : string) (name : option string) : ITeamData :=
  mkTeamData teamId Absent (Present name) Absent Absent.

(** *** Listeners on the realtime session (client.ts 238-317); [teamId] is
    the variable of that name of [addToken]. *)

Definition rtm_on_bot (teamId : string) (bot : IUserData) : M unit :=
  addUser (set_user_team_id teamId bot) true.

(** client.ts 246-257; [r] is how the [team.info] request settles. *)
Definition rtm_on_team_profile_change (teamId : string) (r : response) : M unit :=
  let* w := web teamId in
  call (CallTeamInfo w teamId) ;;
  let* result := await r in
  match result with
  | Some (mkResult true (Some team) _ _ _) => addTeam team
  | _ => ret tt
  end.

Definition rtm_on_channel (teamId : string) (channel : IChannelData) : M unit :=
  addChannel (set_team_id teamId channel) true.

Definition rtm_on_user (teamId : string) (user : IUserData) : M unit :=
  addUser (set_user_team_id teamId user) true.

Definition rtm_on_message (teamId : string) (data : MessageData) : M unit :=
  handleMessageEvent (set_message_team_id teamId data).

Definition rtm_on_team_rename (teamId : string) (name : option string) : M unit :=
  addTeam (rename_payload teamId name).

(** The listener on [authenticated], client.ts 202-231, of the session [r]
    with the request client [w] and the credential [token].  [team] is
    [data.team]; the own user is upserted from [data.self.id] and, for its
    name, [self_profile].  [script] is what the requests of [load] settle
    to, [stored] how [storeToken] settles when there is an events
    configuration.  The entry of [this.users] is not part of [Client]. *)
Definition on_authenticated (r : RTMClient) (w : WebClient) (token : string)
    (team : ITeamData) (self_id : string) (self_profile : UserProfile)
    (script : list response) (stored : option (settled unit)) : M unit :=
  let teamId := td_id team in
  let* c := getClient in
  putClient (mkClient (<[teamId := token]> (tokens c)) (teams c)
                      (<[teamId := w]> (webMap c)) (<[teamId := r]> (rtmMap c))
                      (events c) ({[teamId]} ∪ startup c)) ;;
  addTeam team ;;
  addUser (mkUserData (Some self_id) None teamId self_profile) true ;;
  let* c := getClient in
  match teams c !! teamId with
  | Some clientTeam =>
      if t_partial clientTeam then load teamId script ;; ret tt else ret tt
  | None => ret tt
  end ;;
  match stored with
  | Some s => await s
  | None => ret tt
  end ;;
  let* c := getClient in
  putClient (mkClient (tokens c) (teams c) (webMap c) (rtmMap c) (events c)
                      (startup c ∖ {[teamId]})).

(** *** Listeners on the events adapter (client.ts 393-468); [appId] is the
    configured app id, [api_app_id] and [team_id] come with the event. *)

(** client.ts 393-408; [torn_down] is how [rtm.disconnect()] settles.  The
    entry of [this.users] is not part of [Client]. *)
Definition on_app_uninstalled (appId : string) (api_app_id : option string)
    (teamId : string) (torn_down : settled unit) : M unit :=
  if negb (bool_decide (api_app_id = Some appId)) then ret tt else
  let* c := getClient in
  match rtmMap c !! teamId with
  | Some r => call (CallRtmDisconnect r) ;; await torn_down
  | None => ret tt
  end ;;
  let* c := getClient in
  putClient (mkClient (delete teamId (tokens c)) (delete teamId (teams c))
                      (delete teamId (webMap c)) (delete teamId (rtmMap c))
                      (events c) (startup c)).

Definition events_on_channel (appId : string) (api_app_id : option string)
    (team_id : string) (channel : IChannelData) : M unit :=
  if negb (bool_decide (api_app_id = Some appId)) then ret tt else
  addChannel (set_team_id team_id channel) true.

Definition events_on_user (appId : string) (api_app_id : option string)
    (team_id : string) (user : IUserData) : M unit :=
  if negb (bool_decide (api_app_id = Some appId)) then ret tt else
  addUser (set_user_team_id team_id user) true.

Definition events_on_message (appId : string) (api_app_id : option string)
    (team_id : string) (data : MessageData) : M unit :=
  if negb (bool_decide (api_app_id = Some appId)) then ret tt else
  handleMessageEvent (set_message_team_id team_id data).

Definition events_on_team_rename (appId : string) (api_app_id : option string)
    (team_id : string) (name : option string) : M unit :=
  if negb (bool_decide (api_app_id = Some appId)) then ret tt else
  addTeam (rename_payload team_id name).

(** *** Team.joinAllChannels (team.ts 70-77) *)

(** [this] is the team stored under [key]; [script] is what the requests of
    [load] settle to, [joined] how the [join] of each channel does.  The
    channels are visited in the order of [map_to_list], that of their keys,
    where the source visits them in the order in which they were added. *)
Definition joinAllChannels (key : string) (script : list response)
    (joined : Channel → settled unit) : M unit :=
  let* this := getThis key in
  (if t_partial this then load key script ;; ret tt else ret tt) ;;
  let* this := getThis key in
  forEach (map_to_list (t_channels this))
          (λ kv, call (CallJoin kv.2) ;; await (joined kv.2)).

(** ** Relations between stores *)

(** Every team is stored under its id. *)
Definition keys_are_ids (c : Client) : Prop :=
  ∀ k t, teams c !! k = Some t → t_id t = k.

(** There is a team for every request client. *)
Definition clients_have_teams (c : Client) : Prop :=
  ∀ k, is_Some (webMap c !! k) → is_Some (teams c !! k).

(** From [c] to [c'] only the team registry has changed, and no team has
    left it. *)
Definition grows (c c' : Client) : Prop :=
  tokens c' = tokens c ∧ webMap c' = webMap c ∧ rtmMap c' = rtmMap c ∧
  events c' = events c ∧ startup c' = startup c ∧
  ∀ k, is_Some (teams c !! k) → is_Some (teams c' !! k).

(** The operation [m] takes every store to one related to it by [R]. *)
Definition keeps {A} (R : Client → Client → Prop) (m : M A) : Prop :=
  ∀ c, R c (store (m c)).

(** The operation [m] keeps the property [P] of the store. *)
Definition preserves {A} (P : Client → Prop) (m : M A) : Prop :=
  ∀ c, P c → P (store (m c)).

(** Where [P] holds, [m] emits no event, attaches no continuation to a
    promise it leaves floating, and [P] holds afterwards. *)
Definition silent {A} (P : Client → Prop) (m : M A) : Prop :=
  ∀ c, P c →
       emitted (effects (m c)) = [] ∧ deferred (effects (m c)) = [] ∧ P (store (m c)).

(** As [silent], and a value [m] returns satisfies [Q]. *)
Definition silent_to {A} (P : Client → Prop) (Q : A → Prop) (m : M A) : Prop :=
  ∀ c, P c →
       emitted (effects (m c)) = [] ∧ deferred (effects (m c)) = [] ∧ P (store (m c)) ∧
       ∀ a, outcome (m c) = Returned a → Q a.

(** The store right after the [authenticated] listener has registered the
    session: client.ts 205-208. *)
Definition registered (r : RTMClient) (w : WebClient) (token teamId : string)
    (c : Client) : Client :=
  mkClient (<[teamId := token]> (tokens c)) (teams c)
           (<[teamId := w]> (webMap c)) (<[teamId := r]> (rtmMap c))
           (events c) ({[teamId]} ∪ startup c).

(** The [authenticated] listener between the registration and the last
    line: client.ts 209-229. *)
Definition authenticated_body (team : ITeamData) (self : IUserData)
    (script : list response) (stored : option (settled unit)) : M unit :=
  addTeam team ;;
  addUser self true ;;
  (let* c := getClient in
   match teams c !! td_id team with
   | Some clientTeam =>
       if t_partial clientTeam then load (td_id team) script ;; ret tt else ret tt
   | None => ret tt
   end) ;;
  match stored with
  | Some s => await s
  | None => ret tt
  end.

(** [this.startup.delete(teamId)], client.ts 230. *)
Definition leave_startup (teamId : string) : M unit :=
  let* c := getClient in
  putClient (mkClient (tokens c) (teams c) (webMap c) (rtmMap c) (events c)
                      (startup c ∖ {[teamId]})).

(** The store without any entry for [teamId]: client.ts 403-406. *)
Definition uninstalled (teamId : string) (c : Client) : Client :=
  mkClient (delete teamId (tokens c)) (delete teamId (teams c))
           (delete teamId (webMap c)) (delete teamId (rtmMap c))
           (events c) (startup c).

(** The team stored under [key] is partial. *)
Definition partial_at (key : string) (c : Client) : Prop :=
  ∃ t, teams c !! key = Some t ∧ t_partial t = true.

(** The run [r] has marked the team under [key] as loaded exactly if it has
    returned. *)
Definition loaded_iff_returned {A} (key : string) (r : Run A) : Prop :=
  ∃ t, teams (store r) !! key = Some t ∧
       (t_partial t = false ↔ ∃ a, outcome r = Returned a).

(** The signals [goodbye] or [disconnected] of the sessions [rs], one after
    the other, each teardown resolving. *)
Definition signals (rs : list RTMClient) (l : Loop) : Loop :=
  foldl (λ l r, step (on_disconnected r (Resolved tt)) l) l rs.

(** The team [tid] is starting up and is in the store under its id. *)
Definition starting_up (tid : string) (c : Client) : Prop :=
  tid ∈ startup c ∧ ∃ t, teams c !! tid = Some t ∧ t_id t = tid.

(** The answers of [script] are about the team [tid]: a team they carry has
    that id, a member they list is of that team. *)
Definition about_team (tid : string) (script : list response) : Prop :=
  Forall (λ p, ∀ res, p = Resolved (Some res) →
                 (∀ ti, wr_team res = Some ti → td_id ti = tid) ∧
                 (∀ ms, wr_members res = Some ms →
                        Forall (λ d, ud_team_id d = tid) ms))
         script.

(** The team [tid] of [c'] holds a channel for the payload [d]: under the id
    of the payload, where [addChannel] finds and patches one, or under the
    id the constructor gave the channel [addChannel] built from [d]. *)
Definition holds_channel (tid : string) (d : IChannelData) (c' : Client) : Prop :=
  is_Some (getChannel (cd_id d) tid c')
  ∨ ∃ c0, is_Some (getChannel (Channel_id (Channel_new c0 d)) tid c').

(** The team of the payload [d] holds, in [c'], a user for it: under
    [data.id || data.bot_id], where [addUser] finds and patches one, or
    under the id the constructor gave the user [addUser] built from [d]. *)
Definition holds_user (d : IUserData) (c' : Client) : Prop :=
  (∃ key, user_key d = Some key ∧ is_Some (getUser key (ud_team_id d) c'))
  ∨ ∃ c0, is_Some (getUser (User_id (User_new c0 d)) (ud_team_id d) c').

(** No channel and no user that [c] finds is missing from [c']. *)
Definition retains (c c' : Client) : Prop :=
  (∀ cid tid, is_Some (getChannel cid tid c) → is_Some (getChannel cid tid c'))
  ∧ (∀ uid tid, is_Some (getUser uid tid c) → is_Some (getUser uid tid c')).

(** The team of the member [d] is in the store or has a request client:
    [addUser] with [createTeam] set does not throw on it. *)
Definition reachable (c : Client) (d : IUserData) : Prop :=
  is_Some (teams c !! ud_team_id d) ∨ is_Some (webMap c !! ud_team_id d).

(** The actor of a message event: the user of the event, else its bot, else
    those of the embedded message, else those of the previous message. *)
Definition message_userId (data : MessageData) : option string :=
  tryKey (tryKey (js_or (md_user data) (md_bot_id data)) (md_message data))
         (md_previous_message data).

End Handlers.

(** ** The entity classes, from the specification *)

(** Modelled from the spec: the classes [User], [Channel] and [Message];
    user.ts, channel.ts and message.ts are not among the sources.  A user
    has an id, a team reference, a display name, the [fullBot] flag and the
    [partial] flag; a channel an id, a team reference and a name; a message
    carries its team, channel and user references, its text and its subtype.
    A user built from a payload that names a bot id and no user id is taken
    to be a synthetic bot identity.  Patching assigns the properties the
    payload owns. *)
Record SpecUser : Type := mkSpecUser {
  su_id : string;
  su_team : string;
  su_name : option string;
  su_fullBot : bool;
  su_partial : bool;
}.

(** Modelled from the spec: a channel, with its id, team reference and
    name (channel.ts is not among the sources). *)
Record SpecChannel : Type := mkSpecChannel {
  sc_id : string;
  sc_team : option string;
  sc_name : option string;
}.

(** Modelled from the spec: a message, the value handed to the listeners
    (message.ts is not among the sources). *)
Record SpecMessage : Type := mkSpecMessage {
  sm_team : string;
  sm_channel : option string;
  sm_user : option string;
  sm_text : option string;
  sm_subtype : option string;
}.

(** Modelled from the spec: the classes and what the payloads hold for
    them, a display name for users and channels and a text for messages. *)
Definition spec_entities : Entities := {|
  IIconData := string;
  UserProfile := field string;
  ChannelProfile := field string;
  MessageBody := option string;
  User := SpecUser;
  User_id := su_id;
  User_fullBot := su_fullBot;
  Channel := SpecChannel;
  Channel_id := sc_id;
  Message := SpecMessage;
|}.

(** Modelled from the spec: the payload of a synthetic bot identity names a
    bot id and no user id. *)
Definition spec_synthetic (data : @IUserData spec_entities) : bool :=
  truthy (ud_bot_id data) && negb (truthy (ud_id data)).

(** Modelled from the spec: [User._patch] and the constructor of [User]. *)
Definition SpecUser_patch (u : SpecUser) (data : @IUserData spec_entities) : SpecUser :=
  mkSpecUser (default (su_id u) (js_or (ud_id data) (ud_bot_id data)))
             (su_team u)
             (if hasOwnProperty (ud_profile data : field string)
              then get (ud_profile data : field string) else su_name u)
             (su_fullBot u || spec_synthetic data)
             (su_partial u).

Definition SpecUser_new (data : @IUserData spec_entities) : SpecUser :=
  SpecUser_patch (mkSpecUser "" (ud_team_id data) None false true) data.

(** Modelled from the spec: [Channel._patch] and the constructor of
    [Channel]. *)
Definition SpecChannel_patch (ch : SpecChannel) (data : @IChannelData spec_entities)
  : SpecChannel :=
  mkSpecChannel (cd_id data) (sc_team ch)
                (if hasOwnProperty (cd_profile data : field string)
                 then get (cd_profile data : field string) else sc_name ch).

Definition SpecChannel_new (data : @IChannelData spec_entities) : SpecChannel :=
  SpecChannel_patch (mkSpecChannel "" (channel_teamId data) None) data.

(** Modelled from the spec: the constructor of [Message]. *)
Definition SpecMessage_new (data : option (@MessageData spec_entities))
    (teamId : string) (channelId userId : option string) : SpecMessage :=
  mkSpecMessage teamId channelId userId
                (data ≫= λ d : @MessageData spec_entities, (md_body d : option string))
                (data ≫= md_subtype).

(** Modelled from the spec: the constructors and [_patch] methods above;
    none of them reads the client. *)
Definition spec_constructors : @Constructors spec_entities := {|
  User_new := λ _, SpecUser_new;
  User_patch := λ _, SpecUser_patch;
  Channel_new := λ _, SpecChannel_new;
  Channel_patch := λ _, SpecChannel_patch;
  Message_new := λ _, SpecMessage_new;
|}.

(** A store with no team, no session and no credential. *)
Definition empty_client {E : Entities} : Client :=
  mkClient ∅ ∅ ∅ ∅ false ∅.

(** ** Example stores and payloads, over the classes of the specification *)

Section Examples.
#[local] Existing Instance spec_entities.
#[local] Existing Instance spec_constructors.

Definition ex_team_acme : ITeamData :=
  mkTeamData "T1" Absent (Present (Some "Acme")) Absent Absent.
Definition ex_team_bare : ITeamData := mkTeamData "T1" Absent Absent Absent Absent.
Definition ex_team_fake : ITeamData :=
  mkTeamData "T1" (Present (Some "F1")) Absent Absent Absent.
Definition ex_user : IUserData := mkUserData (Some "U1") None "T1" Absent.
Definition ex_bot : IUserData := mkUserData None (Some "B1") "T1" Absent.
Definition ex_channel : IChannelData := mkChannelData "C1" (Some "T1") None Absent.
Definition ex_channel_orphan : IChannelData := mkChannelData "C9" None (Some []) Absent.

Definition ex_rtm : RTMClient := mkRTMClient 0.
Definition ex_web : WebClient := mkWebClient "xoxb-1".

(** The store after team T1 has been upserted, outside startup. *)
Definition c_started : Client := store (addTeam ex_team_acme empty_client).

(** The same while T1 is starting up. *)
Definition c_startup : Client :=
  mkClient (tokens c_started) (teams c_started) ∅ ∅ false {["T1"]}.

(** After the bot B1 has been upserted as well. *)
Definition c_bot : Client := store (addUser ex_bot true c_started).

(** A request client for T1 and no team. *)
Definition c_web : Client := mkClient ∅ ∅ {["T1" := ex_web]} ∅ false ∅.

(** Team T1 with its request client and its credential, as [addToken]
    leaves them, and with a session. *)
Definition c_connected : Client :=
  mkClient {["T1" := "xoxb-1"]} (teams c_started) {["T1" := ex_web]}
           {["T1" := ex_rtm]} false {["T1"]}.

(** A team that still has its placeholder id, in a client that has got a
    token for it since. *)
Definition ex_fake_team : Team := Team_new ∅ ex_team_fake.
Definition ex_tokens : gmap string string := {["T1" := "xoxb-1"]}.

Definition ex_message (subtype : option string) (embedded : option MessageData)
  : MessageData :=
  mkMessageData subtype None None (Some "U1") (Some "C1") None "T1"
                embedded embedded Absent (Some "hello").

Definition ex_edit : MessageData :=
  ex_message (Some "message_changed") (Some (ex_message None None)).
Definition ex_join : MessageData := ex_message (Some "channel_join") None.

(** The answers to a load of T1: the team, three pages of channels with the
    cursors "a", "b" and "", one page of users. *)
Definition ex_info : WebAPICallResult :=
  mkResult true (Some ex_team_acme) None None None.
Definition ex_channel_pages : list (list IChannelData * option string) :=
  [([mkChannelData "C1" None None Absent], Some "a");
   ([mkChannelData "C2" None None Absent], Some "b")].
Definition ex_channel_last : list IChannelData * option string :=
  ([mkChannelData "C3" None None Absent], Some "").
Definition ex_user_last : list IUserData * option string := ([ex_user], None).
Definition ex_script : list response :=
  Resolved (Some ex_info)
    :: (channels_page <$> ex_channel_pages) ++ channels_page ex_channel_last
    :: [users_page ex_user_last].

(** A loop in which the session of T1 has signalled [disconnected]. *)
Definition ex_loop : Loop :=
  step (on_disconnected ex_rtm (Resolved tt)) (mkLoop c_connected [] [] [] []).

End Examples.

(** ** More example stores and events *)

Section MoreExamples.
#[local] Existing Instance spec_entities.
#[local] Existing Instance spec_constructors.

(** Team T1 under its placeholder id: no credential for T1 yet, and the
    request client registered under the placeholder. *)
Definition c_fake : Client :=
  mkClient ∅ {["T1" := ex_fake_team]} {["F1" := ex_web]} ∅ false ∅.

Definition ex_info_bare : WebAPICallResult :=
  mkResult true (Some ex_team_bare) None None None.

(** The store [c_connected] of a client that has the events adapter too. *)
Definition c_events : Client :=
  mkClient (tokens c_connected) (teams c_connected) (webMap c_connected)
           (rtmMap c_connected) true (startup c_connected).

(** The store after the load of T1 with the answers [ex_script]. *)
Definition c_loaded : Client := store (load "T1" ex_script c_connected).

(** A message of the bot B1 in the team T9, which nobody knows. *)
Definition ex_bot_message : MessageData :=
  mkMessageData None None (Some "B1") None (Some "C1") None "T9" None None
                Absent (Some "beep").

(** A message without channel and without item. *)
Definition ex_no_channel : MessageData :=
  mkMessageData None None None (Some "U1") None None "T1" None None
                Absent (Some "hello").

(** A message whose actor is only named in the embedded message. *)
Definition ex_embedded_actor : MessageData :=
  mkMessageData (Some "message_changed") None None None (Some "C1") None "T1"
                (Some (ex_message None None)) None Absent None.

End MoreExamples.

(** * Properties *)

Lemma truthy_Some s : s ≠ "" → truthy (Some s) = true.
Proof.
  intros Hs. unfold truthy. destruct (String.eqb_spec s ""); [congruence | done].
Qed.

Lemma truthy_is_Some v : truthy v = true → ∃ s, v = Some s ∧ s ≠ "".
Proof.
  destruct v as [s|]; simpl; [|done].
  destruct (String.eqb_spec s ""); [done|]. eauto.
Qed.

Lemma js_or_truthy_l a b : truthy a = true → js_or a b = a.
Proof. unfold js_or. by intros ->. Qed.

Lemma js_or_falsy_l a b : truthy a = false → js_or a b = b.
Proof. unfold js_or. by intros ->. Qed.

Section Properties.
Context {E : Entities} {K : Constructors}.
Implicit Types (c : Client) (team : Team) (data : ITeamData).

(** ** Team._patch *)

Lemma Team_patch_id tokens team data :
  t_id (Team_patch tokens team data) = td_id data.
Proof. unfold Team_patch. by case_bool_decide. Qed.

Lemma Team_patch_users tokens team data :
  t_users (Team_patch tokens team data) = t_users team.
Proof. unfold Team_patch. by case_bool_decide. Qed.

Lemma Team_patch_channels tokens team data :
  t_channels (Team_patch tokens team data) = t_channels team.
Proof. unfold Team_patch. by case_bool_decide. Qed.

Lemma Team_new_id tokens data : t_id (Team_new tokens data) = td_id data.
Proof. apply Team_patch_id. Qed.

(** ** The upserts, case by case *)

Lemma starting_true c id : id ∈ startup c → starting c id = true.
Proof. intros. unfold starting. by rewrite bool_decide_eq_true. Qed.

Lemma starting_false c id : id ∉ startup c → starting c id = false.
Proof. intros. unfold starting. by rewrite bool_decide_eq_false. Qed.

Lemma addTeam_change c data team :
  teams c !! td_id data = Some team →
  addTeam data c =
    let team' := Team_patch (tokens c) team data in
    mkRun (Returned tt) (Client_set_teams (<[td_id data := team']> (teams c)) c)
          (mkEffects (if starting c (td_id data) then [] else [EvChangeTeam team team'])
                     [] [] []).
Proof.
  intros Hl. unfold addTeam, bind, getClient. rewrite Hl. simpl.
  rewrite Team_patch_id. by destruct (starting c (td_id data)).
Qed.

Lemma addTeam_add c data :
  teams c !! td_id data = None →
  addTeam data c =
    let newTeam := Team_new (tokens c) data in
    mkRun (Returned tt) (Client_set_teams (<[td_id data := newTeam]> (teams c)) c)
          (mkEffects (if starting c (td_id data) then [] else [EvAddTeam newTeam])
                     [] [] []).
Proof.
  intros Hl. unfold addTeam, bind, getClient. rewrite Hl. simpl.
  rewrite Team_new_id. by destruct (starting c (td_id data)).
Qed.

Lemma addUser_change c (d : IUserData) b team key user :
  teams c !! ud_team_id d = Some team →
  user_key d = Some key →
  t_users team !! key = Some user →
  addUser d b c =
    let user' := User_patch c user d in
    mkRun (Returned tt)
          (Client_set_teams
             (<[ud_team_id d := Team_set_users (<[key := user']> (t_users team)) team]>
                (teams c)) c)
          (mkEffects (if negb (starting c (t_id team)) && negb (User_fullBot user')
                      then [EvChangeUser user user'] else [])
                     [] [] []).
Proof.
  unfold user_key. intros Ht Hk Hu. unfold addUser, bind, getClient.
  rewrite Ht, Hk. simpl. rewrite Hu. simpl.
  by destruct (negb (starting c (t_id team)) && negb (User_fullBot _)).
Qed.

Lemma addUser_add c (d : IUserData) b team :
  teams c !! ud_team_id d = Some team →
  map_get (t_users team) (user_key d) = None →
  addUser d b c =
    let newUser := User_new c d in
    mkRun (Returned tt)
          (Client_set_teams
             (<[ud_team_id d :=
                  Team_set_users (<[User_id newUser := newUser]> (t_users team)) team]>
                (teams c)) c)
          (mkEffects (if negb (starting c (t_id team)) && negb (User_fullBot newUser)
                      then [EvAddUser newUser] else [])
                     (match rtmMap c !! t_id team with
                      | Some r => [CallSubscribePresence r [User_id newUser]]
                      | None => []
                      end)
                     [] []).
Proof.
  unfold user_key. intros Ht Hu. unfold addUser, bind, getClient.
  rewrite Ht. simpl.
  destruct (js_or (ud_id d) (ud_bot_id d)) as [key|] eqn:Hk; simpl in Hu |- *;
    try rewrite Hu; unfold rtm, bind, getClient, when; simpl;
    destruct (rtmMap c !! t_id team) eqn:Hr; simpl; try rewrite Hr; simpl;
    by destruct (negb (starting c (t_id team)) && negb (User_fullBot _)).
Qed.

Lemma addUser_fetch c (d : IUserData) w :
  teams c !! ud_team_id d = None →
  webMap c !! ud_team_id d = Some w →
  addUser d true c =
    mkRun (Returned tt) c
          (mkEffects [] [CallTeamInfo w (ud_team_id d)] [TaskRetryUser d] []).
Proof.
  intros Ht Hw. unfold addUser, web, bind, getClient. rewrite Ht. simpl.
  by rewrite Hw.
Qed.

Lemma addUser_throw c (d : IUserData) :
  teams c !! ud_team_id d = None →
  webMap c !! ud_team_id d = None →
  addUser d true c = mkRun (Thrown "Team not found") c no_effects.
Proof.
  intros Ht Hw. unfold addUser, web, bind, getClient. rewrite Ht. simpl.
  by rewrite Hw.
Qed.

Lemma addUser_drop c (d : IUserData) :
  teams c !! ud_team_id d = None →
  addUser d false c = mkRun (Returned tt) c no_effects.
Proof.
  intros Ht. unfold addUser, bind, getClient. by rewrite Ht.
Qed.

Lemma addChannel_no_team c (d : IChannelData) b :
  truthy (channel_teamId d) = false →
  addChannel d b c = mkRun (Returned tt) c no_effects.
Proof.
  intros Hf. unfold addChannel.
  destruct (channel_teamId d) as [tid|]; [|done].
  by rewrite Hf.
Qed.

Lemma addChannel_change c (d : IChannelData) b tid team chan :
  channel_teamId d = Some tid → tid ≠ "" →
  teams c !! tid = Some team →
  t_channels team !! cd_id d = Some chan →
  addChannel d b c =
    let chan' := Channel_patch c chan d in
    mkRun (Returned tt)
          (Client_set_teams
             (<[tid := Team_set_channels (<[cd_id d := chan']> (t_channels team)) team]>
                (teams c)) c)
          (mkEffects (if starting c (t_id team) then [] else [EvChangeChannel chan chan'])
                     [] [] []).
Proof.
  intros Hid Hne Ht Hc. unfold addChannel. rewrite Hid, truthy_Some by done. simpl.
  unfold bind, getClient. rewrite Ht, Hc. simpl.
  by destruct (starting c (t_id team)).
Qed.

Lemma addChannel_add c (d : IChannelData) b tid team :
  channel_teamId d = Some tid → tid ≠ "" →
  teams c !! tid = Some team →
  t_channels team !! cd_id d = None →
  addChannel d b c =
    let newChan := Channel_new c d in
    mkRun (Returned tt)
          (Client_set_teams
             (<[tid := Team_set_channels (<[Channel_id newChan := newChan]>
                                            (t_channels team)) team]>
                (teams c)) c)
          (if starting c (t_id team) then no_effects
           else mkEffects [] [CallJoin newChan] [TaskEmitAddChannel newChan] []).
Proof.
  intros Hid Hne Ht Hc. unfold addChannel. rewrite Hid, truthy_Some by done. simpl.
  unfold bind, getClient. rewrite Ht, Hc. simpl.
  by destruct (starting c (t_id team)).
Qed.

Lemma addChannel_fetch c (d : IChannelData) tid w :
  channel_teamId d = Some tid → tid ≠ "" →
  teams c !! tid = None →
  webMap c !! tid = Some w →
  addChannel d true c =
    mkRun (Returned tt) c (mkEffects [] [CallTeamInfo w tid] [TaskRetryChannel d] []).
Proof.
  intros Hid Hne Ht Hw. unfold addChannel. rewrite Hid, truthy_Some by done. simpl.
  unfold web, bind, getClient. rewrite Ht. simpl. by rewrite Hw.
Qed.

Lemma addChannel_throw c (d : IChannelData) tid :
  channel_teamId d = Some tid → tid ≠ "" →
  teams c !! tid = None →
  webMap c !! tid = None →
  addChannel d true c = mkRun (Thrown "Team not found") c no_effects.
Proof.
  intros Hid Hne Ht Hw. unfold addChannel. rewrite Hid, truthy_Some by done. simpl.
  unfold web, bind, getClient. rewrite Ht. simpl. by rewrite Hw.
Qed.

Lemma addChannel_drop c (d : IChannelData) tid :
  channel_teamId d = Some tid →
  teams c !! tid = None →
  addChannel d false c = mkRun (Returned tt) c no_effects.
Proof.
  intros Hid Ht. unfold addChannel. rewrite Hid.
  destruct (negb (truthy (Some tid))); [done|].
  unfold bind, getClient. by rewrite Ht.
Qed.

Lemma run_task_retry_user (d : IUserData) r ti :
  wr_team r = Some ti →
  run_task (TaskRetryUser d) (Resolved (Some r)) = (addTeam ti ;; addUser d false).
Proof. intros Hti. simpl. by rewrite Hti. Qed.

Lemma run_task_retry_channel (d : IChannelData) r ti :
  wr_team r = Some ti →
  run_task (TaskRetryChannel d) (Resolved (Some r)) = (addTeam ti ;; addChannel d false).
Proof. intros Hti. simpl. by rewrite Hti. Qed.

(** An upsert of a team whose id is in the startup set: the store after it,
    with the team under its id. *)
Lemma addTeam_silent c data :
  td_id data ∈ startup c →
  ∃ team', addTeam data c =
             mkRun (Returned tt)
                   (Client_set_teams (<[td_id data := team']> (teams c)) c) no_effects
           ∧ t_id team' = td_id data
           ∧ team' = match teams c !! td_id data with
                     | Some team => Team_patch (tokens c) team data
                     | None => Team_new (tokens c) data
                     end.
Proof.
  intros Hs. destruct (teams c !! td_id data) as [team|] eqn:Ht.
  - eexists. rewrite (addTeam_change _ _ _ Ht). simpl.
    rewrite (starting_true _ _ Hs). split_and!; [done | apply Team_patch_id | done].
  - eexists. rewrite (addTeam_add _ _ Ht). simpl.
    rewrite (starting_true _ _ Hs). split_and!; [done | apply Team_new_id | done].
Qed.

Lemma addUser_silent c (d : IUserData) b team :
  teams c !! ud_team_id d = Some team →
  t_id team ∈ startup c →
  let r := addUser d b c in
  outcome r = Returned tt ∧ emitted (effects r) = [] ∧ deferred (effects r) = [] ∧
  ∃ team' k,
    teams (store r) !! ud_team_id d = Some team' ∧
    t_users team' !! k =
      Some (match map_get (t_users team) (user_key d) with
            | Some user => User_patch c user d
            | None => User_new c d
            end).
Proof.
  intros Ht Hs.
  destruct (map_get (t_users team) (user_key d)) as [user|] eqn:Hu.
  - destruct (user_key d) as [key|] eqn:Hk; [simpl in Hu|done].
    simpl. rewrite (addUser_change _ _ _ _ _ _ Ht Hk Hu). simpl.
    rewrite (starting_true _ _ Hs). simpl. split_and!; try done.
    eexists _, key. rewrite lookup_insert_eq. split; [done|].
    simpl. by rewrite lookup_insert_eq.
  - simpl. rewrite (addUser_add _ _ _ _ Ht Hu). simpl.
    rewrite (starting_true _ _ Hs). simpl. split_and!; try done.
    eexists _, _. rewrite lookup_insert_eq. split; [done|].
    simpl. by rewrite lookup_insert_eq.
Qed.

Lemma addChannel_silent c (d : IChannelData) b tid team :
  channel_teamId d = Some tid → tid ≠ "" →
  teams c !! tid = Some team →
  t_id team ∈ startup c →
  let r := addChannel d b c in
  outcome r = Returned tt ∧ effects r = no_effects ∧
  ∃ team' k,
    teams (store r) !! tid = Some team' ∧
    t_channels team' !! k =
      Some (match t_channels team !! cd_id d with
            | Some chan => Channel_patch c chan d
            | None => Channel_new c d
            end).
Proof.
  intros Hid Hne Ht Hs.
  destruct (t_channels team !! cd_id d) as [chan|] eqn:Hc; simpl.
  - rewrite (addChannel_change _ _ _ _ _ _ Hid Hne Ht Hc). simpl.
    rewrite (starting_true _ _ Hs). split_and!; try done.
    eexists _, _. rewrite lookup_insert_eq. split; [done|].
    simpl. by rewrite lookup_insert_eq.
  - rewrite (addChannel_add _ _ _ _ _ Hid Hne Ht Hc). simpl.
    rewrite (starting_true _ _ Hs). split_and!; try done.
    eexists _, _. rewrite lookup_insert_eq. split; [done|].
    simpl. by rewrite lookup_insert_eq.
Qed.

(** C1.  While the id of a team is in the startup set, no upsert that
    touches the team or one of its users or channels emits an event, now or
    through a promise it leaves behind, and the entity is created or patched
    all the same.  The same holds for the retry of an upsert after the team
    has been fetched, when the fetched team is the one the payload names. *)
Theorem startup_suppresses_events c :
  (∀ data, td_id data ∈ startup c →
     let r := addTeam data c in
     outcome r = Returned tt ∧ effects r = no_effects ∧
     teams (store r) !! td_id data =
       Some (match teams c !! td_id data with
             | Some team => Team_patch (tokens c) team data
             | None => Team_new (tokens c) data
             end))
  ∧ (∀ (d : IUserData) b team,
       teams c !! ud_team_id d = Some team → t_id team ∈ startup c →
       let r := addUser d b c in
       outcome r = Returned tt ∧ emitted (effects r) = [] ∧ deferred (effects r) = [] ∧
       ∃ team' k,
         teams (store r) !! ud_team_id d = Some team' ∧
         t_users team' !! k =
           Some (match map_get (t_users team) (user_key d) with
                 | Some user => User_patch c user d
                 | None => User_new c d
                 end))
  ∧ (∀ (d : IChannelData) b tid team,
       channel_teamId d = Some tid → tid ≠ "" →
       teams c !! tid = Some team → t_id team ∈ startup c →
       let r := addChannel d b c in
       outcome r = Returned tt ∧ effects r = no_effects ∧
       ∃ team' k,
         teams (store r) !! tid = Some team' ∧
         t_channels team' !! k =
           Some (match t_channels team !! cd_id d with
                 | Some chan => Channel_patch c chan d
                 | None => Channel_new c d
                 end))
  ∧ (∀ (d : IUserData) res ti,
       wr_team res = Some ti → td_id ti = ud_team_id d → td_id ti ∈ startup c →
       let r := run_task (TaskRetryUser d) (Resolved (Some res)) c in
       outcome r = Returned tt ∧ emitted (effects r) = [] ∧ deferred (effects r) = [])
  ∧ (∀ (d : IChannelData) res ti,
       wr_team res = Some ti → channel_teamId d = Some (td_id ti) → td_id ti ≠ "" →
       td_id ti ∈ startup c →
       let r := run_task (TaskRetryChannel d) (Resolved (Some res)) c in
       outcome r = Returned tt ∧ emitted (effects r) = [] ∧ deferred (effects r) = []).
Proof.
  split_and!.
  - intros data Hs. destruct (addTeam_silent c data Hs) as (team' & -> & _ & ->).
    simpl. by rewrite lookup_insert_eq.
  - intros d b team. apply addUser_silent.
  - intros d b tid team. apply addChannel_silent.
  - intros d res ti Hti Hid Hs. rewrite (run_task_retry_user _ _ _ Hti).
    destruct (addTeam_silent c ti Hs) as (team' & Hrun & Hteam & _).
    unfold bind. rewrite Hrun.
    set (c1 := Client_set_teams _ c).
    assert (Hl : teams c1 !! ud_team_id d = Some team').
    { subst c1. simpl. by rewrite <- Hid, lookup_insert_eq. }
    assert (Hs1 : t_id team' ∈ startup c1) by (by rewrite Hteam).
    destruct (addUser_silent c1 d false team' Hl Hs1) as (Ho & He & Hd & _).
    destruct (addUser d false c1) as [o c2 e2]. simpl in *. by rewrite Ho, He, Hd.
  - intros d res ti Hti Hid Hne Hs. rewrite (run_task_retry_channel _ _ _ Hti).
    destruct (addTeam_silent c ti Hs) as (team' & Hrun & Hteam & _).
    unfold bind. rewrite Hrun.
    set (c1 := Client_set_teams _ c).
    assert (Hl : teams c1 !! td_id ti = Some team').
    { subst c1. simpl. by rewrite lookup_insert_eq. }
    assert (Hs1 : t_id team' ∈ startup c1) by (by rewrite Hteam).
    destruct (addChannel_silent c1 d false _ team' Hid Hne Hl Hs1) as (Ho & He & _).
    destruct (addChannel d false c1) as [o c2 e2]. simpl in *. by rewrite Ho, He.
Qed.

(** C2, as amended.  Outside startup, with the owning team in the store, an
    upsert of a team or of a channel emits exactly one event, the change
    event when the entity was there and the add event when it was not; the
    add event of a new channel is emitted by the promise the upsert leaves
    behind, once the attempt to join has settled either way.  An upsert of a
    user emits that one event unless the user, as patched or as built, has
    [fullBot] set, and then it emits none. *)
Theorem upsert_emits_one_event c :
  (∀ data, td_id data ∉ startup c →
     let r := addTeam data c in
     deferred (effects r) = [] ∧
     emitted (effects r) =
       [match teams c !! td_id data with
        | Some team => EvChangeTeam team (Team_patch (tokens c) team data)
        | None => EvAddTeam (Team_new (tokens c) data)
        end])
  ∧ (∀ (d : IUserData) b team,
       teams c !! ud_team_id d = Some team → t_id team ∉ startup c →
       let r := addUser d b c in
       deferred (effects r) = [] ∧
       emitted (effects r) =
         match map_get (t_users team) (user_key d) with
         | Some user =>
             let user' := User_patch c user d in
             if User_fullBot user' then [] else [EvChangeUser user user']
         | None =>
             let newUser := User_new c d in
             if User_fullBot newUser then [] else [EvAddUser newUser]
         end)
  ∧ (∀ (d : IChannelData) b tid team,
       channel_teamId d = Some tid → tid ≠ "" →
       teams c !! tid = Some team → t_id team ∉ startup c →
       let r := addChannel d b c in
       match t_channels team !! cd_id d with
       | Some chan =>
           deferred (effects r) = [] ∧
           emitted (effects r) = [EvChangeChannel chan (Channel_patch c chan d)]
       | None =>
           let newChan := Channel_new c d in
           emitted (effects r) = [] ∧
           deferred (effects r) = [TaskEmitAddChannel newChan] ∧
           ∀ joined c',
             run_task (TaskEmitAddChannel newChan) joined c' =
               mkRun (Returned tt) c' (mkEffects [EvAddChannel newChan] [] [] [])
       end).
Proof.
  split_and!.
  - intros data Hs. destruct (teams c !! td_id data) as [team|] eqn:Ht; simpl.
    + rewrite (addTeam_change _ _ _ Ht). simpl. by rewrite (starting_false _ _ Hs).
    + rewrite (addTeam_add _ _ Ht). simpl. by rewrite (starting_false _ _ Hs).
  - intros d b team Ht Hs.
    destruct (map_get (t_users team) (user_key d)) as [user|] eqn:Hu; simpl.
    + destruct (user_key d) as [key|] eqn:Hk; [simpl in Hu|done].
      rewrite (addUser_change _ _ _ _ _ _ Ht Hk Hu). simpl.
      rewrite (starting_false _ _ Hs). simpl. by destruct (User_fullBot _).
    + rewrite (addUser_add _ _ _ _ Ht Hu). simpl.
      rewrite (starting_false _ _ Hs). simpl. by destruct (User_fullBot _).
  - intros d b tid team Hid Hne Ht Hs.
    destruct (t_channels team !! cd_id d) as [chan|] eqn:Hc; simpl.
    + rewrite (addChannel_change _ _ _ _ _ _ Hid Hne Ht Hc). simpl.
      by rewrite (starting_false _ _ Hs).
    + rewrite (addChannel_add _ _ _ _ _ Hid Hne Ht Hc). simpl.
      rewrite (starting_false _ _ Hs). simpl. by split_and!.
Qed.

(** C4, as amended.  The full-bot guard is on both paths of [addUser]:
    outside startup, an upsert whose user has [fullBot] set emits neither
    [changeUser] (the user was there) nor [addUser] (the user is new); a user
    without the flag gets the one event of its path. *)
Theorem fullBot_suppresses_both_paths c (d : IUserData) b team :
  teams c !! ud_team_id d = Some team →
  t_id team ∉ startup c →
  (∀ user, map_get (t_users team) (user_key d) = Some user →
     emitted (effects (addUser d b c)) =
       if User_fullBot (User_patch c user d) then []
       else [EvChangeUser user (User_patch c user d)])
  ∧ (map_get (t_users team) (user_key d) = None →
     emitted (effects (addUser d b c)) =
       if User_fullBot (User_new c d) then [] else [EvAddUser (User_new c d)]).
Proof.
  intros Ht Hs. split.
  - intros user Hu. destruct (user_key d) as [key|] eqn:Hk; [simpl in Hu|done].
    rewrite (addUser_change _ _ _ _ _ _ Ht Hk Hu). simpl.
    rewrite (starting_false _ _ Hs). simpl. by destruct (User_fullBot _).
  - intros Hu. rewrite (addUser_add _ _ _ _ Ht Hu). simpl.
    rewrite (starting_false _ _ Hs). simpl. by destruct (User_fullBot _).
Qed.

Lemma addUser_retry_is_final c (d : IUserData) :
  deferred (effects (addUser d false c)) = [].
Proof.
  destruct (teams c !! ud_team_id d) as [team|] eqn:Ht.
  - destruct (map_get (t_users team) (user_key d)) as [user|] eqn:Hu.
    + destruct (user_key d) as [key|] eqn:Hk; [simpl in Hu|done].
      by rewrite (addUser_change _ _ _ _ _ _ Ht Hk Hu).
    + by rewrite (addUser_add _ _ _ _ Ht Hu).
  - by rewrite (addUser_drop _ _ Ht).
Qed.

Lemma addChannel_retry_is_final c (d : IChannelData) :
  ∀ t, t ∈ deferred (effects (addChannel d false c)) →
       ∃ ch, t = TaskEmitAddChannel ch.
Proof.
  intros t. destruct (channel_teamId d) as [tid|] eqn:Hid.
  - destruct (decide (tid = "")) as [->|Hne].
    { rewrite addChannel_no_team by by rewrite Hid. simpl. by intros ?%elem_of_nil. }
    destruct (teams c !! tid) as [team|] eqn:Ht.
    + destruct (t_channels team !! cd_id d) as [chan|] eqn:Hc.
      * rewrite (addChannel_change _ _ _ _ _ _ Hid Hne Ht Hc). simpl.
        by intros ?%elem_of_nil.
      * rewrite (addChannel_add _ _ _ _ _ Hid Hne Ht Hc). simpl.
        destruct (starting c (t_id team)); simpl; [by intros ?%elem_of_nil|].
        intros ->%list_elem_of_singleton. eauto.
    + rewrite (addChannel_drop _ _ _ Hid Ht). simpl. by intros ?%elem_of_nil.
  - rewrite addChannel_no_team by by rewrite Hid. simpl. by intros ?%elem_of_nil.
Qed.

(** C9, as amended.  An upsert that names a team the store does not hold:
    with [createTeam] set and a request client registered under the team id,
    it sends one [team.info] request and leaves the retry to the promise,
    changing nothing and emitting nothing; when the request resolves with a
    team, the continuation registers the team and runs the same upsert once
    more with [createTeam] unset, and that upsert never requests a team
    again.  With [createTeam] set and no request client under the team id,
    the upsert throws "Team not found".  With [createTeam] unset it is
    dropped: no mutation, no event, no request. *)
Theorem unknown_team_upsert c :
  (∀ (d : IUserData), teams c !! ud_team_id d = None →
     (∀ w, webMap c !! ud_team_id d = Some w →
        addUser d true c =
          mkRun (Returned tt) c
                (mkEffects [] [CallTeamInfo w (ud_team_id d)] [TaskRetryUser d] []))
     ∧ (webMap c !! ud_team_id d = None →
        addUser d true c = mkRun (Thrown "Team not found") c no_effects)
     ∧ addUser d false c = mkRun (Returned tt) c no_effects)
  ∧ (∀ (d : IChannelData) tid,
       channel_teamId d = Some tid → tid ≠ "" → teams c !! tid = None →
       (∀ w, webMap c !! tid = Some w →
          addChannel d true c =
            mkRun (Returned tt) c
                  (mkEffects [] [CallTeamInfo w tid] [TaskRetryChannel d] []))
       ∧ (webMap c !! tid = None →
          addChannel d true c = mkRun (Thrown "Team not found") c no_effects)
       ∧ addChannel d false c = mkRun (Returned tt) c no_effects)
  ∧ (∀ (d : IUserData) res ti, wr_team res = Some ti →
       run_task (TaskRetryUser d) (Resolved (Some res)) = (addTeam ti ;; addUser d false))
  ∧ (∀ (d : IChannelData) res ti, wr_team res = Some ti →
       run_task (TaskRetryChannel d) (Resolved (Some res)) =
         (addTeam ti ;; addChannel d false))
  ∧ (∀ (d : IUserData) c', deferred (effects (addUser d false c')) = [])
  ∧ (∀ (d : IChannelData) c' t,
       t ∈ deferred (effects (addChannel d false c')) → ∃ ch, t = TaskEmitAddChannel ch).
Proof.
  split_and!.
  - intros d Ht. split_and!.
    + intros w. by apply addUser_fetch.
    + by apply addUser_throw.
    + by apply addUser_drop.
  - intros d tid Hid Hne Ht. split_and!.
    + intros w. by apply addChannel_fetch.
    + by apply addChannel_throw.
    + by apply (addChannel_drop _ _ tid).
  - apply run_task_retry_user.
  - apply run_task_retry_channel.
  - intros d c'. apply addUser_retry_is_final.
  - intros d c'. apply addChannel_retry_is_final.
Qed.

(** C10.  A channel payload without [team_id] and with [shared_team_ids]
    missing or empty: [addChannel] returns with the store as it was and
    without any effect, whatever [createTeam] is. *)
Theorem addChannel_without_team c (d : IChannelData) b :
  cd_team_id d = None →
  cd_shared_team_ids d = None ∨ cd_shared_team_ids d = Some [] →
  addChannel d b c = mkRun (Returned tt) c no_effects.
Proof.
  intros Ht Hs. apply addChannel_no_team.
  unfold channel_teamId. rewrite Ht. by destruct Hs as [-> | ->].
Qed.

(** C3, as amended.  [_patch] assigns a property only when the payload owns
    it: [name], [domain] and [icon] keep their value when the payload leaves
    them out, and so does [fakeId] as long as the client has no token for
    the team.  When the client has a token for the team, [_patch] ends by
    resetting [fakeId] to null, whatever the payload holds.  Upserting a
    payload without a name after one of the same id leaves the name of the
    team as the first upsert left it. *)
Theorem patch_is_presence_gated c team data :
  let team' := Team_patch (tokens c) team data in
  (td_name data = Absent → t_name team' = t_name team)
  ∧ (td_domain data = Absent → t_domain team' = t_domain team)
  ∧ (td_icon data = Absent → t_icon team' = t_icon team)
  ∧ (td_fakeId data = Absent → tokens c !! td_id data = None →
     t_fakeId team' = t_fakeId team)
  ∧ (is_Some (tokens c !! td_id data) → t_fakeId team' = None)
  ∧ (∀ first, td_id first = td_id data → td_name data = Absent →
       ∃ t1 t2,
         teams (store (addTeam first c)) !! td_id data = Some t1 ∧
         teams (store ((addTeam first ;; addTeam data) c)) !! td_id data = Some t2 ∧
         t_name t2 = t_name t1 ∧
         (∀ v, td_name first = Present v → t_name t1 = v)).
Proof.
  split_and!.
  - intros Hn. unfold Team_patch. rewrite Hn. by case_bool_decide.
  - intros Hn. unfold Team_patch. rewrite Hn. by case_bool_decide.
  - intros Hn. unfold Team_patch. rewrite Hn. by case_bool_decide.
  - intros Hn Ht. unfold Team_patch. rewrite Hn.
    rewrite bool_decide_eq_false_2; [done|]. rewrite Ht. by intros [? ?].
  - intros Ht. unfold Team_patch. by rewrite bool_decide_eq_true_2.
  - intros first Hid Hn.
    assert (∃ t1, addTeam first c =
                    mkRun (Returned tt)
                          (Client_set_teams (<[td_id data := t1]> (teams c)) c)
                          (effects (addTeam first c))
                  ∧ ∀ v, td_name first = Present v → t_name t1 = v) as (t1 & Hrun & Hv).
    { rewrite <- Hid. destruct (teams c !! td_id first) as [t|] eqn:Ht.
      - eexists. rewrite (addTeam_change _ _ _ Ht). split; [done|].
        intros v Hp. unfold Team_patch. rewrite Hp. by case_bool_decide.
      - eexists. rewrite (addTeam_add _ _ Ht). split; [done|].
        intros v Hp. unfold Team_new, Team_patch. rewrite Hp. by case_bool_decide. }
    exists t1, (Team_patch (tokens c) t1 data). unfold bind. rewrite Hrun. simpl.
    set (c1 := Client_set_teams _ c).
    assert (Hl : teams c1 !! td_id data = Some t1) by apply lookup_insert_eq.
    rewrite (addTeam_change _ _ _ Hl). simpl.
    rewrite !lookup_insert_eq. split_and!; try done.
    unfold Team_patch. rewrite Hn. by case_bool_decide.
Qed.

(** ** The event normalizer *)

Lemma addUser_returns c (d : IUserData) b :
  is_Some (teams c !! ud_team_id d) ∨ b = false ∨ is_Some (webMap c !! ud_team_id d) →
  outcome (addUser d b c) = Returned tt.
Proof.
  intros H. destruct (teams c !! ud_team_id d) as [team|] eqn:Ht.
  - destruct (map_get (t_users team) (user_key d)) as [user|] eqn:Hu.
    + destruct (user_key d) as [key|] eqn:Hk; [simpl in Hu|done].
      by rewrite (addUser_change _ _ _ _ _ _ Ht Hk Hu).
    + by rewrite (addUser_add _ _ _ _ Ht Hu).
  - destruct b.
    + destruct H as [[? ?]|[?|[w Hw]]]; try done.
      by rewrite (addUser_fetch _ _ _ Ht Hw).
    + by rewrite (addUser_drop _ _ Ht).
Qed.

Lemma addUser_emits_no_message c (d : IUserData) b :
  message_events (emitted (effects (addUser d b c))) = [].
Proof.
  destruct (teams c !! ud_team_id d) as [team|] eqn:Ht.
  - destruct (map_get (t_users team) (user_key d)) as [user|] eqn:Hu.
    + destruct (user_key d) as [key|] eqn:Hk; [simpl in Hu|done].
      rewrite (addUser_change _ _ _ _ _ _ Ht Hk Hu). simpl.
      by destruct (negb _ && negb _).
    + rewrite (addUser_add _ _ _ _ Ht Hu). simpl.
      by destruct (negb _ && negb _).
  - destruct b.
    + destruct (webMap c !! ud_team_id d) as [w|] eqn:Hw.
      * by rewrite (addUser_fetch _ _ _ Ht Hw).
      * by rewrite (addUser_throw _ _ Ht Hw).
    + by rewrite (addUser_drop _ _ Ht).
Qed.

Lemma message_channelId_ok c (data : MessageData) :
  truthy (md_channel data) = true ∨ is_Some (md_item data) →
  message_channelId data c =
    mkRun (Returned (if truthy (md_channel data) then md_channel data
                     else default None (md_item data)))
          c no_effects.
Proof.
  intros H. unfold message_channelId.
  destruct (truthy (md_channel data)); [done|].
  destruct H as [?|[ch ->]]; done.
Qed.

(** What [handleMessageEvent] does with an event it does not suppress, once
    the bot upsert has returned and the channel id has been read. *)
Lemma handleMessageEvent_emits c (data : MessageData) :
  includes suppressed_subtypes (md_subtype data) = false →
  truthy (md_bot_id data) = false ∨ is_Some (teams c !! md_team_id data)
    ∨ is_Some (webMap c !! md_team_id data) →
  truthy (md_channel data) = true ∨ is_Some (md_item data) →
  let r0 := when (truthy (md_bot_id data)) (addUser (as_IUserData data) true) c in
  let c1 := store r0 in
  let teamId := md_team_id data in
  let channelId :=
    if truthy (md_channel data) then md_channel data else default None (md_item data) in
  let userId :=
    tryKey (tryKey (js_or (md_user data) (md_bot_id data)) (md_message data))
           (md_previous_message data) in
  let build payload := Message_new c1 payload teamId channelId userId in
  let ev :=
    if bool_decide (md_subtype data = Some "message_changed")
    then EvMessageChanged (build (md_previous_message data)) (build (md_message data))
    else if bool_decide (md_subtype data = Some "message_deleted")
         then EvMessageDeleted (build (md_previous_message data))
         else EvMessage (build (Some data)) in
  handleMessageEvent data c =
    mkRun (Returned tt) c1 (eff_app (effects r0) (mkEffects [ev] [] [] []))
  ∧ message_events (emitted (effects r0)) = [].
Proof.
  intros Hsup Hbot Hch. simpl.
  set (r0 := when _ _ c).
  assert (Ho : outcome r0 = Returned tt).
  { subst r0. unfold when. destruct (truthy (md_bot_id data)); [|done].
    apply addUser_returns. simpl. destruct Hbot as [?|[?|?]]; [done|by left|by right; right]. }
  assert (Hm : message_events (emitted (effects r0)) = []).
  { subst r0. unfold when. destruct (truthy (md_bot_id data)); [|done].
    apply addUser_emits_no_message. }
  split; [|done].
  unfold handleMessageEvent. rewrite Hsup. unfold bind at 1. fold r0.
  destruct r0 as [o c1 e1]. simpl in Ho. subst o. simpl.
  unfold bind at 1. rewrite (message_channelId_ok _ _ Hch).
  unfold bind, getClient. simpl.
  repeat case_bool_decide; simpl; by rewrite ?app_nil_r.
Qed.

(** An event with a bot whose team is neither in the store nor has a request
    client: the upsert of the bot throws, and with it the handler. *)
Lemma handleMessageEvent_bot_throws c (data : MessageData) :
  includes suppressed_subtypes (md_subtype data) = false →
  truthy (md_bot_id data) = true →
  teams c !! md_team_id data = None →
  webMap c !! md_team_id data = None →
  handleMessageEvent data c = mkRun (Thrown "Team not found") c no_effects.
Proof.
  intros Hsup Hbot Ht Hw. unfold handleMessageEvent. rewrite Hsup, Hbot. simpl.
  unfold bind at 1. by rewrite (addUser_throw c (as_IUserData data) Ht Hw).
Qed.

(** An event without channel and without item: reading the channel throws,
    after the upsert of the bot. *)
Lemma handleMessageEvent_no_channel c (data : MessageData) :
  includes suppressed_subtypes (md_subtype data) = false →
  truthy (md_bot_id data) = false ∨ is_Some (teams c !! md_team_id data)
    ∨ is_Some (webMap c !! md_team_id data) →
  truthy (md_channel data) = false → md_item data = None →
  outcome (handleMessageEvent data c) = Thrown "TypeError"
  ∧ message_events (emitted (effects (handleMessageEvent data c))) = [].
Proof.
  intros Hsup Hbot Hch Hitem.
  set (r0 := when (truthy (md_bot_id data)) (addUser (as_IUserData data) true) c).
  assert (Ho : outcome r0 = Returned tt).
  { subst r0. unfold when. destruct (truthy (md_bot_id data)); [|done].
    apply addUser_returns. simpl. destruct Hbot as [?|[?|?]]; [done|by left|by right; right]. }
  assert (Hm : message_events (emitted (effects r0)) = []).
  { subst r0. unfold when. destruct (truthy (md_bot_id data)); [|done].
    apply addUser_emits_no_message. }
  assert (Hrun : handleMessageEvent data c =
                   mkRun (Thrown "TypeError") (store r0) (effects r0)).
  { unfold handleMessageEvent. rewrite Hsup. unfold bind at 1. fold r0.
    destruct r0 as [o c1 e1]. simpl in Ho. subst o. simpl.
    unfold message_channelId. rewrite Hch, Hitem.
    unfold bind, throw, eff_app. simpl. rewrite !app_nil_r. by destruct e1. }
  by rewrite Hrun.
Qed.

(** C5.  [handleMessageEvent] on an event of subtype [channel_join],
    [channel_name] or [message_replied] returns with no effect at all.  On
    any other event that names a channel (its own or that of its item) and
    whose bot, if it has one, can be upserted (the team is in the store or a
    request client is registered for it), the handler returns and emits
    exactly one event of the message kind, after the events of the bot
    upsert if any: [messageChanged] built from [previous_message] and
    [message] for subtype [message_changed], [messageDeleted] built from
    [previous_message] for subtype [message_deleted], and [message] built
    from the event itself otherwise.  On the events that are left the
    handler throws: "Team not found", with nothing emitted and nothing
    stored, when the event has a bot whose team is neither in the store nor
    has a request client; a TypeError, with no event of the message kind
    emitted, when the event has neither a channel nor an item. *)
Theorem message_event_classification c (data : MessageData) :
  (includes suppressed_subtypes (md_subtype data) = true →
   handleMessageEvent data c = mkRun (Returned tt) c no_effects)
  ∧ (includes suppressed_subtypes (md_subtype data) = false →
     truthy (md_bot_id data) = false ∨ is_Some (teams c !! md_team_id data)
       ∨ is_Some (webMap c !! md_team_id data) →
     truthy (md_channel data) = true ∨ is_Some (md_item data) →
     let r0 := when (truthy (md_bot_id data)) (addUser (as_IUserData data) true) c in
     let r := handleMessageEvent data c in
     let teamId := md_team_id data in
     let channelId :=
       if truthy (md_channel data) then md_channel data
       else default None (md_item data) in
     let userId :=
       tryKey (tryKey (js_or (md_user data) (md_bot_id data)) (md_message data))
              (md_previous_message data) in
     let build payload := Message_new (store r0) payload teamId channelId userId in
     outcome r = Returned tt ∧
     (∃ ev, emitted (effects r) = emitted (effects r0) ++ [ev] ∧
            message_events (emitted (effects r)) = [ev]) ∧
     (md_subtype data = Some "message_changed" →
      message_events (emitted (effects r)) =
        [EvMessageChanged (build (md_previous_message data)) (build (md_message data))]) ∧
     (md_subtype data = Some "message_deleted" →
      message_events (emitted (effects r)) =
        [EvMessageDeleted (build (md_previous_message data))]) ∧
     (md_subtype data ≠ Some "message_changed" →
      md_subtype data ≠ Some "message_deleted" →
      message_events (emitted (effects r)) = [EvMessage (build (Some data))]))
  ∧ (includes suppressed_subtypes (md_subtype data) = false →
     truthy (md_bot_id data) = true →
     teams c !! md_team_id data = None → webMap c !! md_team_id data = None →
     handleMessageEvent data c = mkRun (Thrown "Team not found") c no_effects)
  ∧ (includes suppressed_subtypes (md_subtype data) = false →
     truthy (md_bot_id data) = false ∨ is_Some (teams c !! md_team_id data)
       ∨ is_Some (webMap c !! md_team_id data) →
     truthy (md_channel data) = false → md_item data = None →
     outcome (handleMessageEvent data c) = Thrown "TypeError"
     ∧ message_events (emitted (effects (handleMessageEvent data c))) = []).
Proof.
  split; [|split; [|split]].
  4:{ apply handleMessageEvent_no_channel. }
  3:{ apply handleMessageEvent_bot_throws. }
  - intros Hsup. unfold handleMessageEvent. by rewrite Hsup.
  - intros Hsup Hbot Hch.
    destruct (handleMessageEvent_emits c data Hsup Hbot Hch) as [Hrun Hm].
    simpl in *. rewrite Hrun. simpl.
    assert (Hone : ∀ ev, is_message_event ev = true →
              message_events (emitted (effects (when (truthy (md_bot_id data))
                 (addUser (as_IUserData data) true) c)) ++ [ev]) = [ev]).
    { intros ev Hev. unfold message_events in *.
      rewrite List.filter_app, Hm. simpl. by rewrite Hev. }
    split_and!.
    + done.
    + eexists. split; [done|]. apply Hone. by repeat case_bool_decide.
    + intros Hs. rewrite Hone; by rewrite bool_decide_eq_true_2.
    + intros Hs. rewrite Hone.
      * rewrite bool_decide_eq_false_2 by (rewrite Hs; done).
        by rewrite bool_decide_eq_true_2.
      * rewrite bool_decide_eq_false_2 by (rewrite Hs; done).
        by rewrite bool_decide_eq_true_2.
    + intros Hc Hd. rewrite Hone; by rewrite !bool_decide_eq_false_2.
Qed.

(** ** The connection supervisor *)

Lemma forEach_calls {A} (f : A → M unit) (g : A → Call) (xs : list A) c :
  (∀ x, f x c = mkRun (Returned tt) c (mkEffects [] [g x] [] [])) →
  forEach xs f c = mkRun (Returned tt) c (mkEffects [] (g <$> xs) [] []).
Proof.
  intros Hf. induction xs as [|x xs IH]; [done|].
  simpl. unfold bind. by rewrite Hf, IH.
Qed.

Lemma step_reconnect r (l : Loop) :
  step (reconnect r (Resolved tt)) l =
    mkLoop (lp_client l) (lp_timers l ++ [mkTimer RECONNECT_PAUSE r]) (lp_tasks l ++ [])
           (lp_emitted l ++ []) (lp_calls l ++ [CallRtmDisconnect r]).
Proof. done. Qed.

Lemma reconnect_reconnects_once r (l : Loop) : reconnects_once reconnect r l.
Proof.
  unfold reconnects_once. rewrite step_reconnect. simpl.
  rewrite !app_nil_r. split_and!; try done.
  unfold fire. simpl. rewrite lookup_app_r, Nat.sub_diag by done. simpl.
  eexists. split; [done|]. unfold step. simpl.
  rewrite !app_nil_r. split_and!; try done.
  rewrite delete_middle. by rewrite app_nil_r.
Qed.

(** C6.  On [goodbye] and on [disconnected] alike, with the teardown of the
    session resolving: the listener asks the session to disconnect and
    schedules exactly one restart, 15000 ms later, emitting nothing.  When
    that restart fails, the [disconnected] event is emitted, and no timer is
    left beyond those that were pending before the signal. *)
Theorem signal_schedules_one_restart r (l : Loop) :
  reconnects_once on_goodbye r l ∧ reconnects_once on_disconnected r l.
Proof. split; apply reconnect_reconnects_once. Qed.

Lemma disconnect_run c torn_down stopped :
  (∀ r, torn_down r = Resolved tt) → stopped = Resolved tt →
  disconnect torn_down stopped c =
    mkRun (Returned tt) c
          (mkEffects [] (((λ kv, CallRtmDisconnect kv.2) <$> map_to_list (rtmMap c))
                           ++ (if events c then [CallEventsStop] else []))
                     [] []).
Proof.
  intros Ht ->. unfold disconnect, bind at 1, getClient. simpl.
  unfold bind at 1.
  rewrite (forEach_calls _ (λ kv, CallRtmDisconnect kv.2)).
  2:{ intros [k r]. unfold bind, call. simpl. by rewrite Ht. }
  simpl. destruct (events c); unfold when, bind, call, ret, await, eff_app; simpl;
    by rewrite ?app_nil_r.
Qed.

(** C7, as amended.  With every teardown resolving, [disconnect] returns
    after it has asked each session of [rtmMap] to disconnect (and the
    events adapter to stop, when there is one); it leaves the store as it
    was.  It does not touch the timers: each reconnect timer that was
    pending still is, and when it expires it restarts its session. *)
Theorem disconnect_tears_down_sessions (l : Loop) torn_down stopped :
  (∀ r, torn_down r = Resolved tt) → stopped = Resolved tt →
  let m := disconnect torn_down stopped in
  let l1 := step m l in
  outcome (m (lp_client l)) = Returned tt ∧
  lp_client l1 = lp_client l ∧
  lp_calls l1 =
    lp_calls l ++ ((λ kv, CallRtmDisconnect kv.2) <$> map_to_list (rtmMap (lp_client l)))
               ++ (if events (lp_client l) then [CallEventsStop] else []) ∧
  (∀ key r, rtmMap (lp_client l) !! key = Some r → CallRtmDisconnect r ∈ lp_calls l1) ∧
  lp_timers l1 = lp_timers l ∧
  (∀ i t started, lp_timers l !! i = Some t →
     ∃ l2, fire i started l1 = Some l2 ∧
           lp_calls l2 = lp_calls l1 ++ [CallRtmStart (tm_rtm t)]).
Proof.
  intros Ht Hs. simpl. unfold step.
  rewrite (disconnect_run _ _ _ Ht Hs). simpl.
  rewrite !app_nil_r. split_and!; try done.
  - intros key r Hr. rewrite !elem_of_app. right. left.
    apply list_elem_of_fmap. exists (key, r). split; [done|].
    by apply elem_of_map_to_list.
  - intros i t started Hi. unfold fire. simpl. rewrite Hi.
    eexists. split; [done|]. unfold step. simpl.
    by destruct started.
Qed.

(** ** Runs and their effects *)

Lemma eff_app_nil_l (e : Effects) : eff_app no_effects e = e.
Proof. by destruct e. Qed.

Lemma eff_app_nil_r (e : Effects) : eff_app e no_effects = e.
Proof. destruct e. unfold eff_app. simpl. by rewrite !app_nil_r. Qed.

Lemma eff_app_assoc (e1 e2 e3 : Effects) :
  eff_app e1 (eff_app e2 e3) = eff_app (eff_app e1 e2) e3.
Proof. unfold eff_app. simpl. by rewrite !app_assoc. Qed.

Lemma bind_run {A B} (m : M A) (k : A → M B) c a c1 e1 :
  m c = mkRun (Returned a) c1 e1 → bind m k c = prepend e1 (k a c1).
Proof. intros Hm. unfold bind, prepend. rewrite Hm. by destruct (k a c1). Qed.

Lemma bind_returned {A B} (m : M A) (k : A → M B) c a :
  outcome (m c) = Returned a →
  bind m k c = prepend (effects (m c)) (k a (store (m c))).
Proof.
  intros Ho. destruct (m c) as [o c1 e1] eqn:Hm. simpl in *. subst o.
  by apply bind_run.
Qed.

Lemma prepend_nil {A} (r : Run A) : prepend no_effects r = r.
Proof. destruct r. unfold prepend. simpl. by rewrite eff_app_nil_l. Qed.

Lemma bind_assoc {A B C} (m : M A) (k : A → M B) (h : B → M C) c :
  bind (bind m k) h c = bind m (λ a, bind (k a) h) c.
Proof.
  unfold bind. destruct (m c) as [[a| |] c1 e1]; try done.
  destruct (k a c1) as [[b| |] c2 e2]; try done.
  destruct (h b c2). by rewrite eff_app_assoc.
Qed.

Lemma bind_ext {A B} (m : M A) (k1 k2 : A → M B) c :
  (∀ a c', k1 a c' = k2 a c') → bind m k1 c = bind m k2 c.
Proof.
  intros Hk. unfold bind. destruct (m c) as [[a| |] c1 e1]; try done.
  by rewrite Hk.
Qed.

Lemma bind_cong {A B} (m1 m2 : M A) (k1 k2 : A → M B) c :
  m1 c = m2 c →
  (∀ a, outcome (m2 c) = Returned a → k1 a (store (m2 c)) = k2 a (store (m2 c))) →
  bind m1 k1 c = bind m2 k2 c.
Proof.
  intros Hm Hk. unfold bind. rewrite Hm.
  destruct (m2 c) as [[a| |] c1 e1]; try done. simpl in Hk. by rewrite Hk.
Qed.

Lemma ret_bind {A B} (a : A) (k : A → M B) c : bind (ret a) k c = k a c.
Proof. unfold bind, ret. destruct (k a c). by rewrite eff_app_nil_l. Qed.

Lemma forEach_app {A} (f : A → M unit) (xs ys : list A) c :
  forEach (xs ++ ys) f c = (forEach xs f ;; forEach ys f) c.
Proof.
  revert c. induction xs as [|x xs IH]; intros c; simpl.
  - by rewrite ret_bind.
  - rewrite bind_assoc. apply bind_ext. intros _ c'. apply IH.
Qed.

(** ** What the upserts leave in place *)

Lemma same_ids_refl c : same_ids c c.
Proof. split_and!; eauto. Qed.

Lemma same_ids_trans c1 c2 c3 : same_ids c1 c2 → same_ids c2 c3 → same_ids c1 c3.
Proof.
  intros (Hw1 & Hk1 & Ht1) (Hw2 & Hk2 & Ht2). split_and!; [congruence..|].
  intros k t Hk. destruct (Ht1 _ _ Hk) as (t' & Hk' & Hid').
  destruct (Ht2 _ _ Hk') as (t'' & Hk'' & Hid''). exists t''. split; congruence.
Qed.

Lemma same_ids_set_team c tid team team' :
  teams c !! tid = Some team → t_id team' = t_id team →
  same_ids c (Client_set_teams (<[tid := team']> (teams c)) c).
Proof.
  intros Ht Hid. split_and!; [done..|]. intros k t Hk. simpl.
  destruct (decide (k = tid)) as [->|Hne].
  - rewrite lookup_insert_eq. exists team'. split; congruence.
  - rewrite lookup_insert_ne by done. eauto.
Qed.

Lemma addUser_frame c (d : IUserData) b :
  let r := addUser d b c in
  same_ids c (store r) ∧
  conversations_cursors (calls (effects r)) = [] ∧
  users_cursors (calls (effects r)) = [].
Proof.
  destruct (teams c !! ud_team_id d) as [team|] eqn:Ht.
  - destruct (map_get (t_users team) (user_key d)) as [user|] eqn:Hu.
    + destruct (user_key d) as [key|] eqn:Hk; [simpl in Hu|done].
      simpl. rewrite (addUser_change _ _ _ _ _ _ Ht Hk Hu). simpl.
      split_and!; try done. by eapply same_ids_set_team.
    + simpl. rewrite (addUser_add _ _ _ _ Ht Hu). simpl.
      split_and!; try by destruct (rtmMap c !! t_id team).
      by eapply same_ids_set_team.
  - destruct b.
    + destruct (webMap c !! ud_team_id d) as [w|] eqn:Hw; simpl.
      * rewrite (addUser_fetch _ _ _ Ht Hw). split_and!; try done. apply same_ids_refl.
      * rewrite (addUser_throw _ _ Ht Hw). split_and!; try done. apply same_ids_refl.
    + simpl. rewrite (addUser_drop _ _ Ht). split_and!; try done. apply same_ids_refl.
Qed.

Lemma addChannel_frame c (d : IChannelData) b :
  let r := addChannel d b c in
  same_ids c (store r) ∧
  conversations_cursors (calls (effects r)) = [] ∧
  users_cursors (calls (effects r)) = [].
Proof.
  simpl.
  destruct (truthy (channel_teamId d)) eqn:Htr.
  2:{ rewrite addChannel_no_team by done. split_and!; try done. apply same_ids_refl. }
  apply truthy_is_Some in Htr as (tid & Hid & Hne).
  destruct (teams c !! tid) as [team|] eqn:Ht.
  - destruct (t_channels team !! cd_id d) as [chan|] eqn:Hc.
    + rewrite (addChannel_change _ _ _ _ _ _ Hid Hne Ht Hc). simpl.
      split_and!; try done. by eapply same_ids_set_team.
    + rewrite (addChannel_add _ _ _ _ _ Hid Hne Ht Hc). simpl.
      split_and!; try by destruct (starting c (t_id team)).
      by eapply same_ids_set_team.
  - destruct b.
    + destruct (webMap c !! tid) as [w|] eqn:Hw.
      * rewrite (addChannel_fetch _ _ _ _ Hid Hne Ht Hw).
        split_and!; try done. apply same_ids_refl.
      * rewrite (addChannel_throw _ _ _ Hid Hne Ht Hw).
        split_and!; try done. apply same_ids_refl.
    + rewrite (addChannel_drop _ _ _ Hid Ht). split_and!; try done. apply same_ids_refl.
Qed.

Lemma addChannel_returns c (d : IChannelData) tid :
  channel_teamId d = Some tid →
  is_Some (webMap c !! tid) →
  outcome (addChannel d true c) = Returned tt.
Proof.
  intros Hid [w Hw].
  destruct (decide (tid = "")) as [->|Hne].
  { rewrite addChannel_no_team; [done|]. by rewrite Hid. }
  destruct (teams c !! tid) as [team|] eqn:Ht.
  - destruct (t_channels team !! cd_id d) as [chan|] eqn:Hc.
    + by rewrite (addChannel_change _ _ _ _ _ _ Hid Hne Ht Hc).
    + by rewrite (addChannel_add _ _ _ _ _ Hid Hne Ht Hc).
  - by rewrite (addChannel_fetch _ _ _ _ Hid Hne Ht Hw).
Qed.

(** ** Team.load *)

Lemma getThis_run key c this :
  teams c !! key = Some this → getThis key c = mkRun (Returned this) c no_effects.
Proof. intros Ht. unfold getThis, bind, getClient. by rewrite Ht. Qed.

Lemma web_run tid c w :
  webMap c !! tid = Some w → web tid c = mkRun (Returned w) c no_effects.
Proof. intros Hw. unfold web, bind, getClient. by rewrite Hw. Qed.

Lemma call_bind {B} x (k : unit → M B) c :
  bind (call x) k c = prepend (mkEffects [] [x] [] []) (k tt c).
Proof. by apply bind_run. Qed.

Lemma same_ids_this key tid c c' :
  same_ids c c' →
  (∃ this, teams c !! key = Some this ∧ t_id this = tid) →
  ∃ this, teams c' !! key = Some this ∧ t_id this = tid.
Proof.
  intros (_ & _ & Ht) (this & Hk & Hid).
  destruct (Ht _ _ Hk) as (t' & Hk' & Hid'). exists t'. split; congruence.
Qed.

Lemma same_ids_web tid c c' :
  same_ids c c' → is_Some (webMap c !! tid) → is_Some (webMap c' !! tid).
Proof. intros (Hw & _). by rewrite Hw. Qed.

Lemma channel_teamId_set tid (d : IChannelData) :
  tid ≠ "" → channel_teamId (set_team_id tid d) = Some tid.
Proof. intros Hne. unfold channel_teamId. simpl. by rewrite js_or_truthy_l by by apply truthy_Some. Qed.

(** The upserts of a page of channels return, and send no listing request. *)
Lemma upsert_channels_run tid items c :
  tid ≠ "" → is_Some (webMap c !! tid) →
  let u := upsert_channels tid items c in
  outcome u = Returned tt ∧ same_ids c (store u) ∧
  conversations_cursors (calls (effects u)) = [] ∧
  users_cursors (calls (effects u)) = [].
Proof.
  intros Hne. revert c. induction items as [|d items IH]; intros c Hw; simpl.
  { split_and!; try done. apply same_ids_refl. }
  pose proof (addChannel_returns c (set_team_id tid d) tid
                (channel_teamId_set _ _ Hne) Hw) as Ho.
  destruct (addChannel_frame c (set_team_id tid d) true) as (Hs & Hc & Hu).
  unfold upsert_channels in *. simpl. rewrite (bind_returned _ _ _ _ Ho).
  destruct (IH (store (addChannel (set_team_id tid d) true c)))
    as (Ho' & Hs' & Hc' & Hu'); [by eapply same_ids_web|].
  unfold prepend. simpl. split_and!.
  - done.
  - by eapply same_ids_trans.
  - unfold conversations_cursors in *. by rewrite omap_app, Hc, Hc'.
  - unfold users_cursors in *. by rewrite omap_app, Hu, Hu'.
Qed.

Lemma same_ids_team tid c c' :
  same_ids c c' → is_Some (teams c !! tid) → is_Some (teams c' !! tid).
Proof. intros (_ & _ & Ht) [t Hk]. destruct (Ht _ _ Hk) as (t' & Hk' & _). eauto. Qed.

Lemma same_ids_reachable c c' (d : IUserData) :
  same_ids c c' → reachable c d → reachable c' d.
Proof.
  intros Hs [Ht|Hw]; [left; by eapply same_ids_team|right; by eapply same_ids_web].
Qed.

Lemma upsert_users_run (items : list IUserData) c :
  Forall (reachable c) items →
  let u := upsert_users items c in
  outcome u = Returned tt ∧ same_ids c (store u) ∧
  conversations_cursors (calls (effects u)) = [] ∧
  users_cursors (calls (effects u)) = [].
Proof.
  revert c. induction items as [|d items IH]; intros c Hw; simpl.
  { split_and!; try done. apply same_ids_refl. }
  apply Forall_cons in Hw as [Hd Hw].
  assert (Ho : outcome (addUser d true c) = Returned tt).
  { apply addUser_returns. destruct Hd as [?|?]; [by left|by right; right]. }
  destruct (addUser_frame c d true) as (Hs & Hc & Hu).
  unfold upsert_users in *. simpl. rewrite (bind_returned _ _ _ _ Ho).
  destruct (IH (store (addUser d true c))) as (Ho' & Hs' & Hc' & Hu').
  { eapply Forall_impl; [exact Hw|]. intros d'. by apply same_ids_reachable. }
  unfold prepend. simpl. split_and!.
  - done.
  - by eapply same_ids_trans.
  - unfold conversations_cursors in *. by rewrite omap_app, Hc, Hc'.
  - unfold users_cursors in *. by rewrite omap_app, Hu, Hu'.
Qed.

(** The body of the loop over a page of channels reads [this.id] afresh for
    each item; it is the id the team had when the page arrived. *)
Lemma forEach_channels_this key tid items c :
  (∃ this, teams c !! key = Some this ∧ t_id this = tid) →
  forEach items (λ channelData,
                   let* this := getThis key in
                   addChannel (set_team_id (t_id this) channelData) true) c =
    upsert_channels tid items c.
Proof.
  revert c. induction items as [|d items IH]; intros c (this & Hk & Hid); [done|].
  unfold upsert_channels. simpl.
  assert (Hd : (let* this := getThis key in
                addChannel (set_team_id (t_id this) d) true) c =
               addChannel (set_team_id tid d) true c).
  { rewrite (bind_run _ _ _ _ _ _ (getThis_run _ _ _ Hk)), prepend_nil. by rewrite Hid. }
  apply bind_cong; [done|]. intros _ _. apply IH.
  destruct (addChannel_frame c (set_team_id tid d) true) as (Hs & _).
  eapply same_ids_this; eauto.
Qed.

Lemma load_channels_step key cur p script c this w :
  teams c !! key = Some this → webMap c !! t_id this = Some w →
  load_channels key cur (channels_page p :: script) c =
    prepend (mkEffects [] [CallConversationsList w cur] [] [])
            ((upsert_channels (t_id this) p.1 ;;
              if truthy p.2 then load_channels key p.2 script else ret script) c).
Proof.
  intros Hk Hw. simpl.
  rewrite (bind_run _ _ _ _ _ _ (getThis_run _ _ _ Hk)), prepend_nil.
  rewrite (bind_run _ _ _ _ _ _ (web_run _ _ _ Hw)), prepend_nil.
  rewrite call_bind. f_equal. rewrite ret_bind.
  apply bind_cong; [|done]. apply forEach_channels_this. eauto.
Qed.

Lemma load_users_step key cur p script c this w :
  teams c !! key = Some this → webMap c !! t_id this = Some w →
  load_users key cur (users_page p :: script) c =
    prepend (mkEffects [] [CallUsersList w cur] [] [])
            ((upsert_users p.1 ;;
              if truthy p.2 then load_users key p.2 script else ret script) c).
Proof.
  intros Hk Hw. simpl.
  rewrite (bind_run _ _ _ _ _ _ (getThis_run _ _ _ Hk)), prepend_nil.
  rewrite (bind_run _ _ _ _ _ _ (web_run _ _ _ Hw)), prepend_nil.
  rewrite call_bind. f_equal. by rewrite ret_bind.
Qed.

Lemma all_items_cons {X} (p : list X * option string) more final :
  all_items (p :: more) final = p.1 ++ all_items more final.
Proof. unfold all_items. simpl. by rewrite app_assoc. Qed.

Lemma upsert_channels_app tid xs ys c :
  upsert_channels tid (xs ++ ys) c =
    (upsert_channels tid xs ;; upsert_channels tid ys) c.
Proof. apply forEach_app. Qed.

Lemma upsert_users_app (xs ys : list IUserData) c :
  upsert_users (xs ++ ys) c = (upsert_users xs ;; upsert_users ys) c.
Proof. apply forEach_app. Qed.

(** The loop over the pages of channels: it returns once the page without a
    cursor has been handled, having sent one request per page, each with the
    cursor of the page before; store, events and pending promises are those
    of upserting the channels of all pages in order. *)
Lemma load_channels_drains key tid w more final rest :
  paginated more final → tid ≠ "" →
  ∀ cur c,
    (∃ this, teams c !! key = Some this ∧ t_id this = tid) →
    webMap c !! tid = Some w →
    let r := load_channels key cur ((channels_page <$> more) ++ channels_page final :: rest) c in
    let u := upsert_channels tid (all_items more final) c in
    outcome r = Returned rest ∧ outcome u = Returned tt ∧
    store r = store u ∧ same_ids c (store r) ∧
    emitted (effects r) = emitted (effects u) ∧
    deferred (effects r) = deferred (effects u) ∧
    conversations_cursors (calls (effects r)) = cur :: (snd <$> more) ∧
    users_cursors (calls (effects r)) = [].
Proof.
  intros [Hmore Hfinal] Hne.
  induction more as [|p more IH]; intros cur c (this & Hk & Hid) Hw; cbv zeta.
  - subst tid. rewrite fmap_nil, app_nil_l.
    rewrite (load_channels_step _ _ _ _ _ _ _ Hk Hw), Hfinal.
    unfold all_items. simpl.
    destruct (upsert_channels_run (t_id this) final.1 c Hne) as (Ho & Hs & Hc & Hu);
      [by eauto|].
    rewrite (bind_returned _ _ _ _ Ho). unfold prepend. simpl.
    rewrite !app_nil_r. split_and!; try done.
    all: unfold conversations_cursors, users_cursors in *; simpl;
      by rewrite ?omap_app, ?Hc, ?Hu.
  - apply Forall_cons in Hmore as [Hp Hmore]. subst tid.
    rewrite fmap_cons, <- app_comm_cons.
    rewrite (load_channels_step _ _ _ _ _ _ _ Hk Hw), Hp.
    rewrite all_items_cons, upsert_channels_app.
    destruct (upsert_channels_run (t_id this) p.1 c Hne) as (Ho & Hs & Hc & Hu);
      [by eauto|].
    rewrite !(bind_returned _ _ _ _ Ho).
    set (c1 := store (upsert_channels (t_id this) p.1 c)) in *.
    destruct (IH Hmore p.2 c1) as (Ho' & Hou' & Hst' & Hs' & He' & Hd' & Hc' & Hu').
    { eapply same_ids_this; eauto. }
    { destruct Hs as (-> & _). done. }
    unfold prepend. simpl. split_and!; try done.
    all: try (by eapply same_ids_trans); try (by rewrite He'); try (by rewrite Hd').
    all: unfold conversations_cursors, users_cursors in *; simpl;
      by rewrite ?omap_app, ?Hc, ?Hc', ?Hu, ?Hu'.
Qed.

Lemma load_users_drains key tid w more final rest :
  paginated more final →
  ∀ cur c,
    (∃ this, teams c !! key = Some this ∧ t_id this = tid) →
    webMap c !! tid = Some w →
    Forall (reachable c) (all_items more final) →
    let r := load_users key cur ((users_page <$> more) ++ users_page final :: rest) c in
    let u := upsert_users (all_items more final) c in
    outcome r = Returned rest ∧ outcome u = Returned tt ∧
    store r = store u ∧ same_ids c (store r) ∧
    emitted (effects r) = emitted (effects u) ∧
    deferred (effects r) = deferred (effects u) ∧
    users_cursors (calls (effects r)) = cur :: (snd <$> more) ∧
    conversations_cursors (calls (effects r)) = [].
Proof.
  intros [Hmore Hfinal].
  induction more as [|p more IH]; intros cur c (this & Hk & Hid) Hw Hall; cbv zeta.
  - subst tid. rewrite fmap_nil, app_nil_l.
    rewrite (load_users_step _ _ _ _ _ _ _ Hk Hw), Hfinal.
    unfold all_items in *. simpl in *.
    destruct (upsert_users_run final.1 c Hall) as (Ho & Hs & Hc & Hu).
    rewrite (bind_returned _ _ _ _ Ho). unfold prepend. simpl.
    rewrite !app_nil_r. split_and!; try done.
    all: unfold conversations_cursors, users_cursors in *; simpl;
      by rewrite ?omap_app, ?Hc, ?Hu.
  - apply Forall_cons in Hmore as [Hp Hmore]. subst tid.
    rewrite fmap_cons, <- app_comm_cons.
    rewrite (load_users_step _ _ _ _ _ _ _ Hk Hw), Hp.
    rewrite all_items_cons in *. rewrite upsert_users_app.
    apply Forall_app in Hall as [Hall1 Hall2].
    destruct (upsert_users_run p.1 c Hall1) as (Ho & Hs & Hc & Hu).
    rewrite !(bind_returned _ _ _ _ Ho).
    set (c1 := store (upsert_users p.1 c)) in *.
    destruct (IH Hmore p.2 c1) as (Ho' & Hou' & Hst' & Hs' & He' & Hd' & Hc' & Hu').
    { eapply same_ids_this; eauto. }
    { destruct Hs as (-> & _). done. }
    { eapply Forall_impl; [exact Hall2|]. intros d'. by apply same_ids_reachable. }
    unfold prepend. simpl. split_and!; try done.
    all: try (by eapply same_ids_trans); try (by rewrite He'); try (by rewrite Hd').
    all: unfold conversations_cursors, users_cursors in *; simpl;
      by rewrite ?omap_app, ?Hc, ?Hc', ?Hu, ?Hu'.
Qed.

Lemma setThis_run key t c :
  setThis key t c =
    mkRun (Returned tt) (Client_set_teams (<[key := t]> (teams c)) c) no_effects.
Proof. done. Qed.

(** ** What the upserts store *)

Lemma retains_refl c : retains c c.
Proof. by split. Qed.

Lemma retains_trans c1 c2 c3 : retains c1 c2 → retains c2 c3 → retains c1 c3.
Proof. intros [Hc1 Hu1] [Hc2 Hu2]. split; eauto. Qed.

Lemma retains_set_team c tid team team' :
  teams c !! tid = Some team →
  (∀ k, is_Some (t_channels team !! k) → is_Some (t_channels team' !! k)) →
  (∀ k, is_Some (t_users team !! k) → is_Some (t_users team' !! k)) →
  retains c (Client_set_teams (<[tid := team']> (teams c)) c).
Proof.
  intros Ht Hc Hu. split; intros k tid'; unfold getChannel, getUser; simpl.
  - destruct (decide (tid' = tid)) as [->|Hne].
    + rewrite lookup_insert_eq, Ht. apply Hc.
    + by rewrite lookup_insert_ne.
  - destruct (decide (tid' = tid)) as [->|Hne].
    + rewrite lookup_insert_eq, Ht. apply Hu.
    + by rewrite lookup_insert_ne.
Qed.

Lemma holds_channel_retains tid (d : IChannelData) c c' :
  retains c c' → holds_channel tid d c → holds_channel tid d c'.
Proof.
  intros [Hc _] [H|[c0 H]]; [left|right; exists c0]; by apply Hc.
Qed.

Lemma holds_user_retains (d : IUserData) c c' :
  retains c c' → holds_user d c → holds_user d c'.
Proof.
  intros [_ Hu] [(key & Hk & H)|[c0 H]];
    [left; exists key; split; [done|]|right; exists c0]; by apply Hu.
Qed.

(** No upsert takes a channel or a user out of a team. *)
Lemma addChannel_retains c (d : IChannelData) b : retains c (store (addChannel d b c)).
Proof.
  destruct (truthy (channel_teamId d)) eqn:Htr.
  2:{ rewrite addChannel_no_team by done. apply retains_refl. }
  apply truthy_is_Some in Htr as (tid & Hid & Hne).
  destruct (teams c !! tid) as [team|] eqn:Ht.
  - destruct (t_channels team !! cd_id d) as [chan|] eqn:Hc.
    + rewrite (addChannel_change _ _ _ _ _ _ Hid Hne Ht Hc). simpl.
      eapply retains_set_team; [done| |done]. simpl. intros k Hk.
      apply lookup_insert_is_Some'. by right.
    + rewrite (addChannel_add _ _ _ _ _ Hid Hne Ht Hc). simpl.
      eapply retains_set_team; [done| |done]. simpl. intros k Hk.
      apply lookup_insert_is_Some'. by right.
  - destruct b.
    + destruct (webMap c !! tid) as [w|] eqn:Hw.
      * rewrite (addChannel_fetch _ _ _ _ Hid Hne Ht Hw). apply retains_refl.
      * rewrite (addChannel_throw _ _ _ Hid Hne Ht Hw). apply retains_refl.
    + rewrite (addChannel_drop _ _ _ Hid Ht). apply retains_refl.
Qed.

Lemma addUser_retains c (d : IUserData) b : retains c (store (addUser d b c)).
Proof.
  destruct (teams c !! ud_team_id d) as [team|] eqn:Ht.
  - destruct (map_get (t_users team) (user_key d)) as [user|] eqn:Hu.
    + destruct (user_key d) as [key|] eqn:Hk; [simpl in Hu|done].
      rewrite (addUser_change _ _ _ _ _ _ Ht Hk Hu). simpl.
      eapply retains_set_team; [done|done|]. simpl. intros k Hk'.
      apply lookup_insert_is_Some'. by right.
    + rewrite (addUser_add _ _ _ _ Ht Hu). simpl.
      eapply retains_set_team; [done|done|]. simpl. intros k Hk'.
      apply lookup_insert_is_Some'. by right.
  - destruct b.
    + destruct (webMap c !! ud_team_id d) as [w|] eqn:Hw.
      * rewrite (addUser_fetch _ _ _ Ht Hw). apply retains_refl.
      * rewrite (addUser_throw _ _ Ht Hw). apply retains_refl.
    + rewrite (addUser_drop _ _ Ht). apply retains_refl.
Qed.

Lemma forEach_retains {A} (f : A → M unit) (xs : list A) c :
  (∀ x c', retains c' (store (f x c'))) →
  retains c (store (forEach xs f c)).
Proof.
  intros Hf. revert c. induction xs as [|x xs IH]; intros c; simpl.
  { apply retains_refl. }
  pose proof (Hf x c) as Hx. unfold bind.
  destruct (f x c) as [[[]| |] c1 e1]; simpl in *; try done.
  pose proof (IH c1) as Hxs. destruct (forEach xs f c1) as [o c2 e2]. simpl in *.
  by eapply retains_trans.
Qed.

(** An upsert into a team of the store leaves the entity in that team. *)
Lemma addChannel_holds c (d : IChannelData) tid :
  channel_teamId d = Some tid → tid ≠ "" → is_Some (teams c !! tid) →
  holds_channel tid d (store (addChannel d true c)).
Proof.
  intros Hid Hne [team Ht].
  destruct (t_channels team !! cd_id d) as [chan|] eqn:Hc.
  - rewrite (addChannel_change _ _ _ _ _ _ Hid Hne Ht Hc). simpl.
    left. unfold getChannel. simpl.
    rewrite lookup_insert_eq. simpl. rewrite lookup_insert_eq. eauto.
  - rewrite (addChannel_add _ _ _ _ _ Hid Hne Ht Hc). simpl.
    right. exists c. unfold getChannel. simpl.
    rewrite lookup_insert_eq. simpl. rewrite lookup_insert_eq. eauto.
Qed.

Lemma addUser_holds c (d : IUserData) :
  is_Some (teams c !! ud_team_id d) →
  holds_user d (store (addUser d true c)).
Proof.
  intros [team Ht].
  destruct (map_get (t_users team) (user_key d)) as [user|] eqn:Hu.
  - destruct (user_key d) as [key|] eqn:Hk; [simpl in Hu|done].
    rewrite (addUser_change _ _ _ _ _ _ Ht Hk Hu). simpl.
    left. exists key. split; [done|]. unfold getUser. simpl.
    rewrite lookup_insert_eq. simpl. rewrite lookup_insert_eq. eauto.
  - rewrite (addUser_add _ _ _ _ Ht Hu). simpl.
    right. exists c. unfold getUser. simpl.
    rewrite lookup_insert_eq. simpl. rewrite lookup_insert_eq. eauto.
Qed.

(** After the upserts of a list of channels into a team of the store, the
    team holds a channel for each of them. *)
Lemma upsert_channels_holds tid items c :
  tid ≠ "" → is_Some (teams c !! tid) →
  ∀ d, d ∈ items →
       holds_channel tid (set_team_id tid d) (store (upsert_channels tid items c)).
Proof.
  intros Hne. revert c. induction items as [|x items IH]; intros c Ht d Hd.
  { by apply elem_of_nil in Hd. }
  unfold upsert_channels in *. simpl.
  pose proof (channel_teamId_set tid x Hne) as Hid.
  pose proof (addChannel_holds c _ tid Hid Hne Ht) as Hx.
  destruct (addChannel_frame c (set_team_id tid x) true) as (Hs & _).
  assert (Ho : outcome (addChannel (set_team_id tid x) true c) = Returned tt).
  { destruct Ht as [team Ht].
    destruct (t_channels team !! cd_id (set_team_id tid x)) as [chan|] eqn:Hc.
    - by rewrite (addChannel_change _ _ _ _ _ _ Hid Hne Ht Hc).
    - by rewrite (addChannel_add _ _ _ _ _ Hid Hne Ht Hc). }
  rewrite (bind_returned _ _ _ _ Ho). unfold prepend. simpl.
  set (c1 := store (addChannel (set_team_id tid x) true c)) in *.
  apply elem_of_cons in Hd as [->|Hd].
  - eapply holds_channel_retains; [|exact Hx].
    apply forEach_retains. intros y c'. apply addChannel_retains.
  - apply IH; [|done]. by eapply same_ids_team.
Qed.

(** After the upserts of a list of members, each of them whose team is in
    the store is held by that team. *)
Lemma upsert_users_holds (items : list IUserData) c :
  Forall (reachable c) items →
  ∀ d, d ∈ items → is_Some (teams c !! ud_team_id d) →
       holds_user d (store (upsert_users items c)).
Proof.
  revert c. induction items as [|x items IH]; intros c Hall d Hd Ht.
  { by apply elem_of_nil in Hd. }
  apply Forall_cons in Hall as [Hx Hall].
  unfold upsert_users in *. simpl.
  destruct (addUser_frame c x true) as (Hs & _).
  assert (Ho : outcome (addUser x true c) = Returned tt).
  { apply addUser_returns. destruct Hx as [?|?]; [by left|by right; right]. }
  rewrite (bind_returned _ _ _ _ Ho). unfold prepend. simpl.
  set (c1 := store (addUser x true c)) in *.
  apply elem_of_cons in Hd as [->|Hd].
  - eapply holds_user_retains; [|by apply addUser_holds].
    apply forEach_retains. intros y c'. apply addUser_retains.
  - apply IH; [|done|by eapply same_ids_team].
    eapply Forall_impl; [exact Hall|]. intros d'. by apply same_ids_reachable.
Qed.

(** [load] of a team that still has a [fakeId] after the patch from
    [team.info]. *)
Lemma load_fakeId_run c key this w info ti script :
  teams c !! key = Some this →
  webMap c !! default (t_id this) (js_or (t_fakeId this) (Some (t_id this))) = Some w →
  wr_ok info = true → wr_team info = Some ti →
  truthy (t_fakeId (Team_patch (tokens c) this ti)) = true →
  load key (Resolved (Some info) :: script) c =
    mkRun (Returned script)
          (Client_set_teams
             (<[key := Team_set_partial false (Team_patch (tokens c) this ti)]> (teams c))
             c)
          (mkEffects [] [CallTeamInfo w (t_id this)] [] []).
Proof.
  intros Hk Hw Hok Hti Hfake. unfold load.
  rewrite (bind_run _ _ _ _ _ _ (getThis_run _ _ _ Hk)), prepend_nil.
  rewrite (bind_run _ _ _ _ _ _ (web_run _ _ _ Hw)), prepend_nil.
  rewrite call_bind. simpl. rewrite ret_bind.
  destruct info as [ok team chs mems next]. simpl in Hok, Hti. subst ok team.
  rewrite (bind_run getClient _ c c c no_effects) by done. rewrite prepend_nil.
  rewrite (bind_run _ _ _ _ _ _ (setThis_run key _ c)), prepend_nil.
  set (c1 := Client_set_teams _ c).
  assert (Hk1 : teams c1 !! key = Some (Team_patch (tokens c) this ti))
    by apply lookup_insert_eq.
  rewrite (bind_run _ _ _ _ _ _ (getThis_run _ _ _ Hk1)), prepend_nil.
  rewrite Hfake.
  rewrite (bind_run _ _ _ _ _ _ (setThis_run key _ c1)), prepend_nil.
  unfold prepend, ret. simpl. subst c1. unfold Client_set_teams. simpl.
  by rewrite insert_insert_eq.
Qed.

(** C8.  [Team.load] on a team with a request client, once [team.info] has
    answered with a team.  When the patch from that answer leaves the team
    with a [fakeId], [load] returns at once, the team marked as loaded: no
    listing is requested, whatever the listings would answer.  When it
    leaves the team without a [fakeId], and the team is stored under the id
    of the answer with a request client under that id: if the channel
    listing comes in pages of which all but the last carry a cursor, and the
    user listing likewise, and the team of every listed member is in the
    store or has a request client, [load] returns after one
    [conversations.list] request per page, the first without a cursor and
    each next one with the cursor of the page before, and then one
    [users.list] request per page in the same way.  By then every channel
    and every user of every page has been upserted, in order: the team
    holds a channel for every listed channel and, for every listed member
    whose team is in the store, that team holds a user; the team is marked
    as loaded; store, events and pending promises are those of
    [load_at_once]. *)
Theorem load_drains_pagination key c this w0 info ti :
  teams c !! key = Some this →
  webMap c !! default (t_id this) (js_or (t_fakeId this) (Some (t_id this))) = Some w0 →
  wr_ok info = true → wr_team info = Some ti →
  (truthy (t_fakeId (Team_patch (tokens c) this ti)) = true →
   ∀ script,
     load key (Resolved (Some info) :: script) c =
       mkRun (Returned script)
             (Client_set_teams
                (<[key := Team_set_partial false (Team_patch (tokens c) this ti)]>
                   (teams c)) c)
             (mkEffects [] [CallTeamInfo w0 (t_id this)] [] []))
  ∧ (truthy (t_fakeId (Team_patch (tokens c) this ti)) = false →
     td_id ti = key → key ≠ "" →
     ∀ w (cmore : list (list IChannelData * option string)) cfinal
       (umore : list (list IUserData * option string)) ufinal rest,
     webMap c !! key = Some w →
     paginated cmore cfinal → paginated umore ufinal →
     Forall (reachable c) (all_items umore ufinal) →
     let script :=
       Resolved (Some info)
         :: (channels_page <$> cmore) ++ channels_page cfinal
         :: (users_page <$> umore) ++ users_page ufinal :: rest in
     let r := load key script c in
     let u := load_at_once key (Team_patch (tokens c) this ti)
                           (all_items cmore cfinal) (all_items umore ufinal) c in
     outcome r = Returned rest ∧
     conversations_cursors (calls (effects r)) = None :: (snd <$> cmore) ∧
     users_cursors (calls (effects r)) = None :: (snd <$> umore) ∧
     (∀ d, d ∈ all_items cmore cfinal →
           holds_channel key (set_team_id key d) (store r)) ∧
     (∀ d, d ∈ all_items umore ufinal → is_Some (teams c !! ud_team_id d) →
           holds_user d (store r)) ∧
     (∃ t, teams (store r) !! key = Some t ∧ t_partial t = false) ∧
     outcome u = Returned tt ∧
     store r = store u ∧
     emitted (effects r) = emitted (effects u) ∧
     deferred (effects r) = deferred (effects u)).
Proof.
  intros Hk Hw0 Hok Hti. split.
  { intros Hfake script. by apply load_fakeId_run. }
  intros Hfake Hkey Hne w cmore cfinal umore ufinal rest Hw Hcp Hup Hall. cbv zeta.
  set (this' := Team_patch (tokens c) this ti) in *.
  set (c1 := Client_set_teams (<[key := this']> (teams c)) c).
  assert (Hid' : t_id this' = key) by (rewrite <- Hkey; apply Team_patch_id).
  assert (Hk1 : teams c1 !! key = Some this') by apply lookup_insert_eq.
  assert (Hthis1 : ∃ t, teams c1 !! key = Some t ∧ t_id t = key) by eauto.
  assert (Hw1 : webMap c1 !! key = Some w) by done.
  assert (Ht1 : ∀ k, is_Some (teams c !! k) → is_Some (teams c1 !! k)).
  { intros k Hs. subst c1. simpl. apply lookup_insert_is_Some'. by right. }
  (* the loop over the channels *)
  pose proof (load_channels_drains key key w cmore cfinal
                ((users_page <$> umore) ++ users_page ufinal :: rest)
                Hcp Hne None c1 Hthis1 Hw1) as Hc.
  cbv zeta in Hc.
  set (rc := load_channels _ _ _ c1) in *.
  set (uc := upsert_channels _ _ c1) in *.
  destruct Hc as (Hrc & Huc & Hsc & Hidc & Hec & Hdc & Hcc & Hcu).
  (* the loop over the users *)
  assert (Hw2 : webMap (store rc) !! key = Some w).
  { destruct Hidc as (-> & _). done. }
  assert (Hall2 : Forall (reachable (store rc)) (all_items umore ufinal)).
  { eapply Forall_impl; [exact Hall|]. intros d [Ht|Hwd].
    - left. eapply same_ids_team; [exact Hidc|]. by apply Ht1.
    - right. eapply same_ids_web; [exact Hidc|]. done. }
  pose proof (load_users_drains key key w umore ufinal rest Hup None (store rc)
                (same_ids_this _ _ _ _ Hidc Hthis1) Hw2 Hall2) as Hu.
  cbv zeta in Hu.
  set (ru := load_users _ _ _ (store rc)) in *.
  set (uu := upsert_users _ (store rc)) in *.
  destruct Hu as (Hru & Huu & Hsu & Hidu & Heu & Hdu & Huc' & Hucc).
  destruct (same_ids_this _ _ _ _ Hidu (same_ids_this _ _ _ _ Hidc Hthis1))
    as (this3 & Hk3 & _).
  (* what the store holds at the end *)
  pose proof (retains_set_team (store ru) key this3 (Team_set_partial false this3)
                Hk3 (λ _ H, H) (λ _ H, H)) as Hend.
  assert (Hchans : ∀ d, d ∈ all_items cmore cfinal →
            holds_channel key (set_team_id key d)
              (Client_set_teams (<[key := Team_set_partial false this3]>
                                   (teams (store ru))) (store ru))).
  { intros d Hd. eapply holds_channel_retains; [exact Hend|].
    eapply (holds_channel_retains _ _ (store rc)).
    - rewrite Hsu. apply forEach_retains. intros y c'. apply addUser_retains.
    - rewrite Hsc. apply upsert_channels_holds; [done|by eauto|done]. }
  assert (Husers : ∀ d, d ∈ all_items umore ufinal →
            is_Some (teams c !! ud_team_id d) →
            holds_user d
              (Client_set_teams (<[key := Team_set_partial false this3]>
                                   (teams (store ru))) (store ru))).
  { intros d Hd Ht. eapply holds_user_retains; [exact Hend|].
    rewrite Hsu. apply upsert_users_holds; [exact Hall2|done|].
    eapply same_ids_team; [exact Hidc|]. by apply Ht1. }
  (* the run of [load] *)
  assert (Hr : load key
                 (Resolved (Some info)
                    :: (channels_page <$> cmore) ++ channels_page cfinal
                    :: (users_page <$> umore) ++ users_page ufinal :: rest) c =
               prepend (mkEffects [] [CallTeamInfo w0 (t_id this)] [] [])
                 (prepend (effects rc)
                    (prepend (effects ru)
                       (mkRun (Returned rest)
                              (Client_set_teams
                                 (<[key := Team_set_partial false this3]>
                                    (teams (store ru))) (store ru))
                              no_effects)))).
  { unfold load.
    rewrite (bind_run _ _ _ _ _ _ (getThis_run _ _ _ Hk)), prepend_nil.
    rewrite (bind_run _ _ _ _ _ _ (web_run _ _ _ Hw0)), prepend_nil.
    rewrite call_bind. f_equal. simpl. rewrite ret_bind.
    destruct info as [ok team chs mems next]. simpl in Hok, Hti. subst ok team.
    rewrite (bind_run getClient _ c c c no_effects) by done. rewrite prepend_nil.
    fold this'. rewrite (bind_run _ _ _ _ _ _ (setThis_run key this' c)), prepend_nil.
    fold c1. rewrite (bind_run _ _ _ _ _ _ (getThis_run _ _ _ Hk1)), prepend_nil.
    rewrite Hfake. fold rc.
    rewrite (bind_returned _ _ _ _ Hrc). f_equal. fold ru.
    rewrite (bind_returned _ _ _ _ Hru). f_equal.
    rewrite (bind_run _ _ _ _ _ _ (getThis_run _ _ _ Hk3)), prepend_nil.
    rewrite (bind_run _ _ _ _ _ _ (setThis_run _ _ _)), prepend_nil.
    done. }
  assert (Hu : load_at_once key this' (all_items cmore cfinal)
                            (all_items umore ufinal) c =
               prepend (effects uc)
                 (prepend (effects uu)
                    (mkRun (Returned tt)
                           (Client_set_teams
                              (<[key := Team_set_partial false this3]>
                                 (teams (store ru))) (store ru))
                           no_effects))).
  { unfold load_at_once.
    rewrite (bind_run _ _ _ _ _ _ (setThis_run key this' c)), prepend_nil.
    fold c1. rewrite Hid'. fold uc.
    rewrite (bind_returned _ _ _ _ Huc). f_equal.
    fold uc. rewrite <- Hsc. fold uu.
    rewrite (bind_returned _ _ _ _ Huu). f_equal.
    fold uu. rewrite <- Hsu.
    rewrite (bind_run _ _ _ _ _ _ (getThis_run _ _ _ Hk3)), prepend_nil.
    done. }
  rewrite Hr, Hu. unfold prepend. simpl. rewrite !app_nil_r.
  split_and!; try done.
  - unfold conversations_cursors in *. simpl. by rewrite !omap_app, Hcc, Hucc, app_nil_r.
  - unfold users_cursors in *. simpl. by rewrite !omap_app, Hcu, Huc'.
  - eexists. split; [apply lookup_insert_eq|done].
  - by rewrite Hec, Heu.
  - by rewrite Hdc, Hdu.
Qed.

End Properties.

(** * Further properties *)

Section MoreProperties.
Context {E : Entities} {K : Constructors}.
Implicit Types (c : Client) (team : Team) (data : ITeamData).

(** ** Reading a bind *)

Lemma bind_outcome_ne {A B} (m : M A) (k : A → M B) c :
  (∀ a, outcome (m c) ≠ Returned a) →
  outcome (bind m k c) = match outcome (m c) with
                         | Returned _ => Suspended
                         | Thrown err => Thrown err
                         | Suspended => Suspended
                         end
  ∧ store (bind m k c) = store (m c) ∧ effects (bind m k c) = effects (m c).
Proof.
  intros Hne. unfold bind. destruct (m c) as [[a| |] c1 e1]; simpl in *; try done.
  by destruct (Hne a).
Qed.

Lemma bind_cases {A B} (m : M A) (k : A → M B) c :
  (∃ a, outcome (m c) = Returned a ∧
        bind m k c = prepend (effects (m c)) (k a (store (m c))))
  ∨ ((∀ a, outcome (m c) ≠ Returned a) ∧
     store (bind m k c) = store (m c) ∧ effects (bind m k c) = effects (m c)).
Proof.
  destruct (outcome (m c)) as [a| |] eqn:Ho.
  - left. exists a. split; [done|]. by apply bind_returned.
  - right. split; [done|]. apply bind_outcome_ne. by rewrite Ho.
  - right. split; [done|]. apply bind_outcome_ne. by rewrite Ho.
Qed.

Lemma keeps_ret {A} (R : Client → Client → Prop) `{!Reflexive R} (a : A) :
  keeps R (ret a).
Proof. intros c. simpl. reflexivity. Qed.

Lemma keeps_bind {A B} (R : Client → Client → Prop) `{!Transitive R}
    (m : M A) (k : A → M B) :
  keeps R m → (∀ a, keeps R (k a)) → keeps R (bind m k).
Proof.
  intros Hm Hk c. destruct (bind_cases m k c) as [(a & _ & ->)|(_ & -> & _)].
  - simpl. etrans; [apply Hm|apply Hk].
  - apply Hm.
Qed.

Lemma keeps_forEach {A} (R : Client → Client → Prop) `{!Reflexive R} `{!Transitive R}
    (f : A → M unit) (xs : list A) :
  (∀ x, keeps R (f x)) → keeps R (forEach xs f).
Proof.
  intros Hf. induction xs as [|x xs IH]; simpl.
  - by apply keeps_ret.
  - apply keeps_bind; [done|apply Hf|done].
Qed.

Lemma keeps_when (R : Client → Client → Prop) `{!Reflexive R} b (m : M unit) :
  keeps R m → keeps R (when b m).
Proof. intros Hm. destruct b; [done|]. by apply keeps_ret. Qed.

Lemma preserves_of_keeps {A} (R : Client → Client → Prop) (P : Client → Prop)
    (m : M A) :
  (∀ c c', R c c' → P c → P c') → keeps R m → preserves P m.
Proof. intros HR Hm c Hc. eapply HR; [apply Hm|done]. Qed.

Lemma preserves_ret {A} (P : Client → Prop) (a : A) : preserves P (ret a).
Proof. by intros c. Qed.

Lemma preserves_bind {A B} (P : Client → Prop) (m : M A) (k : A → M B) :
  preserves P m → (∀ a, preserves P (k a)) → preserves P (bind m k).
Proof.
  intros Hm Hk c Hc. destruct (bind_cases m k c) as [(a & _ & ->)|(_ & -> & _)].
  - simpl. by apply Hk, Hm.
  - by apply Hm.
Qed.

Lemma silent_ret {A} (P : Client → Prop) (a : A) : silent P (ret a).
Proof. by intros c. Qed.

Lemma silent_bind {A B} (P : Client → Prop) (m : M A) (k : A → M B) :
  silent P m → (∀ a, silent P (k a)) → silent P (bind m k).
Proof.
  intros Hm Hk c Hc. destruct (Hm c Hc) as (He & Hd & HP).
  destruct (bind_cases m k c) as [(a & _ & ->)|(_ & -> & ->)]; [|done].
  destruct (Hk a _ HP) as (He' & Hd' & HP'). simpl. by rewrite He, Hd, He', Hd'.
Qed.

Lemma silent_forEach {A} (P : Client → Prop) (f : A → M unit) (xs : list A) :
  (∀ x, x ∈ xs → silent P (f x)) → silent P (forEach xs f).
Proof.
  induction xs as [|x xs IH]; intros Hf; simpl.
  - apply silent_ret.
  - apply silent_bind; [apply Hf; by left|]. intros _. apply IH.
    intros y Hy. apply Hf. by right.
Qed.

(** ** The registry only grows *)

#[local] Instance grows_refl : Reflexive grows.
Proof. intros c. by split_and!. Qed.

#[local] Instance grows_trans : Transitive grows.
Proof.
  intros c1 c2 c3 (?&?&?&?&?&H12) (?&?&?&?&?&H23).
  split_and!; [congruence..|]. intros k Hk. by apply H23, H12.
Qed.

Lemma grows_insert c k t : grows c (Client_set_teams (<[k := t]> (teams c)) c).
Proof.
  split_and!; [done..|]. intros k' Hk. simpl.
  destruct (decide (k = k')) as [->|Hne].
  - rewrite lookup_insert_eq. eauto.
  - by rewrite lookup_insert_ne.
Qed.

Lemma addTeam_grows data : keeps grows (addTeam data).
Proof.
  intros c. destruct (teams c !! td_id data) as [team|] eqn:Ht.
  - rewrite (addTeam_change _ _ _ Ht). apply grows_insert.
  - rewrite (addTeam_add _ _ Ht). apply grows_insert.
Qed.

Lemma addUser_grows (d : IUserData) b : keeps grows (addUser d b).
Proof.
  intros c. destruct (teams c !! ud_team_id d) as [team|] eqn:Ht.
  - destruct (map_get (t_users team) (user_key d)) as [user|] eqn:Hu.
    + destruct (user_key d) as [key|] eqn:Hk; [simpl in Hu|done].
      rewrite (addUser_change _ _ _ _ _ _ Ht Hk Hu). apply grows_insert.
    + rewrite (addUser_add _ _ _ _ Ht Hu). apply grows_insert.
  - destruct b.
    + destruct (webMap c !! ud_team_id d) as [w|] eqn:Hw.
      * by rewrite (addUser_fetch _ _ _ Ht Hw).
      * by rewrite (addUser_throw _ _ Ht Hw).
    + by rewrite (addUser_drop _ _ Ht).
Qed.

Lemma addChannel_grows (d : IChannelData) b : keeps grows (addChannel d b).
Proof.
  intros c. destruct (truthy (channel_teamId d)) eqn:Htr.
  2:{ by rewrite addChannel_no_team. }
  apply truthy_is_Some in Htr as (tid & Hid & Hne).
  destruct (teams c !! tid) as [team|] eqn:Ht.
  - destruct (t_channels team !! cd_id d) as [chan|] eqn:Hc.
    + rewrite (addChannel_change _ _ _ _ _ _ Hid Hne Ht Hc). apply grows_insert.
    + rewrite (addChannel_add _ _ _ _ _ Hid Hne Ht Hc). apply grows_insert.
  - destruct b.
    + destruct (webMap c !! tid) as [w|] eqn:Hw.
      * by rewrite (addChannel_fetch _ _ _ _ Hid Hne Ht Hw).
      * by rewrite (addChannel_throw _ _ _ Hid Hne Ht Hw).
    + by rewrite (addChannel_drop _ _ _ Hid Ht).
Qed.

Lemma run_task_grows t r : keeps grows (run_task t r).
Proof.
  destruct t as [d|d|ch]; [| |done].
  - destruct r as [[res|]|]; [|done..]. simpl.
    destruct (wr_team res); [|done].
    apply keeps_bind; [apply _|apply addTeam_grows|intros _; apply addUser_grows].
  - destruct r as [[res|]|]; [|done..]. simpl.
    destruct (wr_team res); [|done].
    apply keeps_bind; [apply _|apply addTeam_grows|intros _; apply addChannel_grows].
Qed.

Lemma handleMessageEvent_grows (d : MessageData) : keeps grows (handleMessageEvent d).
Proof.
  unfold handleMessageEvent.
  destruct (includes suppressed_subtypes (md_subtype d)); [done|].
  apply keeps_bind; [apply _| |intros _].
  { apply keeps_when; [apply _|apply addUser_grows]. }
  apply keeps_bind; [apply _| |intros ch].
  { unfold message_channelId. destruct (truthy (md_channel d)); [done|].
    by destruct (md_item d). }
  apply keeps_bind; [apply _|done|intros c'].
  by repeat case_bool_decide.
Qed.

Lemma getThis_keeps key : keeps grows (getThis key).
Proof. intros c. unfold getThis, bind, getClient. by destruct (teams c !! key). Qed.

Lemma web_keeps tid : keeps grows (web tid).
Proof. intros c. unfold web, bind, getClient. by destruct (webMap c !! tid). Qed.

Lemma await_keeps {A} (p : settled A) : keeps grows (await p).
Proof. by destruct p. Qed.

Lemma setThis_grows key t : keeps grows (setThis key t).
Proof. intros c. apply grows_insert. Qed.

Lemma load_channels_grows key cur script : keeps grows (load_channels key cur script).
Proof.
  revert cur. induction script as [|p script IH]; intros cur; simpl.
  - apply keeps_bind; [apply _|apply getThis_keeps|intros this].
    apply keeps_bind; [apply _|apply web_keeps|intros w].
    apply keeps_bind; [apply _|done|done].
  - apply keeps_bind; [apply _|apply getThis_keeps|intros this].
    apply keeps_bind; [apply _|apply web_keeps|intros w].
    apply keeps_bind; [apply _|done|intros _].
    apply keeps_bind; [apply _|apply await_keeps|intros [[[] ? [chs|] ? next]|]];
      try done.
    apply keeps_bind; [apply _| |intros _].
    + apply keeps_forEach; [apply _..|]. intros d.
      apply keeps_bind; [apply _|apply getThis_keeps|intros ?; apply addChannel_grows].
    + destruct (truthy next); [apply IH|done].
Qed.

Lemma load_users_grows key cur script : keeps grows (load_users key cur script).
Proof.
  revert cur. induction script as [|p script IH]; intros cur; simpl.
  - apply keeps_bind; [apply _|apply getThis_keeps|intros this].
    apply keeps_bind; [apply _|apply web_keeps|intros w].
    apply keeps_bind; [apply _|done|done].
  - apply keeps_bind; [apply _|apply getThis_keeps|intros this].
    apply keeps_bind; [apply _|apply web_keeps|intros w].
    apply keeps_bind; [apply _|done|intros _].
    apply keeps_bind; [apply _|apply await_keeps|intros [[[] ? ? [ms|] next]|]];
      try done.
    apply keeps_bind; [apply _| |intros _].
    + apply keeps_forEach; [apply _..|]. intros d. apply addUser_grows.
    + destruct (truthy next); [apply IH|done].
Qed.

Lemma load_grows key script : keeps grows (load key script).
Proof.
  unfold load.
  apply keeps_bind; [apply _|apply getThis_keeps|intros this].
  apply keeps_bind; [apply _|apply web_keeps|intros w].
  apply keeps_bind; [apply _|done|intros _].
  destruct script as [|p script]; [done|].
  apply keeps_bind; [apply _|apply await_keeps|intros [[[] [ti|] ? ? ?]|]]; try done.
  apply keeps_bind; [apply _|done|intros c'].
  apply keeps_bind; [apply _|apply setThis_grows|intros _].
  apply keeps_bind; [apply _|apply getThis_keeps|intros this'].
  destruct (truthy (t_fakeId this')).
  - apply keeps_bind; [apply _|apply setThis_grows|done].
  - apply keeps_bind; [apply _|apply load_channels_grows|intros s1].
    apply keeps_bind; [apply _|apply load_users_grows|intros s2].
    apply keeps_bind; [apply _|apply getThis_keeps|intros this''].
    apply keeps_bind; [apply _|apply setThis_grows|done].
Qed.

Lemma joinAllChannels_grows key script joined :
  keeps grows (joinAllChannels key script joined).
Proof.
  unfold joinAllChannels.
  apply keeps_bind; [apply _|apply getThis_keeps|intros this].
  apply keeps_bind; [apply _| |intros _].
  { destruct (t_partial this); [|done].
    apply keeps_bind; [apply _|apply load_grows|done]. }
  apply keeps_bind; [apply _|apply getThis_keeps|intros this'].
  apply keeps_forEach; [apply _..|]. intros kv.
  apply keeps_bind; [apply _|done|intros _; apply await_keeps].
Qed.

(** X1.  The upserts, the continuations of their promises, the message
    handler, [Team.load] and [Team.joinAllChannels] change nothing of the
    client but the team registry, and no team ever leaves the registry
    through them, however they end. *)
Theorem registry_only_grows :
  (∀ data, keeps grows (addTeam data))
  ∧ (∀ (d : IUserData) b, keeps grows (addUser d b))
  ∧ (∀ (d : IChannelData) b, keeps grows (addChannel d b))
  ∧ (∀ t r, keeps grows (run_task t r))
  ∧ (∀ d : MessageData, keeps grows (handleMessageEvent d))
  ∧ (∀ key script, keeps grows (load key script))
  ∧ (∀ key script joined, keeps grows (joinAllChannels key script joined)).
Proof.
  split_and!.
  - apply addTeam_grows.
  - apply addUser_grows.
  - apply addChannel_grows.
  - apply run_task_grows.
  - apply handleMessageEvent_grows.
  - apply load_grows.
  - apply joinAllChannels_grows.
Qed.

(** ** Invariants of the registry *)

Lemma keys_insert c k t :
  keys_are_ids c → t_id t = k →
  keys_are_ids (Client_set_teams (<[k := t]> (teams c)) c).
Proof.
  intros Hc Hid k' t'. simpl. destruct (decide (k = k')) as [->|Hne].
  - rewrite lookup_insert_eq. by intros [= <-].
  - rewrite lookup_insert_ne by done. apply Hc.
Qed.

Lemma addTeam_keys data : preserves keys_are_ids (addTeam data).
Proof.
  intros c Hc. destruct (teams c !! td_id data) as [team|] eqn:Ht.
  - rewrite (addTeam_change _ _ _ Ht). apply keys_insert; [done|apply Team_patch_id].
  - rewrite (addTeam_add _ _ Ht). apply keys_insert; [done|apply Team_new_id].
Qed.

Lemma addUser_keys (d : IUserData) b : preserves keys_are_ids (addUser d b).
Proof.
  intros c Hc. destruct (teams c !! ud_team_id d) as [team|] eqn:Ht.
  - destruct (map_get (t_users team) (user_key d)) as [user|] eqn:Hu.
    + destruct (user_key d) as [key|] eqn:Hk; [simpl in Hu|done].
      rewrite (addUser_change _ _ _ _ _ _ Ht Hk Hu).
      apply keys_insert; [done|]. simpl. by apply Hc.
    + rewrite (addUser_add _ _ _ _ Ht Hu).
      apply keys_insert; [done|]. simpl. by apply Hc.
  - destruct b.
    + destruct (webMap c !! ud_team_id d) as [w|] eqn:Hw.
      * by rewrite (addUser_fetch _ _ _ Ht Hw).
      * by rewrite (addUser_throw _ _ Ht Hw).
    + by rewrite (addUser_drop _ _ Ht).
Qed.

Lemma addChannel_keys (d : IChannelData) b : preserves keys_are_ids (addChannel d b).
Proof.
  intros c Hc. destruct (truthy (channel_teamId d)) eqn:Htr.
  2:{ by rewrite addChannel_no_team. }
  apply truthy_is_Some in Htr as (tid & Hid & Hne).
  destruct (teams c !! tid) as [team|] eqn:Ht.
  - destruct (t_channels team !! cd_id d) as [chan|] eqn:Hch.
    + rewrite (addChannel_change _ _ _ _ _ _ Hid Hne Ht Hch).
      apply keys_insert; [done|]. simpl. by apply Hc.
    + rewrite (addChannel_add _ _ _ _ _ Hid Hne Ht Hch).
      apply keys_insert; [done|]. simpl. by apply Hc.
  - destruct b.
    + destruct (webMap c !! tid) as [w|] eqn:Hw.
      * by rewrite (addChannel_fetch _ _ _ _ Hid Hne Ht Hw).
      * by rewrite (addChannel_throw _ _ _ Hid Hne Ht Hw).
    + by rewrite (addChannel_drop _ _ _ Hid Ht).
Qed.

Lemma run_task_keys t r : preserves keys_are_ids (run_task t r).
Proof.
  destruct t as [d|d|ch]; [| |by intros c].
  - destruct r as [[res|]|]; [|by intros c..]. simpl.
    destruct (wr_team res); [|by intros c].
    apply preserves_bind; [apply addTeam_keys|intros _; apply addUser_keys].
  - destruct r as [[res|]|]; [|by intros c..]. simpl.
    destruct (wr_team res); [|by intros c].
    apply preserves_bind; [apply addTeam_keys|intros _; apply addChannel_keys].
Qed.

Lemma handleMessageEvent_keys (d : MessageData) :
  preserves keys_are_ids (handleMessageEvent d).
Proof.
  unfold handleMessageEvent.
  destruct (includes suppressed_subtypes (md_subtype d)); [by intros c|].
  apply preserves_bind; [|intros _].
  { unfold when. destruct (truthy (md_bot_id d)); [apply addUser_keys|by intros c]. }
  apply preserves_bind; [|intros ch].
  { unfold message_channelId. destruct (truthy (md_channel d)); [by intros c|].
    by destruct (md_item d); intros c. }
  apply preserves_bind; [by intros c|intros c'].
  by repeat case_bool_decide; intros c.
Qed.

Lemma on_app_uninstalled_foreign appId api teamId torn_down c :
  api ≠ Some appId →
  on_app_uninstalled appId api teamId torn_down c = mkRun (Returned tt) c no_effects.
Proof. intros Hne. unfold on_app_uninstalled. by rewrite bool_decide_eq_false_2. Qed.

Lemma on_app_uninstalled_run appId teamId torn_down c :
  on_app_uninstalled appId (Some appId) teamId torn_down c =
    match rtmMap c !! teamId, torn_down with
    | Some r, Rejected =>
        mkRun (Thrown "rejected") c (mkEffects [] [CallRtmDisconnect r] [] [])
    | Some r, Resolved _ =>
        mkRun (Returned tt) (uninstalled teamId c)
              (mkEffects [] [CallRtmDisconnect r] [] [])
    | None, _ => mkRun (Returned tt) (uninstalled teamId c) no_effects
    end.
Proof.
  unfold on_app_uninstalled. rewrite bool_decide_eq_true_2 by done. simpl.
  rewrite (bind_run getClient _ c c c no_effects) by done. rewrite prepend_nil.
  destruct (rtmMap c !! teamId) as [r|]; [destruct torn_down as [[]|]|]; done.
Qed.

Lemma on_app_uninstalled_store appId api teamId torn_down c :
  store (on_app_uninstalled appId api teamId torn_down c) = c
  ∨ store (on_app_uninstalled appId api teamId torn_down c) = uninstalled teamId c.
Proof.
  destruct (decide (api = Some appId)) as [->|Hne].
  - rewrite on_app_uninstalled_run.
    destruct (rtmMap c !! teamId) as [r|]; [destruct torn_down as [[]|]|];
      (by left) || (by right).
  - left. by rewrite on_app_uninstalled_foreign.
Qed.

(** X2.  Every team is stored under its own id, and stays so: the upserts,
    the continuations of their promises, the message handler, the
    listeners that upsert and [app_uninstalled] keep that invariant. *)
Theorem teams_stored_under_their_id :
  (∀ data, preserves keys_are_ids (addTeam data))
  ∧ (∀ (d : IUserData) b, preserves keys_are_ids (addUser d b))
  ∧ (∀ (d : IChannelData) b, preserves keys_are_ids (addChannel d b))
  ∧ (∀ t r, preserves keys_are_ids (run_task t r))
  ∧ (∀ d : MessageData, preserves keys_are_ids (handleMessageEvent d))
  ∧ (∀ teamId name, preserves keys_are_ids (rtm_on_team_rename teamId name))
  ∧ (∀ appId api teamId torn_down,
       preserves keys_are_ids (on_app_uninstalled appId api teamId torn_down)).
Proof.
  split_and!.
  - apply addTeam_keys.
  - apply addUser_keys.
  - apply addChannel_keys.
  - apply run_task_keys.
  - apply handleMessageEvent_keys.
  - intros teamId name. apply addTeam_keys.
  - intros appId api teamId torn_down c Hc.
    destruct (on_app_uninstalled_store appId api teamId torn_down c) as [-> | ->];
      [done|].
    intros k t. simpl. intros Hk. apply lookup_delete_Some in Hk as [_ Hk]. by apply Hc.
Qed.

Lemma clients_have_teams_grows c c' :
  grows c c' → clients_have_teams c → clients_have_teams c'.
Proof.
  intros (_ & Hw & _ & _ & _ & Ht) Hc k Hk. apply Ht, Hc. by rewrite <- Hw.
Qed.

(** The [authenticated] listener, from the store with the session
    registered on. *)
Lemma on_authenticated_run r w token (team : ITeamData) self_id self_profile script
    stored c :
  on_authenticated r w token team self_id self_profile script stored c =
    (authenticated_body team (mkUserData (Some self_id) None (td_id team) self_profile)
                        script stored ;;
     leave_startup (td_id team))
      (registered r w token (td_id team) c).
Proof.
  unfold on_authenticated, authenticated_body, leave_startup.
  rewrite (bind_run getClient _ c c c no_effects) by done. rewrite prepend_nil.
  rewrite (bind_run (putClient _) _ c tt (registered r w token (td_id team) c)
             no_effects) by done.
  rewrite prepend_nil. symmetry.
  rewrite bind_assoc. apply bind_ext. intros _ c1.
  rewrite bind_assoc. apply bind_ext. intros _ c2.
  rewrite !bind_assoc. apply bind_ext. by intros c3 c4.
Qed.

Lemma authenticated_body_grows (team : ITeamData) (self : IUserData) script stored :
  keeps grows (authenticated_body team self script stored).
Proof.
  unfold authenticated_body.
  apply keeps_bind; [apply _|apply addTeam_grows|intros _].
  apply keeps_bind; [apply _|apply addUser_grows|intros _].
  apply keeps_bind; [apply _| |intros _].
  - apply keeps_bind; [apply _|done|intros c'].
    destruct (teams c' !! td_id team) as [t|]; [|done].
    destruct (t_partial t); [|done].
    apply keeps_bind; [apply _|apply load_grows|done].
  - destruct stored as [s|]; [apply await_keeps|done].
Qed.

Lemma addTeam_known data c : is_Some (teams (store (addTeam data c)) !! td_id data).
Proof.
  destruct (teams c !! td_id data) as [team|] eqn:Ht.
  - rewrite (addTeam_change _ _ _ Ht). simpl. rewrite lookup_insert_eq. eauto.
  - rewrite (addTeam_add _ _ Ht). simpl. rewrite lookup_insert_eq. eauto.
Qed.

Lemma bind_post {A B} (Q : Client → Prop) (m : M A) (k : A → M B) c :
  Q (store (m c)) → (∀ a, preserves Q (k a)) → Q (store (bind m k c)).
Proof.
  intros Hm Hk. destruct (bind_cases m k c) as [(a & _ & ->)|(_ & -> & _)]; [|done].
  simpl. by apply Hk.
Qed.

Lemma preserves_known {A} tid (m : M A) :
  keeps grows m → preserves (λ c, is_Some (teams c !! tid)) m.
Proof. intros Hm c Hc. destruct (Hm c) as (_ & _ & _ & _ & _ & Hdom). by apply Hdom. Qed.

Lemma authenticated_body_known (team : ITeamData) (self : IUserData) script stored c :
  is_Some (teams (store (authenticated_body team self script stored c)) !! td_id team).
Proof.
  unfold authenticated_body. apply bind_post; [apply addTeam_known|]. intros _.
  apply preserves_known.
  apply keeps_bind; [apply _|apply addUser_grows|intros _].
  apply keeps_bind; [apply _| |intros _].
  - apply keeps_bind; [apply _|done|intros c'].
    destruct (teams c' !! td_id team) as [t|]; [|done].
    destruct (t_partial t); [|done].
    apply keeps_bind; [apply _|apply load_grows|done].
  - destruct stored as [s|]; [apply await_keeps|done].
Qed.

(** An operation followed by [startup.delete]. *)
Lemma then_leave_startup (body : M unit) teamId c :
  let run := (body ;; leave_startup teamId) c in
  let c1 := store (body c) in
  effects run = effects (body c)
  ∧ ((outcome (body c) = Returned tt ∧ outcome run = Returned tt ∧
      store run = mkClient (tokens c1) (teams c1) (webMap c1) (rtmMap c1)
                           (events c1) (startup c1 ∖ {[teamId]}))
     ∨ (outcome (body c) ≠ Returned tt ∧ outcome run ≠ Returned tt ∧ store run = c1)).
Proof.
  simpl. destruct (body c) as [[[]| |] c1 e1] eqn:Hb; unfold bind; rewrite Hb; simpl.
  - rewrite !eff_app_nil_r. split; [done|]. by left.
  - split; [done|]. by right.
  - split; [done|]. by right.
Qed.

(** X3.  The [authenticated] listener, however it ends, leaves the
    credential, the request client and the session registered under the id
    of the team, and the team in the registry.  The id of the team is still
    in the startup set afterwards exactly when the listener has not run to
    its end: when [load] or [storeToken] has thrown or has not settled. *)
Theorem authenticated_registers_team r w token (team : ITeamData) self_id self_profile
    script stored c :
  let run := on_authenticated r w token team self_id self_profile script stored c in
  tokens (store run) !! td_id team = Some token
  ∧ webMap (store run) !! td_id team = Some w
  ∧ rtmMap (store run) !! td_id team = Some r
  ∧ is_Some (teams (store run) !! td_id team)
  ∧ (td_id team ∈ startup (store run) ↔ outcome run ≠ Returned tt).
Proof.
  simpl. rewrite on_authenticated_run.
  set (c0 := registered r w token (td_id team) c).
  set (self := mkUserData (Some self_id) None (td_id team) self_profile).
  destruct (authenticated_body_grows team self script stored c0)
    as (Htok & Hweb & Hrtm & _ & Hst & _).
  pose proof (authenticated_body_known team self script stored c0) as Hk.
  destruct (then_leave_startup (authenticated_body team self script stored)
              (td_id team) c0) as (_ & [(_ & Ho & Hs)|(_ & Ho & Hs)]);
    rewrite Hs; simpl; rewrite ?Htok, ?Hweb, ?Hrtm, ?Hst.
  - split_and!; try done; try (subst c0; simpl; by rewrite lookup_insert_eq).
    rewrite Ho. split; [|done].
    intros [_ Hn]%elem_of_difference. destruct Hn. by apply elem_of_singleton.
  - split_and!; try done; try (subst c0; simpl; by rewrite lookup_insert_eq).
    split; [done|]. intros _. subst c0. simpl.
    by apply elem_of_union_l, elem_of_singleton.
Qed.

(** X4.  There is a team in the registry for every request client, and that
    stays so: the upserts, the continuations of their promises, the message
    handler, [Team.load], and the listeners on [authenticated] and
    [app_uninstalled] keep that invariant. *)
Theorem request_clients_have_teams :
  (∀ data, preserves clients_have_teams (addTeam data))
  ∧ (∀ (d : IUserData) b, preserves clients_have_teams (addUser d b))
  ∧ (∀ (d : IChannelData) b, preserves clients_have_teams (addChannel d b))
  ∧ (∀ t r, preserves clients_have_teams (run_task t r))
  ∧ (∀ d : MessageData, preserves clients_have_teams (handleMessageEvent d))
  ∧ (∀ key script, preserves clients_have_teams (load key script))
  ∧ (∀ r w token (team : ITeamData) self_id self_profile script stored,
       preserves clients_have_teams
         (on_authenticated r w token team self_id self_profile script stored))
  ∧ (∀ appId api teamId torn_down,
       preserves clients_have_teams (on_app_uninstalled appId api teamId torn_down)).
Proof.
  split_and!.
  - intros data. eapply preserves_of_keeps; [apply clients_have_teams_grows|].
    apply addTeam_grows.
  - intros d b. eapply preserves_of_keeps; [apply clients_have_teams_grows|].
    apply addUser_grows.
  - intros d b. eapply preserves_of_keeps; [apply clients_have_teams_grows|].
    apply addChannel_grows.
  - intros t r. eapply preserves_of_keeps; [apply clients_have_teams_grows|].
    apply run_task_grows.
  - intros d. eapply preserves_of_keeps; [apply clients_have_teams_grows|].
    apply handleMessageEvent_grows.
  - intros key script. eapply preserves_of_keeps; [apply clients_have_teams_grows|].
    apply load_grows.
  - intros r w token team self_id self_profile script stored c Hc.
    rewrite on_authenticated_run.
    set (c0 := registered r w token (td_id team) c).
    set (self := mkUserData (Some self_id) None (td_id team) self_profile).
    destruct (authenticated_body_grows team self script stored c0)
      as (_ & Hweb & _ & _ & _ & Hdom).
    pose proof (authenticated_body_known team self script stored c0) as Hk.
    assert (Hc1 : clients_have_teams
                    (store (authenticated_body team self script stored c0))).
    { intros k. rewrite Hweb. subst c0. simpl.
      destruct (decide (td_id team = k)) as [<-|Hne]; [done|].
      rewrite lookup_insert_ne by done. intros Hw. apply Hdom. simpl. by apply Hc. }
    destruct (then_leave_startup (authenticated_body team self script stored)
                (td_id team) c0) as (_ & [(_ & _ & ->)|(_ & _ & ->)]); done.
  - intros appId api teamId torn_down c Hc.
    destruct (on_app_uninstalled_store appId api teamId torn_down c) as [-> | ->];
      [done|].
    intros k. simpl. intros [w Hw]. apply lookup_delete_Some in Hw as [Hne Hw].
    rewrite lookup_delete_ne by done. apply Hc. eauto.
Qed.

(** X5.  In a store where every request client has its team, an upsert that
    names a team the store does not hold, with [createTeam] set, never
    fetches the team: it throws "Team not found", changes nothing and sends
    nothing. *)
Theorem unknown_team_never_fetched c :
  clients_have_teams c →
  (∀ d : IUserData, teams c !! ud_team_id d = None →
     addUser d true c = mkRun (Thrown "Team not found") c no_effects)
  ∧ (∀ (d : IChannelData) tid,
       channel_teamId d = Some tid → tid ≠ "" → teams c !! tid = None →
       addChannel d true c = mkRun (Thrown "Team not found") c no_effects).
Proof.
  intros Hc. split.
  - intros d Ht. apply addUser_throw; [done|].
    destruct (webMap c !! ud_team_id d) eqn:Hw; [|done].
    destruct (Hc (ud_team_id d)) as [t Ht']; [eauto|congruence].
  - intros d tid Hid Hne Ht. apply (addChannel_throw _ _ tid); try done.
    destruct (webMap c !! tid) eqn:Hw; [|done].
    destruct (Hc tid) as [t Ht']; [eauto|congruence].
Qed.

(** ** Populating a team that is starting up *)

Lemma silent_to_bind {A B} (P : Client → Prop) (Q : A → Prop) (Q' : B → Prop)
    (m : M A) (k : A → M B) :
  silent_to P Q m → (∀ a, Q a → silent_to P Q' (k a)) → silent_to P Q' (bind m k).
Proof.
  intros Hm Hk c Hc. destruct (Hm c Hc) as (He & Hd & HP & HQ).
  destruct (bind_cases m k c) as [(a & Ho & Hrun)|(Hne & Hs & Hef)].
  - destruct (Hk a (HQ a Ho) _ HP) as (He' & Hd' & HP' & HQ').
    rewrite Hrun. simpl. by rewrite He, Hd, He', Hd'.
  - rewrite Hs, Hef. split_and!; try done. intros b Hb.
    destruct (bind_outcome_ne m k c Hne) as (Ho & _). rewrite Ho in Hb.
    by destruct (outcome (m c)).
Qed.

Lemma silent_to_weaken {A} (P : Client → Prop) (Q Q' : A → Prop) (m : M A) :
  (∀ a, Q a → Q' a) → silent_to P Q m → silent_to P Q' m.
Proof.
  intros HQ Hm c Hc. destruct (Hm c Hc) as (He & Hd & HP & Ha).
  split_and!; try done. intros a Ho. by apply HQ, Ha.
Qed.

Lemma silent_to_silent {A} (P : Client → Prop) (m : M A) :
  silent P m → silent_to P (λ _, True) m.
Proof. intros Hm c Hc. destruct (Hm c Hc) as (He & Hd & HP). by split_and!. Qed.

Lemma silent_of_to {A} (P : Client → Prop) (Q : A → Prop) (m : M A) :
  silent_to P Q m → silent P m.
Proof. intros Hm c Hc. destruct (Hm c Hc) as (He & Hd & HP & _). by split_and!. Qed.

Lemma silent_to_ret {A} (P : Client → Prop) (Q : A → Prop) (a : A) :
  Q a → silent_to P Q (ret a).
Proof. intros Ha c Hc. split_and!; try done. by intros a' [= <-]. Qed.

Lemma starting_up_transfer tid c c' :
  grows c c' → same_ids c c' → starting_up tid c → starting_up tid c'.
Proof.
  intros (_ & _ & _ & _ & Hst & _) Hs [Hin Ht]. split; [by rewrite Hst|].
  by eapply same_ids_this.
Qed.

Lemma starting_up_insert tid c t :
  t_id t = tid → starting_up tid c →
  starting_up tid (Client_set_teams (<[tid := t]> (teams c)) c).
Proof. intros Hid [Hin _]. split; [done|]. exists t. simpl. by rewrite lookup_insert_eq. Qed.

Lemma addChannel_starting_up tid (d : IChannelData) :
  tid ≠ "" → silent (starting_up tid) (addChannel (set_team_id tid d) true).
Proof.
  intros Hne c HP. pose proof HP as [Hin (t & Ht & Hid)].
  destruct (addChannel_silent c (set_team_id tid d) true tid t
              (channel_teamId_set _ _ Hne) Hne Ht) as (_ & He & _);
    [by rewrite Hid|].
  rewrite He. split_and!; try done.
  eapply starting_up_transfer; [apply addChannel_grows|apply addChannel_frame|done].
Qed.

Lemma addUser_starting_up tid (d : IUserData) b :
  ud_team_id d = tid → silent (starting_up tid) (addUser d b).
Proof.
  intros Hd c HP. pose proof HP as [Hin (t & Ht & Hid)].
  destruct (addUser_silent c d b t) as (_ & He & Hdef & _);
    [by rewrite Hd|by rewrite Hid|].
  split_and!; try done.
  eapply starting_up_transfer; [apply addUser_grows|apply addUser_frame|done].
Qed.

Lemma getThis_starting_up tid :
  silent_to (starting_up tid) (λ this, t_id this = tid) (getThis tid).
Proof.
  intros c HP. pose proof HP as [Hin (t & Ht & Hid)].
  rewrite (getThis_run _ _ _ Ht). split_and!; try done. by intros a [= <-].
Qed.

Lemma web_silent (P : Client → Prop) tid : silent P (web tid).
Proof. intros c HP. unfold web, bind, getClient. by destruct (webMap c !! tid). Qed.

Lemma await_silent {A} (P : Client → Prop) (p : settled A) : silent P (await p).
Proof. intros c HP. by destruct p. Qed.

Lemma call_silent (P : Client → Prop) x : silent P (call x).
Proof. by intros c HP. Qed.

Lemma setThis_starting_up tid t :
  t_id t = tid → silent (starting_up tid) (setThis tid t).
Proof. intros Hid c HP. split_and!; try done. by apply starting_up_insert. Qed.

Lemma about_team_tail tid p script : about_team tid (p :: script) → about_team tid script.
Proof. unfold about_team. by intros [_ H]%Forall_cons. Qed.

Lemma load_channels_starting_up tid cur script :
  tid ≠ "" → about_team tid script →
  silent_to (starting_up tid) (about_team tid) (load_channels tid cur script).
Proof.
  intros Hne. revert cur. induction script as [|p script IH]; intros cur Hab; simpl.
  - eapply silent_to_bind; [apply getThis_starting_up|intros this Hid].
    eapply silent_to_bind; [apply silent_to_silent, web_silent|intros w _].
    eapply silent_to_bind; [apply silent_to_silent, call_silent|intros _ _].
    intros c HP. by split_and!.
  - pose proof (about_team_tail _ _ _ Hab) as Hab'.
    eapply silent_to_bind; [apply getThis_starting_up|intros this Hid].
    eapply silent_to_bind; [apply silent_to_silent, web_silent|intros w _].
    eapply silent_to_bind; [apply silent_to_silent, call_silent|intros _ _].
    eapply silent_to_bind; [apply silent_to_silent, await_silent|].
    intros [[[] ? [chs|] ? next]|] _; try (intros c HP; by split_and!).
    eapply silent_to_bind.
    + apply silent_to_silent, silent_forEach. intros d _.
      eapply silent_of_to, silent_to_bind; [apply getThis_starting_up|].
      intros this' ->. apply silent_to_silent. by apply addChannel_starting_up.
    + intros _ _. destruct (truthy next); [by apply IH|by apply silent_to_ret].
Qed.

Lemma load_users_starting_up tid cur script :
  about_team tid script →
  silent_to (starting_up tid) (about_team tid) (load_users tid cur script).
Proof.
  revert cur. induction script as [|p script IH]; intros cur Hab; simpl.
  - eapply silent_to_bind; [apply getThis_starting_up|intros this Hid].
    eapply silent_to_bind; [apply silent_to_silent, web_silent|intros w _].
    eapply silent_to_bind; [apply silent_to_silent, call_silent|intros _ _].
    intros c HP. by split_and!.
  - pose proof (about_team_tail _ _ _ Hab) as Hab'.
    apply Forall_cons in Hab as [Hp _].
    eapply silent_to_bind; [apply getThis_starting_up|intros this Hid].
    eapply silent_to_bind; [apply silent_to_silent, web_silent|intros w _].
    eapply silent_to_bind; [apply silent_to_silent, call_silent|intros _ _].
    destruct p as [[res|]|]; [| |intros c HP; by split_and!].
    2:{ simpl. eapply silent_to_bind;
          [apply (silent_to_ret _ (λ a, a = None)); done|].
        intros ? ->. intros c HP. by split_and!. }
    simpl. eapply silent_to_bind; [apply (silent_to_ret _ (λ a, a = Some res)); done|].
    intros ? ->. destruct (Hp res eq_refl) as [_ Hms].
    destruct res as [[] ? ? [ms|] next]; try (intros c HP; by split_and!).
    eapply silent_to_bind.
    + apply silent_to_silent, silent_forEach. intros d Hd.
      apply addUser_starting_up.
      specialize (Hms ms eq_refl). by eapply Forall_forall in Hms.
    + intros _ _. destruct (truthy next); [by apply IH|by apply silent_to_ret].
Qed.

Lemma load_starting_up tid script :
  tid ≠ "" → about_team tid script → silent (starting_up tid) (load tid script).
Proof.
  intros Hne Hab. eapply silent_of_to. unfold load.
  eapply silent_to_bind; [apply getThis_starting_up|intros this Hid].
  eapply silent_to_bind; [apply silent_to_silent, web_silent|intros w _].
  eapply silent_to_bind; [apply silent_to_silent, call_silent|intros _ _].
  destruct script as [|p script]; [intros c HP; by split_and!|].
  pose proof (about_team_tail _ _ _ Hab) as Hab'.
  apply Forall_cons in Hab as [Hp _].
  destruct p as [[res|]|]; [| |intros c HP; by split_and!].
  2:{ simpl. eapply silent_to_bind;
        [apply (silent_to_ret _ (λ a, a = None)); done|].
      intros ? ->. intros c HP. by split_and!. }
  simpl. eapply silent_to_bind; [apply (silent_to_ret _ (λ a, a = Some res)); done|].
  intros ? ->. destruct (Hp res eq_refl) as [Hti _].
  destruct res as [[] [ti|] ? ? ?]; try (intros c HP; by split_and!).
  specialize (Hti ti eq_refl).
  eapply (silent_to_bind _ (λ _, True)); [intros c HP; by split_and!|intros c' _].
  eapply silent_to_bind.
  { apply silent_to_silent, setThis_starting_up. by rewrite Team_patch_id. }
  intros _ _.
  eapply silent_to_bind; [apply getThis_starting_up|intros this' Hid'].
  destruct (truthy (t_fakeId this')).
  - eapply silent_to_bind; [by apply silent_to_silent, setThis_starting_up|].
    intros _ _. by apply (silent_to_ret _ (λ _, True)).
  - eapply silent_to_bind; [by apply load_channels_starting_up|intros s1 Hs1].
    eapply silent_to_bind; [by apply load_users_starting_up|intros s2 Hs2].
    eapply silent_to_bind; [apply getThis_starting_up|intros this'' Hid''].
    eapply silent_to_bind; [by apply silent_to_silent, setThis_starting_up|].
    intros _ _. by apply (silent_to_ret _ (λ _, True)).
Qed.

(** X6.  [Team.load] of a team that is starting up and is stored under its
    id emits no event and attaches no continuation to a promise it leaves
    floating (no retry after a [team.info] of its own, no [addChannel] event
    after a join), wherever it stops: it returns, throws or waits with the
    team still starting up.  The
    requests it sends are not restricted: [addUser] still leaves its
    [subscribePresence] request un-awaited, without a continuation.  The
    answers it gets are about that team: the team they carry has its id and
    the members they list are its members. *)
Theorem load_is_silent_in_startup tid script c :
  tid ≠ "" → about_team tid script → starting_up tid c →
  let r := load tid script c in
  emitted (effects r) = [] ∧ deferred (effects r) = [] ∧ starting_up tid (store r).
Proof. intros Hne Hab HP. by apply load_starting_up. Qed.

Lemma authenticated_body_silent (team : ITeamData) (self : IUserData) script stored c :
  td_id team ≠ "" → about_team (td_id team) script →
  ud_team_id self = td_id team → td_id team ∈ startup c →
  emitted (effects (authenticated_body team self script stored c)) = []
  ∧ deferred (effects (authenticated_body team self script stored c)) = [].
Proof.
  intros Hne Hab Hself Hin. unfold authenticated_body.
  destruct (addTeam_silent c team Hin) as (t' & Hrun & Hid & _).
  rewrite (bind_run _ _ _ _ _ _ Hrun), prepend_nil.
  set (c1 := Client_set_teams _ c).
  assert (HP : starting_up (td_id team) c1).
  { split; [done|]. exists t'. split; [apply lookup_insert_eq|done]. }
  assert (Hs : silent (starting_up (td_id team))
                 (addUser self true ;;
                  (let* c := getClient in
                   match teams c !! td_id team with
                   | Some clientTeam =>
                       if t_partial clientTeam then load (td_id team) script ;; ret tt
                       else ret tt
                   | None => ret tt
                   end) ;;
                  match stored with
                  | Some s => await s
                  | None => ret tt
                  end)).
  { apply silent_bind; [by apply addUser_starting_up|intros _].
    apply silent_bind; [|intros _].
    - apply silent_bind; [by intros c'|intros c'].
      destruct (teams c' !! td_id team) as [t|]; [|apply silent_ret].
      destruct (t_partial t); [|apply silent_ret].
      apply silent_bind; [by apply load_starting_up|intros ?; apply silent_ret].
    - destruct stored as [s|]; [apply await_silent|apply silent_ret]. }
  destruct (Hs c1 HP) as (He & Hd & _). done.
Qed.

(** X7.  The [authenticated] listener populates the team without a sound:
    whatever the answers to [load] are, as long as they are about that
    team, it emits no event and attaches no continuation to a promise it
    leaves floating.  The
    requests it sends are not restricted: the [subscribePresence] requests
    of [addUser] are sent and left un-awaited, without a continuation. *)
Theorem authenticated_is_silent r w token (team : ITeamData) self_id self_profile
    script stored c :
  td_id team ≠ "" → about_team (td_id team) script →
  let run := on_authenticated r w token team self_id self_profile script stored c in
  emitted (effects run) = [] ∧ deferred (effects run) = [].
Proof.
  intros Hne Hab. simpl. rewrite on_authenticated_run.
  set (c0 := registered r w token (td_id team) c).
  set (self := mkUserData (Some self_id) None (td_id team) self_profile).
  destruct (then_leave_startup (authenticated_body team self script stored)
              (td_id team) c0) as (-> & _).
  apply authenticated_body_silent; try done. subst c0. simpl.
  by apply elem_of_union_l, elem_of_singleton.
Qed.

(** ** Upsert and lookup *)

(** X8.  After [addTeam], [getTeam] finds a team under the id of the
    payload, with that id and with the users and channels the team had
    before (none for a new team); every other team is as it was. *)
Theorem addTeam_then_getTeam c data :
  let c' := store (addTeam data c) in
  (∃ t, getTeam (td_id data) c' = Some t ∧ t_id t = td_id data ∧
        t_users t = from_option t_users ∅ (getTeam (td_id data) c) ∧
        t_channels t = from_option t_channels ∅ (getTeam (td_id data) c))
  ∧ ∀ k, k ≠ td_id data → getTeam k c' = getTeam k c.
Proof.
  simpl. unfold getTeam. destruct (teams c !! td_id data) as [team|] eqn:Ht.
  - rewrite (addTeam_change _ _ _ Ht). simpl. split.
    + eexists. rewrite lookup_insert_eq. split; [done|].
      by rewrite Team_patch_id, Team_patch_users, Team_patch_channels.
    + intros k Hk. by rewrite lookup_insert_ne.
  - rewrite (addTeam_add _ _ Ht). simpl. split.
    + eexists. rewrite lookup_insert_eq. split; [done|].
      unfold Team_new. by rewrite Team_patch_id, Team_patch_users, Team_patch_channels.
    + intros k Hk. by rewrite lookup_insert_ne.
Qed.

(** X9.  After [addUser] into a team of the store, [getUser] finds the user:
    the patched one under the id it was found under, a new one under the id
    its constructor gave it.  No other user of any team has changed, and no
    channel. *)
Theorem addUser_then_getUser c (d : IUserData) b team :
  teams c !! ud_team_id d = Some team →
  let c' := store (addUser d b c) in
  (∀ key user, user_key d = Some key → t_users team !! key = Some user →
     getUser key (ud_team_id d) c' = Some (User_patch c user d))
  ∧ (map_get (t_users team) (user_key d) = None →
     getUser (User_id (User_new c d)) (ud_team_id d) c' = Some (User_new c d))
  ∧ (∀ uid tid, getUser uid tid c' ≠ getUser uid tid c →
       tid = ud_team_id d ∧ (user_key d = Some uid ∨ uid = User_id (User_new c d)))
  ∧ (∀ cid tid, getChannel cid tid c' = getChannel cid tid c).
Proof.
  intros Ht. simpl. unfold getUser, getChannel.
  destruct (map_get (t_users team) (user_key d)) as [user|] eqn:Hu.
  - destruct (user_key d) as [key|] eqn:Hk; [simpl in Hu|done].
    rewrite (addUser_change _ _ _ _ _ _ Ht Hk Hu). simpl. split_and!.
    + intros key' user' [= <-] Hu'. rewrite lookup_insert_eq. simpl.
      rewrite lookup_insert_eq. congruence.
    + done.
    + intros uid tid. destruct (decide (tid = ud_team_id d)) as [->|Hne].
      * rewrite lookup_insert_eq, Ht. simpl.
        destruct (decide (key = uid)) as [->|Hne]; [by intros _; split; [|left]|].
        by rewrite lookup_insert_ne.
      * by rewrite lookup_insert_ne.
    + intros cid tid. destruct (decide (tid = ud_team_id d)) as [->|Hne].
      * by rewrite lookup_insert_eq, Ht.
      * by rewrite lookup_insert_ne.
  - rewrite (addUser_add _ _ _ _ Ht Hu). simpl. split_and!.
    + intros key user Hk Hu'. rewrite Hk in Hu. simpl in Hu. congruence.
    + intros _. rewrite lookup_insert_eq. simpl. by rewrite lookup_insert_eq.
    + intros uid tid. destruct (decide (tid = ud_team_id d)) as [->|Hne].
      * rewrite lookup_insert_eq, Ht. simpl.
        destruct (decide (User_id (User_new c d) = uid)) as [<-|Hne];
          [by intros _; split; [|right]|].
        by rewrite lookup_insert_ne.
      * by rewrite lookup_insert_ne.
    + intros cid tid. destruct (decide (tid = ud_team_id d)) as [->|Hne].
      * by rewrite lookup_insert_eq, Ht.
      * by rewrite lookup_insert_ne.
Qed.

(** X10.  After [addChannel] into a team of the store, [getChannel] finds
    the channel: the patched one under the id of the payload, a new one
    under the id its constructor gave it.  No other channel of any team has
    changed, and no user. *)
Theorem addChannel_then_getChannel c (d : IChannelData) b tid team :
  channel_teamId d = Some tid → tid ≠ "" →
  teams c !! tid = Some team →
  let c' := store (addChannel d b c) in
  (∀ chan, t_channels team !! cd_id d = Some chan →
     getChannel (cd_id d) tid c' = Some (Channel_patch c chan d))
  ∧ (t_channels team !! cd_id d = None →
     getChannel (Channel_id (Channel_new c d)) tid c' = Some (Channel_new c d))
  ∧ (∀ cid tid', getChannel cid tid' c' ≠ getChannel cid tid' c →
       tid' = tid ∧ (cid = cd_id d ∨ cid = Channel_id (Channel_new c d)))
  ∧ (∀ uid tid', getUser uid tid' c' = getUser uid tid' c).
Proof.
  intros Hid Hne Ht. simpl. unfold getUser, getChannel.
  destruct (t_channels team !! cd_id d) as [chan|] eqn:Hc.
  - rewrite (addChannel_change _ _ _ _ _ _ Hid Hne Ht Hc). simpl. split_and!.
    + intros chan' [= <-]. rewrite lookup_insert_eq. simpl.
      by rewrite lookup_insert_eq.
    + done.
    + intros cid tid'. destruct (decide (tid' = tid)) as [->|Hne'].
      * rewrite lookup_insert_eq, Ht. simpl.
        destruct (decide (cd_id d = cid)) as [<-|Hne']; [by intros _; split; [|left]|].
        by rewrite lookup_insert_ne.
      * by rewrite lookup_insert_ne.
    + intros uid tid'. destruct (decide (tid' = tid)) as [->|Hne'].
      * by rewrite lookup_insert_eq, Ht.
      * by rewrite lookup_insert_ne.
  - rewrite (addChannel_add _ _ _ _ _ Hid Hne Ht Hc). simpl. split_and!.
    + done.
    + intros _. rewrite lookup_insert_eq. simpl. by rewrite lookup_insert_eq.
    + intros cid tid'. destruct (decide (tid' = tid)) as [->|Hne'].
      * rewrite lookup_insert_eq, Ht. simpl.
        destruct (decide (Channel_id (Channel_new c d) = cid)) as [<-|Hne'];
          [by intros _; split; [|right]|].
        by rewrite lookup_insert_ne.
      * by rewrite lookup_insert_ne.
    + intros uid tid'. destruct (decide (tid' = tid)) as [->|Hne'].
      * by rewrite lookup_insert_eq, Ht.
      * by rewrite lookup_insert_ne.
Qed.

(** ** Patching a team twice *)

(** X11.  [Team._patch] is idempotent: patching a team again with the same
    payload, the credentials being the same, changes nothing. *)
Theorem Team_patch_idempotent tokens team data :
  Team_patch tokens (Team_patch tokens team data) data = Team_patch tokens team data.
Proof.
  unfold Team_patch.
  destruct data as [id [|fk] [|nm] [|dm] [|ic]]; simpl;
    case_bool_decide; simpl; try done;
    destruct (truthy fk), (t_partial team); simpl; try done;
    destruct (truthy (t_fakeId team)); done.
Qed.

Lemma addTeam_store c data :
  ∃ t, addTeam data c =
         mkRun (Returned tt) (Client_set_teams (<[td_id data := t]> (teams c)) c)
               (effects (addTeam data c))
       ∧ Team_patch (tokens c) t data = t.
Proof.
  destruct (teams c !! td_id data) as [team|] eqn:Ht.
  - eexists. rewrite (addTeam_change _ _ _ Ht). split; [done|].
    apply Team_patch_idempotent.
  - eexists. rewrite (addTeam_add _ _ Ht). split; [done|].
    apply Team_patch_idempotent.
Qed.

(** X12.  Upserting the same team payload a second time leaves the store as
    the first upsert left it; outside startup the second upsert still emits
    [changeTeam], with the old and the new snapshot equal. *)
Theorem addTeam_twice c data :
  store ((addTeam data ;; addTeam data) c) = store (addTeam data c)
  ∧ (td_id data ∉ startup c →
     ∃ t, getTeam (td_id data) (store (addTeam data c)) = Some t ∧
          emitted (effects (addTeam data (store (addTeam data c)))) = [EvChangeTeam t t]).
Proof.
  destruct (addTeam_store c data) as (t & Hrun & Hidem).
  set (c1 := Client_set_teams (<[td_id data := t]> (teams c)) c).
  assert (Hl : teams c1 !! td_id data = Some t) by apply lookup_insert_eq.
  split.
  - rewrite (bind_run _ _ _ _ _ _ Hrun). simpl. rewrite Hrun. simpl. fold c1.
    rewrite (addTeam_change _ _ _ Hl). simpl. rewrite Hidem.
    subst c1. unfold Client_set_teams. simpl. by rewrite insert_insert_eq.
  - intros Hs. exists t. rewrite Hrun. simpl. fold c1. split; [done|].
    rewrite (addTeam_change _ _ _ Hl). simpl. rewrite Hidem.
    by rewrite (starting_false c1 _ Hs).
Qed.

(** X13.  [addTeam] never marks a team as loaded: a new team is partial, and
    a team that was partial is partial after the patch. *)
Theorem addTeam_keeps_partial c data :
  (∀ t, getTeam (td_id data) c = Some t → t_partial t = true) →
  ∃ t', getTeam (td_id data) (store (addTeam data c)) = Some t' ∧ t_partial t' = true.
Proof.
  unfold getTeam. intros Hp. destruct (teams c !! td_id data) as [team|] eqn:Ht.
  - rewrite (addTeam_change _ _ _ Ht). simpl. rewrite lookup_insert_eq.
    eexists. split; [done|]. unfold Team_patch. rewrite (Hp team eq_refl).
    case_bool_decide; simpl; [|done]. by destruct (truthy _).
  - rewrite (addTeam_add _ _ Ht). simpl. rewrite lookup_insert_eq.
    eexists. split; [done|]. unfold Team_new, Team_patch.
    case_bool_decide; simpl; [|done]. by destruct (truthy _).
Qed.

(** ** Where Team.load stops *)

(** X14.  [Team.load] fails before it touches anything: without a request
    client for the team it throws "Team not found" and sends nothing; when
    the [team.info] request rejects, or its answer is null, not ok or
    without a team, it throws after that one request; when the answer has
    not arrived it waits.  In each case the store is as it was. *)
Theorem load_fails_early c key this :
  teams c !! key = Some this →
  let wkey := default (t_id this) (js_or (t_fakeId this) (Some (t_id this))) in
  (webMap c !! wkey = None →
   ∀ script, load key script c = mkRun (Thrown "Team not found") c no_effects)
  ∧ (∀ w, webMap c !! wkey = Some w →
       let asked := mkEffects [] [CallTeamInfo w (t_id this)] [] [] in
       load key [] c = mkRun Suspended c asked
       ∧ (∀ script, load key (Rejected :: script) c = mkRun (Thrown "rejected") c asked)
       ∧ (∀ script, load key (Resolved None :: script) c =
                      mkRun (Thrown "Bad response") c asked)
       ∧ (∀ info script, wr_ok info = false ∨ wr_team info = None →
            load key (Resolved (Some info) :: script) c =
              mkRun (Thrown "Bad response") c asked)).
Proof.
  intros Hk. simpl. split.
  - intros Hw script. unfold load.
    rewrite (bind_run _ _ _ _ _ _ (getThis_run _ _ _ Hk)), prepend_nil.
    unfold bind at 1, web, bind, getClient. by rewrite Hw.
  - intros w Hw.
    assert (Hhead : ∀ script,
              load key script c =
                prepend (mkEffects [] [CallTeamInfo w (t_id this)] [] [])
                  (match script with
                   | [] => suspend
                   | p :: script =>
                       let* result := await p in
                       match result with
                       | Some (mkResult true (Some team) _ _ _) =>
                           let* c := getClient in
                           setThis key (Team_patch (tokens c) this team) ;;
                           let* this := getThis key in
                           if truthy (t_fakeId this) then
                             setThis key (Team_set_partial false this) ;;
                             ret script
                           else
                             let* script := load_channels key None script in
                             let* script := load_users key None script in
                             let* this := getThis key in
                             setThis key (Team_set_partial false this) ;;
                             ret script
                       | _ => throw "Bad response"
                       end
                   end c)).
    { intros script. unfold load.
      rewrite (bind_run _ _ _ _ _ _ (getThis_run _ _ _ Hk)), prepend_nil.
      rewrite (bind_run _ _ _ _ _ _ (web_run _ _ _ Hw)), prepend_nil.
      by rewrite call_bind. }
    split_and!.
    + by rewrite Hhead.
    + intros script. by rewrite Hhead.
    + intros script. by rewrite Hhead.
    + intros [ok team chs ms next] script Hbad. rewrite Hhead. simpl in *.
      rewrite ret_bind. destruct Hbad as [-> | ->]; [done|]. by destruct ok.
Qed.

(** X15.  [Team.load] of a team that still has a [fakeId] after the patch
    from [team.info]: it returns at once with the team patched and marked as
    loaded, and sends no listing request at all. *)
Theorem load_stops_at_fakeId c key this w info ti script :
  teams c !! key = Some this →
  webMap c !! default (t_id this) (js_or (t_fakeId this) (Some (t_id this))) = Some w →
  wr_ok info = true → wr_team info = Some ti →
  truthy (t_fakeId (Team_patch (tokens c) this ti)) = true →
  load key (Resolved (Some info) :: script) c =
    mkRun (Returned script)
          (Client_set_teams
             (<[key := Team_set_partial false (Team_patch (tokens c) this ti)]> (teams c))
             c)
          (mkEffects [] [CallTeamInfo w (t_id this)] [] []).
Proof.
  intros Hk Hw Hok Hti Hfake. unfold load.
  rewrite (bind_run _ _ _ _ _ _ (getThis_run _ _ _ Hk)), prepend_nil.
  rewrite (bind_run _ _ _ _ _ _ (web_run _ _ _ Hw)), prepend_nil.
  rewrite call_bind. simpl. rewrite ret_bind.
  destruct info as [ok team chs mems next]. simpl in Hok, Hti. subst ok team.
  rewrite (bind_run getClient _ c c c no_effects) by done. rewrite prepend_nil.
  rewrite (bind_run _ _ _ _ _ _ (setThis_run key _ c)), prepend_nil.
  set (c1 := Client_set_teams _ c).
  assert (Hk1 : teams c1 !! key = Some (Team_patch (tokens c) this ti))
    by apply lookup_insert_eq.
  rewrite (bind_run _ _ _ _ _ _ (getThis_run _ _ _ Hk1)), prepend_nil.
  rewrite Hfake.
  rewrite (bind_run _ _ _ _ _ _ (setThis_run key _ c1)), prepend_nil.
  unfold prepend, ret. simpl. subst c1. unfold Client_set_teams. simpl.
  by rewrite insert_insert_eq.
Qed.

Lemma partial_at_insert key c t :
  t_partial t = true → partial_at key (Client_set_teams (<[key := t]> (teams c)) c).
Proof. intros Hp. exists t. split; [apply lookup_insert_eq|done]. Qed.

Lemma partial_at_set_team key k c team team' :
  teams c !! k = Some team → t_partial team' = t_partial team →
  partial_at key c → partial_at key (Client_set_teams (<[k := team']> (teams c)) c).
Proof.
  intros Hk Hp (t & Ht & Htp). simpl. destruct (decide (k = key)) as [->|Hne].
  - exists team'. split; [apply lookup_insert_eq|]. congruence.
  - exists t. split; [|done]. simpl. by rewrite lookup_insert_ne.
Qed.

Lemma addUser_partial key (d : IUserData) b : preserves (partial_at key) (addUser d b).
Proof.
  intros c Hc. destruct (teams c !! ud_team_id d) as [team|] eqn:Ht.
  - destruct (map_get (t_users team) (user_key d)) as [user|] eqn:Hu.
    + destruct (user_key d) as [k|] eqn:Hk; [simpl in Hu|done].
      rewrite (addUser_change _ _ _ _ _ _ Ht Hk Hu). by eapply partial_at_set_team.
    + rewrite (addUser_add _ _ _ _ Ht Hu). by eapply partial_at_set_team.
  - destruct b.
    + destruct (webMap c !! ud_team_id d) as [w|] eqn:Hw.
      * by rewrite (addUser_fetch _ _ _ Ht Hw).
      * by rewrite (addUser_throw _ _ Ht Hw).
    + by rewrite (addUser_drop _ _ Ht).
Qed.

Lemma addChannel_partial key (d : IChannelData) b :
  preserves (partial_at key) (addChannel d b).
Proof.
  intros c Hc. destruct (truthy (channel_teamId d)) eqn:Htr.
  2:{ by rewrite addChannel_no_team. }
  apply truthy_is_Some in Htr as (tid & Hid & Hne).
  destruct (teams c !! tid) as [team|] eqn:Ht.
  - destruct (t_channels team !! cd_id d) as [chan|] eqn:Hch.
    + rewrite (addChannel_change _ _ _ _ _ _ Hid Hne Ht Hch).
      by eapply partial_at_set_team.
    + rewrite (addChannel_add _ _ _ _ _ Hid Hne Ht Hch).
      by eapply partial_at_set_team.
  - destruct b.
    + destruct (webMap c !! tid) as [w|] eqn:Hw.
      * by rewrite (addChannel_fetch _ _ _ _ Hid Hne Ht Hw).
      * by rewrite (addChannel_throw _ _ _ Hid Hne Ht Hw).
    + by rewrite (addChannel_drop _ _ _ Hid Ht).
Qed.

Lemma preserves_forEach {A} (P : Client → Prop) (f : A → M unit) (xs : list A) :
  (∀ x, preserves P (f x)) → preserves P (forEach xs f).
Proof.
  intros Hf. induction xs as [|x xs IH]; simpl; [apply preserves_ret|].
  apply preserves_bind; [apply Hf|done].
Qed.

Lemma getThis_preserves (P : Client → Prop) key : preserves P (getThis key).
Proof. intros c Hc. unfold getThis, bind, getClient. by destruct (teams c !! key). Qed.

Lemma web_preserves (P : Client → Prop) tid : preserves P (web tid).
Proof. intros c Hc. unfold web, bind, getClient. by destruct (webMap c !! tid). Qed.

Lemma await_preserves {A} (P : Client → Prop) (p : settled A) : preserves P (await p).
Proof. intros c Hc. by destruct p. Qed.

Lemma load_channels_partial key k cur script :
  preserves (partial_at key) (load_channels k cur script).
Proof.
  revert cur. induction script as [|p script IH]; intros cur; simpl.
  - apply preserves_bind; [apply getThis_preserves|intros this].
    apply preserves_bind; [apply web_preserves|intros w].
    apply preserves_bind; [by intros c|by intros _ c].
  - apply preserves_bind; [apply getThis_preserves|intros this].
    apply preserves_bind; [apply web_preserves|intros w].
    apply preserves_bind; [by intros c|intros _].
    apply preserves_bind; [apply await_preserves|].
    intros [[[] ? [chs|] ? next]|]; try by intros c.
    apply preserves_bind; [|intros _].
    + apply preserves_forEach. intros d.
      apply preserves_bind; [apply getThis_preserves|intros ?; apply addChannel_partial].
    + destruct (truthy next); [apply IH|by intros c].
Qed.

Lemma load_users_partial key k cur script :
  preserves (partial_at key) (load_users k cur script).
Proof.
  revert cur. induction script as [|p script IH]; intros cur; simpl.
  - apply preserves_bind; [apply getThis_preserves|intros this].
    apply preserves_bind; [apply web_preserves|intros w].
    apply preserves_bind; [by intros c|by intros _ c].
  - apply preserves_bind; [apply getThis_preserves|intros this].
    apply preserves_bind; [apply web_preserves|intros w].
    apply preserves_bind; [by intros c|intros _].
    apply preserves_bind; [apply await_preserves|].
    intros [[[] ? ? [ms|] next]|]; try by intros c.
    apply preserves_bind; [|intros _].
    + apply preserves_forEach. intros d. apply addUser_partial.
    + destruct (truthy next); [apply IH|by intros c].
Qed.

Lemma loaded_iff_bind {A B} key (m : M A) (k : A → M B) c :
  partial_at key (store (m c)) →
  (∀ a, outcome (m c) = Returned a → loaded_iff_returned key (k a (store (m c)))) →
  loaded_iff_returned key (bind m k c).
Proof.
  intros (t & Ht & Hp) Hk.
  destruct (bind_cases m k c) as [(a & Ho & ->)|(Hne & Hs & _)].
  - destruct (Hk a Ho) as (t' & Ht' & Hiff). by exists t'.
  - exists t. rewrite Hs. split; [done|]. rewrite Hp. split; [done|].
    intros [b Hb]. destruct (bind_outcome_ne m k c Hne) as (Ho & _).
    rewrite Ho in Hb. by destruct (outcome (m c)).
Qed.

Lemma loaded_iff_fail {A} key (o : Outcome A) c e :
  partial_at key c → (∀ a, o ≠ Returned a) → loaded_iff_returned key (mkRun o c e).
Proof.
  intros (t & Ht & Hp) Hne. exists t. split; [done|]. simpl. rewrite Hp.
  split; [done|]. intros [a Ha]. by destruct (Hne a).
Qed.

Lemma mark_loaded_returns key (script : list response) this c :
  loaded_iff_returned key
    ((setThis key (Team_set_partial false this) ;; ret script) c).
Proof.
  rewrite (bind_run _ _ _ _ _ _ (setThis_run _ _ _)), prepend_nil.
  eexists. split; [apply lookup_insert_eq|]. simpl. split; eauto.
Qed.

Lemma Team_patch_partial tokens team data :
  t_partial team = true → t_partial (Team_patch tokens team data) = true.
Proof.
  intros Hp. unfold Team_patch. rewrite Hp.
  case_bool_decide; simpl; [|done]. by destruct (truthy _).
Qed.

(** X16.  [Team.load] of a partial team marks it as loaded exactly when it
    runs to its end: after [load], the team stored under the key is no
    longer partial if and only if [load] has returned; when [load] has
    thrown, or waits for an answer, the team is still partial. *)
Theorem load_marks_loaded_iff_returned c key this script :
  teams c !! key = Some this → t_partial this = true →
  loaded_iff_returned key (load key script c).
Proof.
  intros Hk Hp.
  assert (HP : partial_at key c) by (by exists this).
  unfold load.
  rewrite (bind_run _ _ _ _ _ _ (getThis_run _ _ _ Hk)), prepend_nil.
  apply loaded_iff_bind; [by apply web_preserves|intros w Hw].
  assert (Hc : store (web (default (t_id this) (js_or (t_fakeId this) (Some (t_id this))))
                        c) = c).
  { unfold web, bind, getClient. by destruct (webMap c !! _). }
  rewrite Hc. rewrite call_bind.
  destruct script as [|p script]; [by apply loaded_iff_fail|].
  cut (loaded_iff_returned key
         ((let* result := await p in
           match result with
           | Some (mkResult true (Some team) _ _ _) =>
               let* c := getClient in
               setThis key (Team_patch (tokens c) this team) ;;
               let* this := getThis key in
               if truthy (t_fakeId this) then
                 setThis key (Team_set_partial false this) ;; ret script
               else
                 let* script := load_channels key None script in
                 let* script := load_users key None script in
                 let* this := getThis key in
                 setThis key (Team_set_partial false this) ;; ret script
           | _ => throw "Bad response"
           end) c)).
  { intros (t & Ht & Hiff). by exists t. }
  destruct p as [[[[] [ti|] ? ? ?]|]|]; simpl; rewrite ?ret_bind;
    try (by apply loaded_iff_fail).
  rewrite (bind_run getClient _ c c c no_effects) by done. rewrite prepend_nil.
  rewrite (bind_run _ _ _ _ _ _ (setThis_run key _ c)), prepend_nil.
  set (this' := Team_patch (tokens c) this ti).
  set (c1 := Client_set_teams _ c).
  assert (Hk1 : teams c1 !! key = Some this') by apply lookup_insert_eq.
  assert (HP1 : partial_at key c1).
  { apply partial_at_insert. by apply Team_patch_partial. }
  rewrite (bind_run _ _ _ _ _ _ (getThis_run _ _ _ Hk1)), prepend_nil.
  destruct (truthy (t_fakeId this')); [apply mark_loaded_returns|].
  apply loaded_iff_bind; [by apply load_channels_partial|intros s1 _].
  apply loaded_iff_bind; [by apply load_users_partial, load_channels_partial|].
  intros s2 _.
  set (c3 := store (load_users key None s1 _)).
  assert (HP3 : partial_at key c3).
  { by apply load_users_partial, load_channels_partial. }
  destruct HP3 as (t3 & Ht3 & _).
  rewrite (bind_run _ _ _ _ _ _ (getThis_run _ _ _ Ht3)), prepend_nil.
  apply mark_loaded_returns.
Qed.

(** ** Team.joinAllChannels *)

(** X17.  [joinAllChannels] on a team that is loaded sends one join for each
    of its channels and nothing else, and leaves the store as it is; no
    listing is requested. *)
Theorem joinAllChannels_loaded c key this script joined :
  teams c !! key = Some this → t_partial this = false →
  (∀ ch, joined ch = Resolved tt) →
  joinAllChannels key script joined c =
    mkRun (Returned tt) c
          (mkEffects [] ((λ kv, CallJoin kv.2) <$> map_to_list (t_channels this)) [] [])
  ∧ ∀ id ch, t_channels this !! id = Some ch →
             CallJoin ch ∈ calls (effects (joinAllChannels key script joined c)).
Proof.
  intros Hk Hp Hj.
  assert (Hrun : joinAllChannels key script joined c =
            mkRun (Returned tt) c
              (mkEffects [] ((λ kv, CallJoin kv.2) <$> map_to_list (t_channels this))
                         [] [])).
  { unfold joinAllChannels.
    rewrite (bind_run _ _ _ _ _ _ (getThis_run _ _ _ Hk)), prepend_nil.
    rewrite Hp, ret_bind.
    rewrite (bind_run _ _ _ _ _ _ (getThis_run _ _ _ Hk)), prepend_nil.
    apply (forEach_calls _ (λ kv, CallJoin kv.2)).
    intros [id ch]. unfold bind, call. simpl. by rewrite Hj. }
  split; [done|]. intros id ch Hch. rewrite Hrun. simpl.
  apply list_elem_of_fmap. exists (id, ch). split; [done|].
  by apply elem_of_map_to_list.
Qed.

(** ** The connection supervisor *)

(** X18.  A teardown that fails aborts [disconnect]: when the first session
    asked to disconnect rejects, [disconnect] throws after that one
    request; no other session is asked, and the events adapter is not
    stopped. *)
Theorem disconnect_stops_at_failure c torn_down stopped :
  (∀ r, torn_down r = Rejected) → rtmMap c ≠ ∅ →
  ∃ k r, rtmMap c !! k = Some r ∧
         disconnect torn_down stopped c =
           mkRun (Thrown "rejected") c (mkEffects [] [CallRtmDisconnect r] [] []).
Proof.
  intros Ht Hne. unfold disconnect.
  rewrite (bind_run getClient _ c c c no_effects) by done. rewrite prepend_nil.
  destruct (map_to_list (rtmMap c)) as [|[k r] rest] eqn:Hl.
  { by apply map_to_list_empty_iff in Hl. }
  exists k, r. split.
  { apply elem_of_map_to_list. rewrite Hl. by left. }
  simpl. unfold bind, call. simpl. by rewrite Ht.
Qed.

Lemma signals_snoc rs r l :
  signals (rs ++ [r]) l = step (on_disconnected r (Resolved tt)) (signals rs l).
Proof. unfold signals. by rewrite foldl_app. Qed.

(** X19.  Reconnect timers pile up: each signal of a session adds its own
    timer of 15000 ms and none replaces or cancels another, so after the
    signals of the sessions [rs] there is one more pending timer for each,
    in their order; nothing has been emitted, and the store is as it was. *)
Theorem reconnect_timers_pile_up rs (l : Loop) :
  lp_timers (signals rs l) = lp_timers l ++ (mkTimer 15000 <$> rs)
  ∧ lp_emitted (signals rs l) = lp_emitted l
  ∧ lp_client (signals rs l) = lp_client l
  ∧ lp_calls (signals rs l) = lp_calls l ++ (CallRtmDisconnect <$> rs).
Proof.
  induction rs as [|r rs IH] using rev_ind.
  - simpl. by rewrite !app_nil_r.
  - rewrite signals_snoc. unfold on_disconnected. rewrite step_reconnect. simpl.
    destruct IH as (-> & -> & -> & ->).
    rewrite !fmap_app, !app_nil_r, !app_assoc. done.
Qed.

(** ** The event normalizer and the listeners *)

(** X20.  A message event of a bot whose team is neither in the store nor
    has a request client makes [handleMessageEvent] throw "Team not found":
    no message event is emitted and the store is as it was. *)
Theorem message_of_unresolvable_bot_throws c (data : MessageData) :
  includes suppressed_subtypes (md_subtype data) = false →
  truthy (md_bot_id data) = true →
  teams c !! md_team_id data = None →
  webMap c !! md_team_id data = None →
  handleMessageEvent data c = mkRun (Thrown "Team not found") c no_effects.
Proof.
  intros Hsup Hbot Ht Hw. unfold handleMessageEvent. rewrite Hsup, Hbot. simpl.
  unfold bind at 1. by rewrite (addUser_throw c (as_IUserData data) Ht Hw).
Qed.

(** X21.  A message event that has neither a channel nor an item makes
    [handleMessageEvent] throw a TypeError after the upsert of its bot:
    what that upsert did stays, and no message event is emitted. *)
Theorem message_without_channel_throws c (data : MessageData) :
  includes suppressed_subtypes (md_subtype data) = false →
  truthy (md_bot_id data) = false ∨ is_Some (teams c !! md_team_id data)
    ∨ is_Some (webMap c !! md_team_id data) →
  truthy (md_channel data) = false → md_item data = None →
  let r0 := when (truthy (md_bot_id data)) (addUser (as_IUserData data) true) c in
  handleMessageEvent data c = mkRun (Thrown "TypeError") (store r0) (effects r0)
  ∧ message_events (emitted (effects (handleMessageEvent data c))) = [].
Proof.
  intros Hsup Hbot Hch Hitem. simpl.
  set (r0 := when _ _ c).
  assert (Ho : outcome r0 = Returned tt).
  { subst r0. unfold when. destruct (truthy (md_bot_id data)); [|done].
    apply addUser_returns. simpl. destruct Hbot as [?|[?|?]]; [done|by left|by right; right]. }
  assert (Hm : message_events (emitted (effects r0)) = []).
  { subst r0. unfold when. destruct (truthy (md_bot_id data)); [|done].
    apply addUser_emits_no_message. }
  assert (Hrun : handleMessageEvent data c =
                   mkRun (Thrown "TypeError") (store r0) (effects r0)).
  { unfold handleMessageEvent. rewrite Hsup. fold r0.
    rewrite (bind_returned _ _ _ _ Ho).
    unfold message_channelId. rewrite Hch, Hitem.
    unfold prepend, bind, throw. simpl. by rewrite eff_app_nil_r. }
  split; [done|]. by rewrite Hrun.
Qed.

(** X22.  The actor of a message event is resolved in this order: the user
    of the event; else its bot id; else the user or bot id of the embedded
    message; else those of the previous message.  [handleMessageEvent]
    builds the messages it emits for that actor. *)
Theorem message_actor_resolution c (data : MessageData) :
  (truthy (md_user data) = true → message_userId data = md_user data)
  ∧ (truthy (md_user data) = false → truthy (md_bot_id data) = true →
     message_userId data = md_bot_id data)
  ∧ (truthy (md_user data) = false → truthy (md_bot_id data) = false →
     ∀ m, md_message data = Some m →
          truthy (js_or (md_user m) (md_bot_id m)) = true →
          message_userId data = js_or (md_user m) (md_bot_id m))
  ∧ (truthy (md_user data) = false → truthy (md_bot_id data) = false →
     md_message data = None →
     ∀ p, md_previous_message data = Some p →
          message_userId data = js_or (md_user p) (md_bot_id p))
  ∧ (md_subtype data = None →
     truthy (md_bot_id data) = false → truthy (md_channel data) = true →
     handleMessageEvent data c =
       mkRun (Returned tt) c
             (mkEffects [EvMessage (Message_new c (Some data) (md_team_id data)
                                                (md_channel data) (message_userId data))]
                        [] [] [])).
Proof.
  unfold message_userId, tryKey, js_or. split_and!.
  - intros Hu. destruct (md_message data), (md_previous_message data);
      repeat (progress (rewrite ?Hu; simpl)); done.
  - intros Hu Hb. destruct (md_message data), (md_previous_message data);
      repeat (progress (rewrite ?Hu, ?Hb; simpl)); done.
  - intros Hu Hb m -> Hm. rewrite Hu, Hb. simpl.
    destruct (md_previous_message data); by rewrite ?Hm.
  - intros Hu Hb -> p ->. by rewrite Hu, Hb.
  - intros Hsub Hbot Hch.
    destruct (handleMessageEvent_emits c data) as [Hrun _].
    { by rewrite Hsub. }
    { by left. }
    { by left. }
    simpl in Hrun. rewrite Hrun, Hbot, Hch, Hsub. done.
Qed.


(** X24.  [app_uninstalled] for the configured app, with the session, if
    there is one, torn down: the team is gone from the registry, and so are
    its credential, its request client and its session; every other team
    and its entries are as they were, the startup set is as it was, and
    nothing is emitted.  For another app the listener does nothing; when
    the teardown of the session fails, it throws and removes nothing. *)
Theorem app_uninstalled_removes_team c appId api teamId torn_down :
  let r := on_app_uninstalled appId api teamId torn_down c in
  (api ≠ Some appId → r = mkRun (Returned tt) c no_effects)
  ∧ (api = Some appId → torn_down = Resolved tt ∨ rtmMap c !! teamId = None →
     outcome r = Returned tt ∧ emitted (effects r) = [] ∧
     getTeam teamId (store r) = None ∧ tokens (store r) !! teamId = None ∧
     webMap (store r) !! teamId = None ∧ rtmMap (store r) !! teamId = None ∧
     (∀ uid, getUser uid teamId (store r) = None) ∧
     (∀ cid, getChannel cid teamId (store r) = None) ∧
     startup (store r) = startup c ∧
     ∀ k, k ≠ teamId →
          getTeam k (store r) = getTeam k c ∧ tokens (store r) !! k = tokens c !! k ∧
          webMap (store r) !! k = webMap c !! k ∧ rtmMap (store r) !! k = rtmMap c !! k)
  ∧ (api = Some appId → torn_down = Rejected → is_Some (rtmMap c !! teamId) →
     outcome r = Thrown "rejected" ∧ store r = c).
Proof.
  simpl. split_and!.
  - apply on_app_uninstalled_foreign.
  - intros -> Hok. rewrite on_app_uninstalled_run.
    assert (Hs : ∀ o e,
              let r := mkRun (A:=unit) o (uninstalled teamId c) e in
              getTeam teamId (store r) = None ∧ tokens (store r) !! teamId = None ∧
              webMap (store r) !! teamId = None ∧ rtmMap (store r) !! teamId = None ∧
              (∀ uid, getUser uid teamId (store r) = None) ∧
              (∀ cid, getChannel cid teamId (store r) = None) ∧
              startup (store r) = startup c ∧
              ∀ k, k ≠ teamId →
                   getTeam k (store r) = getTeam k c ∧
                   tokens (store r) !! k = tokens c !! k ∧
                   webMap (store r) !! k = webMap c !! k ∧
                   rtmMap (store r) !! k = rtmMap c !! k).
    { intros o e. simpl. unfold getTeam, getUser, getChannel. simpl.
      rewrite !lookup_delete_eq. split_and!; try done.
      intros k Hk. by rewrite !lookup_delete_ne. }
    destruct (rtmMap c !! teamId) as [r|] eqn:Hr.
    + destruct Hok as [-> | ?]; [|done]. split; [done|]. split; [done|]. apply Hs.
    + split; [done|]. split; [done|]. apply Hs.
  - intros -> -> [r Hr]. rewrite on_app_uninstalled_run, Hr. done.
Qed.

(** X25.  After [app_uninstalled] has removed a team, an event of the events
    adapter that upserts a user or a channel of that team throws "Team not
    found", and so do the listeners of a realtime session that are
    registered whether or not the events adapter is configured, those on
    [bot_added] and [bot_changed] and on [team_profile_change] and
    [team_pref_change]: nothing is stored, nothing is requested and nothing
    is emitted. *)
Theorem upsert_after_uninstall_throws c appId teamId torn_down (d : IUserData)
    (ch : IChannelData) (r : response) :
  torn_down = Resolved tt ∨ rtmMap c !! teamId = None →
  teamId ≠ "" →
  let c' := store (on_app_uninstalled appId (Some appId) teamId torn_down c) in
  let thrown := mkRun (Thrown "Team not found") c' no_effects in
  events_on_user appId (Some appId) teamId d c' = thrown
  ∧ events_on_channel appId (Some appId) teamId ch c' = thrown
  ∧ rtm_on_bot teamId d c' = thrown
  ∧ rtm_on_team_profile_change teamId r c' = thrown.
Proof.
  intros Hok Hne. simpl.
  assert (Hs : store (on_app_uninstalled appId (Some appId) teamId torn_down c) =
               uninstalled teamId c).
  { rewrite on_app_uninstalled_run.
    destruct (rtmMap c !! teamId) as [r'|] eqn:Hr; [|done].
    by destruct Hok as [-> | ?]. }
  rewrite Hs.
  assert (Hu : addUser (set_user_team_id teamId d) true (uninstalled teamId c) =
               mkRun (Thrown "Team not found") (uninstalled teamId c) no_effects).
  { apply addUser_throw; simpl; apply lookup_delete_eq. }
  assert (Hc : addChannel (set_team_id teamId ch) true (uninstalled teamId c) =
               mkRun (Thrown "Team not found") (uninstalled teamId c) no_effects).
  { apply (addChannel_throw _ _ teamId); try done.
    - by apply channel_teamId_set.
    - simpl. apply lookup_delete_eq.
    - simpl. apply lookup_delete_eq. }
  split_and!; try done.
  - unfold events_on_user. by rewrite bool_decide_eq_true_2.
  - unfold events_on_channel. by rewrite bool_decide_eq_true_2.
  - unfold rtm_on_team_profile_change, web, bind, getClient, uninstalled. simpl.
    by rewrite lookup_delete_eq.
Qed.

(** X26.  No streaming event takes a team out of the registry or touches the
    credentials, the request clients, the sessions or the startup set: the
    listeners of a realtime session and those of the events adapter on
    users, bots, channels, messages, [team_rename] and
    [team_profile_change], for the configured app or another, only add to
    the team registry, however they end. *)
Theorem listeners_only_grow_registry teamId :
  (∀ d, keeps grows (rtm_on_bot teamId d))
  ∧ (∀ r, keeps grows (rtm_on_team_profile_change teamId r))
  ∧ (∀ ch, keeps grows (rtm_on_channel teamId ch))
  ∧ (∀ d, keeps grows (rtm_on_user teamId d))
  ∧ (∀ d, keeps grows (rtm_on_message teamId d))
  ∧ (∀ name, keeps grows (rtm_on_team_rename teamId name))
  ∧ (∀ appId api ch, keeps grows (events_on_channel appId api teamId ch))
  ∧ (∀ appId api d, keeps grows (events_on_user appId api teamId d))
  ∧ (∀ appId api d, keeps grows (events_on_message appId api teamId d))
  ∧ (∀ appId api name, keeps grows (events_on_team_rename appId api teamId name)).
Proof.
  split_and!; intros.
  - apply addUser_grows.
  - unfold rtm_on_team_profile_change.
    apply keeps_bind; [apply _|apply web_keeps|intros w].
    apply keeps_bind; [apply _|done|intros _].
    apply keeps_bind; [apply _|apply await_keeps|intros result].
    destruct result as [[[] [team|] ? ? ?]|]; try (by apply keeps_ret; apply _).
    apply addTeam_grows.
  - apply addChannel_grows.
  - apply addUser_grows.
  - apply handleMessageEvent_grows.
  - apply addTeam_grows.
  - unfold events_on_channel. case_bool_decide; simpl;
      [apply addChannel_grows|by apply keeps_ret; apply _].
  - unfold events_on_user. case_bool_decide; simpl;
      [apply addUser_grows|by apply keeps_ret; apply _].
  - unfold events_on_message. case_bool_decide; simpl;
      [apply handleMessageEvent_grows|by apply keeps_ret; apply _].
  - unfold events_on_team_rename. case_bool_decide; simpl;
      [apply addTeam_grows|by apply keeps_ret; apply _].
Qed.

End MoreProperties.

(** * The properties at the examples *)

Section AtExamples.
#[local] Existing Instance spec_entities.
#[local] Existing Instance spec_constructors.

Lemma in_startup_T1 : "T1" ∈ startup c_startup.
Proof. apply (bool_decide_unpack _). vm_compute. reflexivity. Qed.

Lemma not_in_startup_T1 : "T1" ∉ startup c_started.
Proof. apply (bool_decide_unpack _). vm_compute. reflexivity. Qed.

(** C1 at T1 while it starts up: a team, a user and a channel upsert, all
    silent. *)
Lemma startup_suppresses_events_witness :
  effects (addTeam ex_team_bare c_startup) = no_effects
  ∧ emitted (effects (addUser ex_user true c_startup)) = []
  ∧ effects (addChannel ex_channel true c_startup) = no_effects.
Proof.
  destruct (startup_suppresses_events c_startup) as (Ht & Hu & Hc & _).
  split_and!.
  - apply Ht. exact in_startup_T1.
  - eapply Hu; [vm_compute; reflexivity | exact in_startup_T1].
  - eapply (Hc ex_channel true "T1");
      [reflexivity | discriminate | vm_compute; reflexivity | exact in_startup_T1].
Defined.

(** C2, as stated, fails on a full-bot user that is there already: outside
    startup, with its team in the store, upserting it again emits no
    event. *)
Lemma fullbot_change_emits_nothing :
  starting c_bot "T1" = false
  ∧ (∃ team bot, teams c_bot !! "T1" = Some team ∧ t_id team = "T1" ∧
                 t_users team !! "B1" = Some bot ∧ User_fullBot bot = true)
  ∧ addUser ex_bot true c_bot = mkRun (Returned tt) c_bot no_effects
  ∧ length (emitted (effects (addUser ex_bot true c_bot))) ≠ 1.
Proof.
  split_and!.
  - vm_compute. reflexivity.
  - eexists _, _. split_and!; vm_compute; reflexivity.
  - vm_compute. reflexivity.
  - vm_compute. discriminate.
Defined.

(** C2 as amended, at T1 outside startup: a new user gets its one
    [addUser]. *)
Lemma upsert_emits_one_event_witness :
  emitted (effects (addUser ex_user true c_started)) =
    [EvAddUser (User_new c_started ex_user)].
Proof.
  destruct (upsert_emits_one_event c_started) as (_ & Hu & _).
  destruct (Hu ex_user true _ ltac:(vm_compute; reflexivity) not_in_startup_T1)
    as [_ He].
  exact He.
Defined.

(** C3, as stated, fails for [fakeId]: a payload that does not own it
    resets it, once the client has a token for the team. *)
Lemma patch_resets_fakeId :
  td_fakeId ex_team_bare = Absent
  ∧ t_fakeId ex_fake_team = Some "F1"
  ∧ t_fakeId (Team_patch ex_tokens ex_fake_team ex_team_bare) = None
  ∧ t_fakeId (Team_patch ex_tokens ex_fake_team ex_team_bare) ≠ t_fakeId ex_fake_team.
Proof. split_and!; vm_compute; (reflexivity || discriminate). Defined.

(** C3 as amended, at the example of the specification: [{id: "T1"}] after
    [{id: "T1", name: "Acme"}] leaves the name "Acme". *)
Lemma patch_is_presence_gated_witness :
  ∃ t, teams (store ((addTeam ex_team_acme ;; addTeam ex_team_bare) empty_client))
         !! "T1" = Some t
       ∧ t_name t = Some "Acme".
Proof.
  destruct (patch_is_presence_gated empty_client Team_init ex_team_bare)
    as (_ & _ & _ & _ & _ & H).
  destruct (H ex_team_acme eq_refl eq_refl) as (t1 & t2 & _ & H2 & Hn & Hv).
  exists t2. split; [exact H2|]. rewrite Hn. exact (Hv _ eq_refl).
Defined.

(** C4, as stated, fails: a new full-bot user, outside startup, gets no
    [addUser] event. *)
Lemma new_fullbot_emits_nothing :
  starting c_started "T1" = false
  ∧ (∃ team, teams c_started !! "T1" = Some team ∧ t_id team = "T1" ∧
             t_users team !! "B1" = None)
  ∧ User_fullBot (User_new c_started ex_bot) = true
  ∧ emitted (effects (addUser ex_bot true c_started)) = []
  ∧ emitted (effects (addUser ex_bot true c_started)) ≠
      [EvAddUser (User_new c_started ex_bot)].
Proof.
  split_and!.
  - vm_compute. reflexivity.
  - eexists. split_and!; vm_compute; reflexivity.
  - vm_compute. reflexivity.
  - vm_compute. reflexivity.
  - vm_compute. discriminate.
Defined.

(** C4 as amended, at a user that is not a full bot. *)
Lemma fullBot_suppresses_both_paths_witness :
  emitted (effects (addUser ex_user true c_started)) =
    [EvAddUser (User_new c_started ex_user)].
Proof.
  destruct (fullBot_suppresses_both_paths c_started ex_user true _
              ltac:(vm_compute; reflexivity) not_in_startup_T1) as [_ Hnew].
  exact (Hnew eq_refl).
Defined.

(** C5 at an edit and at a join. *)
Lemma message_event_classification_witness :
  message_events (emitted (effects (handleMessageEvent ex_edit c_started))) =
    [EvMessageChanged
       (Message_new c_started (md_previous_message ex_edit) "T1" (Some "C1") (Some "U1"))
       (Message_new c_started (md_message ex_edit) "T1" (Some "C1") (Some "U1"))]
  ∧ handleMessageEvent ex_join c_started = mkRun (Returned tt) c_started no_effects.
Proof.
  split.
  - destruct (message_event_classification c_started ex_edit) as (_ & H & _).
    destruct (H eq_refl (or_introl eq_refl) (or_introl eq_refl))
      as (_ & _ & Hchanged & _).
    exact (Hchanged eq_refl).
  - destruct (message_event_classification c_started ex_join) as [H _].
    exact (H eq_refl).
Defined.

(** C5, as stated, fails: an event whose subtype is not one of the three
    suppressed ones yields no event at all when its bot cannot be upserted,
    and none either when it names no channel; the handler throws. *)
Lemma unplaceable_message_emits_nothing :
  includes suppressed_subtypes (md_subtype ex_bot_message) = false
  ∧ handleMessageEvent ex_bot_message c_started =
      mkRun (Thrown "Team not found") c_started no_effects
  ∧ includes suppressed_subtypes (md_subtype ex_no_channel) = false
  ∧ outcome (handleMessageEvent ex_no_channel c_started) = Thrown "TypeError"
  ∧ emitted (effects (handleMessageEvent ex_no_channel c_started)) = [].
Proof. split_and!; vm_compute; reflexivity. Defined.

(** C7, as stated, fails: the reconnect timer that was pending when
    [disconnect] was called is pending after it, and when it expires it
    restarts the session that [disconnect] has torn down. *)
Lemma timer_outlives_disconnect :
  let l1 := step (disconnect (λ _, Resolved tt) (Resolved tt)) ex_loop in
  lp_timers ex_loop = [mkTimer 15000 ex_rtm]
  ∧ lp_timers l1 = [mkTimer 15000 ex_rtm]
  ∧ ∃ l2, fire 0 (Resolved tt) l1 = Some l2
          ∧ lp_calls l2 =
              [CallRtmDisconnect ex_rtm; CallRtmDisconnect ex_rtm; CallRtmStart ex_rtm]
          ∧ lp_timers l2 = [].
Proof.
  simpl. split_and!; [vm_compute; reflexivity..|].
  eexists. split_and!; vm_compute; reflexivity.
Defined.

(** C7 as amended, at that loop. *)
Lemma disconnect_tears_down_sessions_witness :
  let l1 := step (disconnect (λ _, Resolved tt) (Resolved tt)) ex_loop in
  CallRtmDisconnect ex_rtm ∈ lp_calls l1 ∧ lp_timers l1 = lp_timers ex_loop.
Proof.
  destruct (disconnect_tears_down_sessions ex_loop (λ _, Resolved tt) (Resolved tt)
              (λ _, eq_refl) eq_refl) as (_ & _ & _ & Hall & Htimers & _).
  split; [|exact Htimers].
  apply (Hall "T1"). vm_compute. reflexivity.
Defined.

(** C8 at the cursors "a", "b", "": three requests, and the channel of the
    last page and the member are in the store; and at a team that keeps its
    [fakeId]: one request, for [team.info]. *)
Lemma load_drains_pagination_witness :
  let r := load "T1" ex_script c_connected in
  (outcome r = Returned []
   ∧ conversations_cursors (calls (effects r)) = [None; Some "a"; Some "b"]
   ∧ users_cursors (calls (effects r)) = [None]
   ∧ holds_channel "T1" (set_team_id "T1" (mkChannelData "C3" None None Absent)) (store r)
   ∧ holds_user ex_user (store r)
   ∧ ∃ t, teams (store r) !! "T1" = Some t ∧ t_partial t = false)
  ∧ calls (effects (load "T1" [Resolved (Some ex_info_bare)] c_fake)) =
      [CallTeamInfo ex_web "T1"].
Proof.
  split.
  2:{ destruct (load_drains_pagination "T1" c_fake ex_fake_team ex_web ex_info_bare
                  ex_team_bare ltac:(vm_compute; reflexivity)
                  ltac:(vm_compute; reflexivity) eq_refl eq_refl) as [Hfake _].
      by rewrite (Hfake ltac:(vm_compute; reflexivity) []). }
  assert (Hp : paginated ex_channel_pages ex_channel_last).
  { split; [|reflexivity]. repeat constructor. }
  assert (Hu : paginated [] ex_user_last).
  { split; [|reflexivity]. constructor. }
  assert (Ht : is_Some (teams c_connected !! ud_team_id ex_user)).
  { eexists. vm_compute. reflexivity. }
  assert (Hall : Forall (reachable c_connected) (all_items [] ex_user_last)).
  { constructor; [left; exact Ht|constructor]. }
  destruct (load_drains_pagination "T1" c_connected _ ex_web ex_info ex_team_acme
              ltac:(vm_compute; reflexivity) ltac:(vm_compute; reflexivity)
              eq_refl eq_refl) as [_ Hdrain].
  destruct (Hdrain ltac:(vm_compute; reflexivity) eq_refl ltac:(discriminate)
              ex_web ex_channel_pages ex_channel_last [] ex_user_last []
              ltac:(vm_compute; reflexivity) Hp Hu Hall)
    as (Ho & Hc & Hus & Hch & Hmem & Hloaded & _).
  split_and!; [exact Ho | exact Hc | exact Hus | | | exact Hloaded].
  - apply Hch. unfold all_items. simpl.
    apply list_elem_of_further, list_elem_of_further, list_elem_of_here.
  - apply Hmem; [|exact Ht]. unfold all_items. simpl. apply list_elem_of_here.
Defined.

(** C8, as stated, fails for a team that keeps its [fakeId]: [load] returns
    after the [team.info] request alone, with the team marked as loaded, and
    the listings that would have answered are never asked for; no channel
    and no user is stored. *)
Lemma load_skips_listings_under_fakeId :
  let script := Resolved (Some ex_info_bare)
                  :: (channels_page <$> ex_channel_pages) ++ channels_page ex_channel_last
                  :: [users_page ex_user_last] in
  let r := load "T1" script c_fake in
  outcome r = Returned ((channels_page <$> ex_channel_pages) ++ channels_page ex_channel_last
                          :: [users_page ex_user_last])
  ∧ calls (effects r) = [CallTeamInfo ex_web "T1"]
  ∧ conversations_cursors (calls (effects r)) = []
  ∧ users_cursors (calls (effects r)) = []
  ∧ getChannel "C1" "T1" (store r) = None
  ∧ getUser "U1" "T1" (store r) = None
  ∧ (t_partial <$> teams (store r) !! "T1") = Some false.
Proof. split_and!; vm_compute; reflexivity. Defined.

(** The three channels of the three pages are in the store after that
    load. *)
Example load_example_channels :
  (λ t : Team, dom (t_channels t))
    <$> teams (store (load "T1" ex_script c_connected)) !! "T1"
  = Some (list_to_set ["C1"; "C2"; "C3"] : gset string).
Proof. vm_compute. reflexivity. Qed.

(** C9, as stated, fails when no request client is registered under the team
    id: the upsert throws, and nothing is fetched. *)
Lemma autocreate_without_client_throws :
  teams empty_client !! "T1" = None
  ∧ addUser ex_user true empty_client =
      mkRun (Thrown "Team not found") empty_client no_effects
  ∧ addChannel ex_channel true empty_client =
      mkRun (Thrown "Team not found") empty_client no_effects
  ∧ calls (effects (addUser ex_user true empty_client)) = []
  ∧ deferred (effects (addUser ex_user true empty_client)) = [].
Proof. split_and!; vm_compute; reflexivity. Defined.

(** C9 as amended, with a request client and without. *)
Lemma unknown_team_upsert_witness :
  addUser ex_user true c_web =
    mkRun (Returned tt) c_web (mkEffects [] [CallTeamInfo ex_web "T1"] [TaskRetryUser ex_user] [])
  ∧ addUser ex_user false c_web = mkRun (Returned tt) c_web no_effects.
Proof.
  destruct (unknown_team_upsert c_web) as (Hu & _).
  destruct (Hu ex_user eq_refl) as (Hfetch & _ & Hdrop).
  split; [exact (Hfetch ex_web eq_refl) | exact Hdrop].
Defined.

(** C10 at a channel without a team. *)
Lemma addChannel_without_team_witness :
  addChannel ex_channel_orphan true c_started = mkRun (Returned tt) c_started no_effects.
Proof. apply addChannel_without_team; [reflexivity | right; reflexivity]. Defined.

End AtExamples.

(** * The further properties at the examples *)

Section MoreAtExamples.
#[local] Existing Instance spec_entities.
#[local] Existing Instance spec_constructors.

Lemma empty_client_keys : keys_are_ids empty_client.
Proof. intros k t. unfold empty_client. simpl. by rewrite lookup_empty. Qed.

Lemma empty_client_clients : clients_have_teams empty_client.
Proof. intros k [w Hw]. unfold empty_client in Hw. simpl in Hw. by rewrite lookup_empty in Hw. Qed.

Lemma ex_script_about_T1 : about_team "T1" ex_script.
Proof.
  unfold about_team, ex_script. simpl.
  repeat (apply Forall_cons; split);
    try (intros res [= <-]; split; [by intros ti [= <-]|];
         intros ms; simpl; try done; intros [= <-]; by repeat constructor).
  apply Forall_nil. done.
Qed.

Lemma c_connected_starting_up : starting_up "T1" c_connected.
Proof.
  split.
  - apply (bool_decide_unpack _). vm_compute. reflexivity.
  - eexists. split; vm_compute; reflexivity.
Qed.

(** X2 at the store with team T1 and the bot B1. *)
Lemma teams_stored_under_their_id_witness : keys_are_ids c_bot.
Proof.
  destruct teams_stored_under_their_id as (Ht & Hu & _).
  apply (Hu ex_bot true c_started). apply (Ht ex_team_acme empty_client).
  exact empty_client_keys.
Defined.

(** X4 after the session of T1 has authenticated on an empty client. *)
Lemma request_clients_have_teams_witness :
  clients_have_teams
    (store (on_authenticated ex_rtm ex_web "xoxb-1" ex_team_acme "U1"
                             (Absent : field string) ex_script None empty_client)).
Proof.
  destruct request_clients_have_teams as (_ & _ & _ & _ & _ & _ & Ha & _).
  apply Ha. exact empty_client_clients.
Defined.

(** X5 at the empty client. *)
Lemma unknown_team_never_fetched_witness :
  addUser ex_user true empty_client =
    mkRun (Thrown "Team not found") empty_client no_effects.
Proof.
  destruct (unknown_team_never_fetched empty_client empty_client_clients) as [Hu _].
  apply Hu. vm_compute. reflexivity.
Defined.

(** X6 at the load of T1. *)
Lemma load_is_silent_in_startup_witness :
  emitted (effects (load "T1" ex_script c_connected)) = [].
Proof.
  destruct (load_is_silent_in_startup "T1" ex_script c_connected
              ltac:(discriminate) ex_script_about_T1 c_connected_starting_up)
    as (He & _).
  exact He.
Defined.

(** X7 at the session of T1 on an empty client. *)
Lemma authenticated_is_silent_witness :
  emitted (effects (on_authenticated ex_rtm ex_web "xoxb-1" ex_team_acme "U1"
                                     (Absent : field string) ex_script None
                                     empty_client)) = [].
Proof.
  destruct (authenticated_is_silent ex_rtm ex_web "xoxb-1" ex_team_acme "U1"
              (Absent : field string) ex_script None empty_client
              ltac:(discriminate) ex_script_about_T1) as (He & _).
  exact He.
Defined.

(** X9 at a new user of T1. *)
Lemma addUser_then_getUser_witness :
  getUser "U1" "T1" (store (addUser ex_user true c_started)) =
    Some (User_new c_started ex_user).
Proof.
  destruct (addUser_then_getUser c_started ex_user true _
              ltac:(vm_compute; reflexivity)) as (_ & Hnew & _).
  exact (Hnew eq_refl).
Defined.

(** X10 at a new channel of T1. *)
Lemma addChannel_then_getChannel_witness :
  getChannel "C1" "T1" (store (addChannel ex_channel true c_started)) =
    Some (Channel_new c_started ex_channel).
Proof.
  destruct (addChannel_then_getChannel c_started ex_channel true "T1" _
              eq_refl ltac:(discriminate) ltac:(vm_compute; reflexivity))
    as (_ & Hnew & _).
  exact (Hnew eq_refl).
Defined.

(** X12 at T1 outside startup. *)
Lemma addTeam_twice_witness :
  ∃ t, getTeam "T1" (store (addTeam ex_team_acme empty_client)) = Some t ∧
       emitted (effects (addTeam ex_team_acme (store (addTeam ex_team_acme empty_client))))
         = [EvChangeTeam t t].
Proof.
  destruct (addTeam_twice empty_client ex_team_acme) as [_ H].
  apply H. apply (bool_decide_unpack _). vm_compute. reflexivity.
Defined.

(** X13 at the second upsert of T1. *)
Lemma addTeam_keeps_partial_witness :
  ∃ t', getTeam "T1" (store (addTeam ex_team_bare c_started)) = Some t' ∧
        t_partial t' = true.
Proof.
  apply (addTeam_keeps_partial c_started ex_team_bare).
  intros t Ht. vm_compute in Ht. injection Ht as <-. reflexivity.
Defined.

(** X14 at a rejected [team.info] for T1. *)
Lemma load_fails_early_witness :
  load "T1" [Rejected] c_connected =
    mkRun (Thrown "rejected") c_connected
          (mkEffects [] [CallTeamInfo ex_web "T1"] [] []).
Proof.
  destruct (load_fails_early c_connected "T1" _ ltac:(vm_compute; reflexivity))
    as (_ & H).
  destruct (H ex_web ltac:(vm_compute; reflexivity)) as (_ & Hrej & _).
  exact (Hrej []).
Defined.

(** X15 at the team under its placeholder id. *)
Lemma load_stops_at_fakeId_witness :
  calls (effects (load "T1" [Resolved (Some ex_info_bare)] c_fake)) =
    [CallTeamInfo ex_web "T1"]
  ∧ outcome (load "T1" [Resolved (Some ex_info_bare)] c_fake) = Returned [].
Proof.
  rewrite (load_stops_at_fakeId c_fake "T1" ex_fake_team ex_web ex_info_bare
             ex_team_bare []
             ltac:(vm_compute; reflexivity) ltac:(vm_compute; reflexivity)
             eq_refl eq_refl ltac:(vm_compute; reflexivity)).
  split; reflexivity.
Defined.

(** X16 at the load of T1. *)
Lemma load_marks_loaded_iff_returned_witness :
  loaded_iff_returned "T1" (load "T1" ex_script c_connected).
Proof.
  apply (load_marks_loaded_iff_returned c_connected "T1" _ ex_script
           ltac:(vm_compute; reflexivity) ltac:(vm_compute; reflexivity)).
Defined.

(** X17 at T1 once it is loaded: three channels, three joins. *)
Lemma joinAllChannels_loaded_witness :
  length (calls (effects (joinAllChannels "T1" [] (λ _, Resolved tt) c_loaded))) = 3.
Proof.
  destruct (joinAllChannels_loaded c_loaded "T1" _ [] (λ _, Resolved tt)
              ltac:(vm_compute; reflexivity) ltac:(vm_compute; reflexivity)
              (λ _, eq_refl)) as [-> _].
  vm_compute. reflexivity.
Defined.

(** X18 at the session of T1. *)
Lemma disconnect_stops_at_failure_witness :
  ∃ k r, rtmMap c_connected !! k = Some r ∧
         disconnect (λ _, Rejected) (Resolved tt) c_connected =
           mkRun (Thrown "rejected") c_connected
                 (mkEffects [] [CallRtmDisconnect r] [] []).
Proof.
  apply (disconnect_stops_at_failure c_connected (λ _, Rejected) (Resolved tt)
           (λ _, eq_refl)).
  intros H. assert (Hl : rtmMap c_connected !! "T1" = None).
  { rewrite H. apply lookup_empty. }
  vm_compute in Hl. discriminate.
Defined.

(** X20 at the message of a bot nobody knows. *)
Lemma message_of_unresolvable_bot_throws_witness :
  handleMessageEvent ex_bot_message c_started =
    mkRun (Thrown "Team not found") c_started no_effects.
Proof.
  apply message_of_unresolvable_bot_throws;
    [reflexivity | reflexivity | vm_compute; reflexivity | vm_compute; reflexivity].
Defined.

(** X21 at a message without channel. *)
Lemma message_without_channel_throws_witness :
  handleMessageEvent ex_no_channel c_started =
    mkRun (Thrown "TypeError") c_started no_effects.
Proof.
  destruct (message_without_channel_throws c_started ex_no_channel
              eq_refl (or_introl eq_refl) eq_refl eq_refl) as [H _].
  exact H.
Defined.

(** X22 at a message whose actor is named in the embedded message only. *)
Lemma message_actor_resolution_witness :
  message_userId ex_embedded_actor = Some "U1".
Proof.
  destruct (message_actor_resolution c_started ex_embedded_actor)
    as (_ & _ & H & _).
  exact (H eq_refl eq_refl _ eq_refl eq_refl).
Defined.

(** X24 at T1. *)
Lemma app_uninstalled_removes_team_witness :
  getTeam "T1" (store (on_app_uninstalled "A1" (Some "A1") "T1" (Resolved tt)
                                          c_connected)) = None.
Proof.
  destruct (app_uninstalled_removes_team c_connected "A1" (Some "A1") "T1" (Resolved tt))
    as (_ & H & _).
  destruct (H eq_refl (or_introl eq_refl)) as (_ & _ & Hg & _).
  exact Hg.
Defined.

(** X25 at T1, in a client with the events adapter: a [user_change] of the
    events adapter after the uninstall. *)
Lemma upsert_after_uninstall_throws_witness :
  let c' := store (on_app_uninstalled "A1" (Some "A1") "T1" (Resolved tt) c_events) in
  events_on_user "A1" (Some "A1") "T1" ex_user c' =
    mkRun (Thrown "Team not found") c' no_effects.
Proof.
  destruct (upsert_after_uninstall_throws c_events "A1" "T1" (Resolved tt)
              ex_user ex_channel Rejected (or_introl eq_refl) ltac:(discriminate))
    as [H _].
  exact H.
Defined.

End MoreAtExamples.
